(** * weather_by_storm: a shallow embedding of the hazard-map builder

    The Python module [weather_by_storm.py] fetches seven public feeds,
    turns their records into circles and polygons on a folium map and
    estimates an impact radius for each record.  This file embeds the
    functions of that module and states the properties of its
    specification over the embedding.

    Conventions of the embedding.
    - Python [str] values are ASCII strings ([string]).
    - A Python [float] is a rational ([Q]; the literal parser returns it
      reduced) or one of the three special values.  Rounding to
      binary64 and underflow are not represented; overflow is: a
      literal or a product whose magnitude reaches [2^1024 - 2^970]
      becomes an infinity, and [float()] of such an integer and
      [10 ** x] with such a result raise [OverflowError].  The two
      estimators that need transcendental functions (earthquakes,
      wildfires) compute over [R] in the same way.
    - A parsed JSON document is a value of type [json]; a Python [dict]
      is an association list that holds each key once.
    - The body of a [try] block is a computation in the monad [M]: it
      returns or raises, and what it drew before raising stays drawn.
    - What folium and [str()] do with a value is left open (section
      variables); what urllib3 and requests do with a status code is
      embedded as those libraries define it. *)

From Stdlib Require Import List String Ascii Bool ZArith QArith Qminmax Qreals Lia.
From Stdlib Require Import Reals Lra Machin.
From Stdlib Require Lqa.
From Stdlib Require Import Sorted.
Import ListNotations.

Local Open Scope string_scope.
Local Open Scope Z_scope.

(** ** Strings *)

(** [str.isspace] on ASCII: TAB..CR, FS..US and the blank. *)
Definition str_isspace (c : ascii) : bool :=
  let n := nat_of_ascii c in
  ((9 <=? n) && (n <=? 13) || (28 <=? n) && (n <=? 32))%nat.

(** C's [isspace] as used by [float()]: TAB..CR and the blank. *)
Definition c_isspace (c : ascii) : bool :=
  let n := nat_of_ascii c in
  ((9 <=? n) && (n <=? 13) || (n =? 32))%nat.

Fixpoint drop_while (p : ascii -> bool) (l : list ascii) : list ascii :=
  match l with
  | [] => []
  | c :: l' => if p c then drop_while p l' else l
  end.

Definition strip_with (p : ascii -> bool) (l : list ascii) : list ascii :=
  rev (drop_while p (rev (drop_while p l))).

(** [s.strip()] *)
Definition strip (s : string) : string :=
  string_of_list_ascii (strip_with str_isspace (list_ascii_of_string s)).

Definition upper_char (c : ascii) : ascii :=
  let n := nat_of_ascii c in
  if ((97 <=? n) && (n <=? 122))%nat then ascii_of_nat (n - 32) else c.

(** [s.upper()] *)
Fixpoint upper (s : string) : string :=
  match s with
  | EmptyString => EmptyString
  | String c s' => String (upper_char c) (upper s')
  end.

(** [s.endswith(c)] for a one-character suffix. *)
Fixpoint endswith (s : string) (c : ascii) : bool :=
  match s with
  | EmptyString => false
  | String a EmptyString => Ascii.eqb a c
  | String _ s' => endswith s' c
  end.

(** [s[:-1]] *)
Fixpoint drop_last (s : string) : string :=
  match s with
  | EmptyString => EmptyString
  | String _ EmptyString => EmptyString
  | String a s' => String a (drop_last s')
  end.

(** [needle in s] *)
Fixpoint contains (needle s : string) : bool :=
  prefix needle s ||
  match s with
  | EmptyString => false
  | String _ s' => contains needle s'
  end.

(** ** Floats *)

Inductive xnum (A : Type) : Type :=
| Fin (a : A)
| PInf
| NInf
| NaN.
Arguments Fin {A} a.
Arguments PInf {A}.
Arguments NInf {A}.
Arguments NaN {A}.

(** A Python float whose finite values are rationals. *)
Definition pyfloat : Type := xnum Q.

Definition fin (q : Q) : pyfloat := Fin (Qred q).

(** [-x] *)
Definition fneg (x : pyfloat) : pyfloat :=
  match x with
  | Fin q => fin (- q)
  | PInf => NInf
  | NInf => PInf
  | NaN => NaN
  end.

(** [x < y]; every comparison with NaN is false. *)
Definition flt (x y : pyfloat) : bool :=
  match x, y with
  | NaN, _ | _, NaN => false
  | Fin a, Fin b => match (a ?= b)%Q with Lt => true | _ => false end
  | NInf, NInf => false
  | NInf, _ => true
  | PInf, _ => false
  | Fin _, PInf => true
  | Fin _, NInf => false
  end.

(** [max(a, b)] of the builtin: [b] when [b > a], else [a]. *)
Definition fmax (a b : pyfloat) : pyfloat := if flt a b then b else a.

(** [min(a, b)] of the builtin: [b] when [b < a], else [a]. *)
Definition fmin (a b : pyfloat) : pyfloat := if flt b a then b else a.

(** [x != 0], the truth value of a float. *)
Definition fnonzero (x : pyfloat) : bool :=
  match x with
  | Fin q => negb (Qeq_bool q 0)
  | _ => true
  end.

(** *** Overflow

    The least magnitude that rounds to an infinity: the midpoint of the
    largest binary64 number and [2^1024], a tie that goes to the even
    neighbour [2^1024]. *)
Definition float_overflow : Z := 2 ^ 1024 - 2 ^ 970.

(** A non-negative decimal literal as [float()] reads it. *)
Definition round_literal (q : Q) : pyfloat :=
  if Qle_bool (inject_Z float_overflow) q then PInf else Fin q.

(** *** [float(str)]

    The literal grammar of [float()]: blanks around, an optional sign,
    then [inf], [infinity], [nan] (any case) or a decimal number with an
    optional exponent; an underscore may stand between two digits. *)

Definition is_digit (c : ascii) : bool :=
  let n := nat_of_ascii c in ((48 <=? n) && (n <=? 57))%nat.

Definition digit_val (c : ascii) : Z := Z.of_nat (nat_of_ascii c - 48).

(** Digits read so far: their value and how many there were. *)
Record digits : Type := { dval : Z; dlen : nat }.

Definition push_digit (d : digits) (c : ascii) : digits :=
  {| dval := 10 * dval d + digit_val c; dlen := S (dlen d) |}.

(** The rest of a digit part, after its first digit. *)
Fixpoint digits_rest (d : digits) (l : list ascii) : digits * list ascii :=
  match l with
  | c :: l' =>
      if is_digit c then digits_rest (push_digit d c) l'
      else if Ascii.eqb c "_" then
        match l' with
        | c' :: l'' =>
            if is_digit c' then digits_rest (push_digit d c') l'' else (d, l)
        | [] => (d, l)
        end
      else (d, l)
  | [] => (d, l)
  end.

(** A digit part continuing [d]; [None] when no digit is there. *)
Definition digitpart (d : digits) (l : list ascii)
  : option (digits * list ascii) :=
  match l with
  | c :: l' => if is_digit c then Some (digits_rest (push_digit d c) l') else None
  | [] => None
  end.

Definition no_digits : digits := {| dval := 0; dlen := 0 |}.

(** An optional sign; [true] stands for minus. *)
Definition sign (l : list ascii) : bool * list ascii :=
  match l with
  | c :: l' =>
      if Ascii.eqb c "-" then (true, l')
      else if Ascii.eqb c "+" then (false, l')
      else (false, l)
  | [] => (false, l)
  end.

(** The exponent: absent, or [e] with a signed digit part up to the end. *)
Definition exponent (l : list ascii) : option Z :=
  match l with
  | [] => Some 0
  | c :: l' =>
      if Ascii.eqb (upper_char c) "E" then
        let (neg, l1) := sign l' in
        match digitpart no_digits l1 with
        | Some (d, []) => Some (if neg then - dval d else dval d)
        | _ => None
        end
      else None
  end.

(** Mantissa digits [m] with [k] of them after the point, exponent [e]. *)
Definition decimal_value (m : digits) (k : nat) (e : Z) : Q :=
  Qred (inject_Z (dval m) * Qpower (10 # 1) (e - Z.of_nat k)).

(** A decimal number with optional exponent, up to the end of input. *)
Definition floatnumber (l : list ascii) : option Q :=
  match l with
  | c :: l' =>
      if Ascii.eqb c "." then
        match digitpart no_digits l' with
        | Some (m, l1) =>
            option_map (decimal_value m (dlen m)) (exponent l1)
        | None => None
        end
      else
        match digitpart no_digits l with
        | Some (i, c1 :: l1) =>
            if Ascii.eqb c1 "." then
              match digitpart i l1 with
              | Some (m, l2) =>
                  option_map (decimal_value m (dlen m - dlen i)) (exponent l2)
              | None => option_map (decimal_value i 0) (exponent l1)
              end
            else option_map (decimal_value i 0) (exponent (c1 :: l1))
        | Some (i, []) => Some (decimal_value i 0 0)
        | None => None
        end
  | [] => None
  end.

Definition absfloatvalue (l : list ascii) : option pyfloat :=
  let u := upper (string_of_list_ascii l) in
  if String.eqb u "INF" || String.eqb u "INFINITY" then Some PInf
  else if String.eqb u "NAN" then Some NaN
  else option_map round_literal (floatnumber l).

(** [float(s)] for a string [s]; [None] stands for [ValueError]. *)
Definition float_of_string (s : string) : option pyfloat :=
  let (neg, l) := sign (strip_with c_isspace (list_ascii_of_string s)) in
  option_map (fun x => if neg then fneg x else x) (absfloatvalue l).

(** [x * y] *)
Definition fmul (x y : pyfloat) : pyfloat :=
  let neg (s : bool) : pyfloat := if s then NInf else PInf in
  let qneg (q : Q) : bool := match q ?= 0 with Lt => true | _ => false end%Q in
  match x, y with
  | NaN, _ | _, NaN => NaN
  | Fin a, Fin b => fin (a * b)
  | Fin a, PInf | PInf, Fin a =>
      if Qeq_bool a 0 then NaN else neg (qneg a)
  | Fin a, NInf | NInf, Fin a =>
      if Qeq_bool a 0 then NaN else neg (negb (qneg a))
  | PInf, PInf | NInf, NInf => PInf
  | PInf, NInf | NInf, PInf => NInf
  end.

(** ** JSON values and the Python operations applied to them *)

#[warnings="-register-all"]
Inductive json : Type :=
| JNull
| JBool (b : bool)
| JInt (z : Z)
| JFloat (x : pyfloat)
| JStr (s : string)
| JArr (l : list json)
| JObj (kv : list (string * json)).

(** Truth value of an object, as tested by [if], [not] and [or]. *)
Definition truthy (v : json) : bool :=
  match v with
  | JNull => false
  | JBool b => b
  | JInt z => negb (z =? 0)
  | JFloat x => fnonzero x
  | JStr s => negb (String.eqb s EmptyString)
  | JArr l => match l with [] => false | _ => true end
  | JObj kv => match kv with [] => false | _ => true end
  end.

(** [a or b] *)
Definition py_or (a b : json) : json := if truthy a then a else b.

(** [d.get(k, default)] on a dict. *)
Fixpoint dict_get_default (kv : list (string * json)) (k : string)
  (default : json) : json :=
  match kv with
  | [] => default
  | (k', v) :: kv' =>
      if String.eqb k' k then v else dict_get_default kv' k default
  end.

(** [d.get(k)] on a dict. *)
Definition dict_get (kv : list (string * json)) (k : string) : json :=
  dict_get_default kv k JNull.

(** [isinstance(v, (int, float))]; [bool] is a subclass of [int]. *)
Definition is_number (v : json) : bool :=
  match v with
  | JBool _ | JInt _ | JFloat _ => true
  | _ => false
  end.

(** [float(v)]; [None] stands for the exception it raises: [TypeError],
    [ValueError], or [OverflowError] for an integer too large. *)
Definition py_float (v : json) : option pyfloat :=
  match v with
  | JBool b => Some (Fin (if b then 1 else 0)%Q)
  | JInt z =>
      if Z.abs z <? float_overflow then Some (Fin (inject_Z z)) else None
  | JFloat x => Some x
  | JStr s => float_of_string s
  | JNull | JArr _ | JObj _ => None
  end.

(** [to_float]: [float(v)], with every exception turned into [None]. *)
Definition to_float (v : json) : option pyfloat := py_float v.

(** [parse_lat].  The result is what the function returns, [None]
    included; the outer [None] stands for the [OverflowError] that the
    bare [float(v)] raises for an integer too large, the only exception
    that leaves the function.  For a list or a dict [str(v)] opens with
    a bracket and closes with one, so no suffix test succeeds and
    [to_float] rejects it: the result is [None]. *)
Definition parse_lat (v : json) : option (option pyfloat) :=
  match v with
  | JNull => Some None
  | JBool _ | JInt _ | JFloat _ => option_map Some (py_float v)
  | JStr v =>
      let s := upper (strip v) in
      Some
        (if endswith s "N" then to_float (JStr (drop_last s))
         else if endswith s "S" then
           match to_float (JStr (drop_last s)) with
           | Some val => Some (fneg val)
           | None => None
           end
         else to_float (JStr s))
  | JArr _ | JObj _ => Some None
  end.

(** [parse_lon] *)
Definition parse_lon (v : json) : option (option pyfloat) :=
  match v with
  | JNull => Some None
  | JBool _ | JInt _ | JFloat _ => option_map Some (py_float v)
  | JStr v =>
      let s := upper (strip v) in
      Some
        (if endswith s "E" then to_float (JStr (drop_last s))
         else if endswith s "W" then
           match to_float (JStr (drop_last s)) with
           | Some val => Some (fneg val)
           | None => None
           end
         else to_float (JStr s))
  | JArr _ | JObj _ => Some None
  end.

(** [int(v)]; [None] stands for the exception it raises. *)
Definition int_of_string (s : string) : option Z :=
  let (neg, l) := sign (strip_with c_isspace (list_ascii_of_string s)) in
  match digitpart no_digits l with
  | Some (d, []) => Some (if neg then - dval d else dval d)
  | _ => None
  end.

Definition Qtruncate (q : Q) : Z := Z.quot (Qnum q) (Zpos (Qden q)).

Definition py_int (v : json) : option Z :=
  match v with
  | JBool b => Some (if b then 1 else 0)
  | JInt z => Some z
  | JFloat (Fin q) => Some (Qtruncate q)
  | JStr s => int_of_string s
  | _ => None
  end.

(** ** The tropical-cyclone radius estimator *)

Definition STORM_RADIUS_KM : Q := 200.

Section Cyclone.

(** [str(v)] for a value that is not a string: the text the builtin
    prints, left open. *)
Variable py_repr : json -> string.

Definition py_str (v : json) : string :=
  match v with
  | JStr s => s
  | _ => py_repr v
  end.

(** The category table and its [.get(c, 200.0)]. *)
Definition sshs_radius (c : Z) : Q :=
  match c with
  | 0 => 250 | 1 => 250 | 2 => 300 | 3 => 350 | 4 => 420 | 5 => 500
  | _ => 200
  end.

(** [estimate_tc_radius_km]; both [storm] and the enclosing [s] are the
    storm's dict. *)
Definition estimate_tc_radius_km (storm : list (string * json)) : pyfloat :=
  let wind :=
    to_float (py_or (dict_get storm "wind")
             (py_or (dict_get storm "maxWind")
             (py_or (dict_get storm "intensity")
                    (dict_get storm "sustainedWind")))) in
  let by_status :=
    let status :=
      upper (py_str (py_or (dict_get storm "type")
                    (py_or (dict_get storm "stormType")
                    (py_or (dict_get storm "class")
                    (py_or (dict_get storm "status") (JStr EmptyString)))))) in
    if contains "TD" status then Fin 120%Q
    else if contains "TS" status then Fin 200%Q
    else if contains "HU" status || contains "HURRICANE" status then Fin 320%Q
    else Fin STORM_RADIUS_KM in
  match wind with
  | Some wind =>
      let kts := fmax (Fin 0%Q) wind in
      if flt kts (Fin 34%Q) then Fin 100%Q
      else if flt kts (Fin 50%Q) then Fin 150%Q
      else if flt kts (Fin 64%Q) then Fin 200%Q
      else if flt kts (Fin 83%Q) then Fin 250%Q
      else if flt kts (Fin 96%Q) then Fin 300%Q
      else if flt kts (Fin 113%Q) then Fin 350%Q
      else if flt kts (Fin 137%Q) then Fin 420%Q
      else Fin 500%Q
  | None =>
      let sshs := dict_get storm "sshs" in
      match sshs with
      | JNull => by_status
      | _ =>
          match py_int sshs with
          | Some c => Fin (sshs_radius c)
          | None => by_status
          end
      end
  end.

(** The value the chain of wind keys hands to [to_float]. *)
Definition wind_field (storm : list (string * json)) : json :=
  py_or (dict_get storm "wind")
    (py_or (dict_get storm "maxWind")
       (py_or (dict_get storm "intensity") (dict_get storm "sustainedWind"))).

Definition Qltb (a b : Q) : bool :=
  match (a ?= b)%Q with Lt => true | _ => false end.

(** The band table of the specification: radius in km for a sustained
    wind of [w] knots. *)
Definition wind_band_km (w : Q) : Q :=
  if Qltb w 34 then 100
  else if Qltb w 50 then 150
  else if Qltb w 64 then 200
  else if Qltb w 83 then 250
  else if Qltb w 96 then 300
  else if Qltb w 113 then 350
  else if Qltb w 137 then 420
  else 500.

(** The caller's clamp: [max(60.0, min(600.0, radius_km))]. *)
Definition tc_radius_km (storm : list (string * json)) : pyfloat :=
  fmax (Fin 60%Q) (fmin (Fin 600%Q) (estimate_tc_radius_km storm)).

End Cyclone.

(** ** Real-valued floats for the two analytic estimators *)

Definition xreal : Type := xnum R.

Definition to_real (x : pyfloat) : xreal :=
  match x with
  | Fin q => Fin (Q2R q)
  | PInf => PInf
  | NInf => NInf
  | NaN => NaN
  end.

Section RealFloats.
Local Open Scope R_scope.

Definition xinf (negative : bool) : xreal := if negative then NInf else PInf.

(** [x < y] *)
Definition xlt (x y : xreal) : bool :=
  match x, y with
  | NaN, _ | _, NaN => false
  | Fin a, Fin b => if Rlt_dec a b then true else false
  | NInf, NInf => false
  | NInf, _ => true
  | PInf, _ => false
  | Fin _, PInf => true
  | Fin _, NInf => false
  end.

(** [max(a, b)] and [min(a, b)] of the builtins. *)
Definition xmax (a b : xreal) : xreal := if xlt a b then b else a.
Definition xmin (a b : xreal) : xreal := if xlt b a then b else a.

(** The bound of [float_overflow] as a real. *)
Definition float_bound : R := IZR float_overflow.

(** A finite result, or the infinity it overflows to. *)
Definition overflow (r : R) : xreal :=
  if Rle_dec float_bound r then PInf
  else if Rle_dec r (- float_bound) then NInf
  else Fin r.

(** [x * y] *)
Definition xmul (x y : xreal) : xreal :=
  match x, y with
  | NaN, _ | _, NaN => NaN
  | Fin a, Fin b => overflow (a * b)
  | Fin a, PInf | PInf, Fin a =>
      if Req_dec_T a 0 then NaN else xinf (if Rlt_dec a 0 then true else false)
  | Fin a, NInf | NInf, Fin a =>
      if Req_dec_T a 0 then NaN else xinf (if Rlt_dec a 0 then false else true)
  | PInf, PInf | NInf, NInf => PInf
  | PInf, NInf | NInf, PInf => NInf
  end.

(** [x - y] *)
Definition xsub (x y : xreal) : xreal :=
  match x, y with
  | NaN, _ | _, NaN => NaN
  | Fin a, Fin b => Fin (a - b)
  | Fin _, PInf => NInf
  | Fin _, NInf => PInf
  | PInf, PInf | NInf, NInf => NaN
  | PInf, _ => PInf
  | NInf, _ => NInf
  end.

(** [x / c] for a finite positive constant [c]; the module divides by
    [pi] only. *)
Definition xdiv_const (x : xreal) (c : R) : xreal :=
  match x with
  | Fin a => Fin (a / c)
  | other => other
  end.

(** [10 ** x]; [None] stands for the [OverflowError] that the power of
    a finite [x] raises when it is out of range. *)
Definition xpow10 (x : xreal) : option xreal :=
  match x with
  | Fin a =>
      if Rle_dec float_bound (Rpower 10 a) then None
      else Some (Fin (Rpower 10 a))
  | PInf => Some PInf
  | NInf => Some (Fin 0)
  | NaN => Some NaN
  end.

(** [x ** 0.5] and [math.sqrt(x)] for [x >= 0]; both are only applied
    to values that are not negative. *)
Definition xsqrt (x : xreal) : xreal :=
  match x with
  | Fin a => Fin (sqrt a)
  | PInf | NInf => PInf
  | NaN => NaN
  end.

(** [math.radians(x)] *)
Definition xradians (x : xreal) : xreal :=
  match x with
  | Fin a => Fin (a * PI / 180)
  | other => other
  end.

(** [math.cos(x)]; [None] stands for the [ValueError] at an infinity. *)
Definition xcos (x : xreal) : option xreal :=
  match x with
  | Fin a => Some (Fin (cos a))
  | NaN => Some NaN
  | PInf | NInf => None
  end.

(** *** Earthquakes: radius of the felt area, in kilometres *)

(** [A = 10 ** (1.02 * M - 1.83)]; [radius_km = (A / pi) ** 0.5].
    [None] stands for the [OverflowError] of the power. *)
Definition seismic_base_radius_km (M : xreal) : option xreal :=
  match xpow10 (xsub (xmul (Fin 1.02) M) (Fin 1.83)) with
  | Some A => Some (xsqrt (xdiv_const A PI))
  | None => None
  end.

(** The depth attenuation that follows. *)
Definition seismic_attenuated_km (M : xreal) (depth_km : option xreal)
  : option xreal :=
  match seismic_base_radius_km M with
  | Some radius_km =>
      Some
        match depth_km with
        | Some depth_km =>
            if xlt (Fin 300) depth_km then xmul radius_km (Fin 0.5)
            else if xlt (Fin 70) depth_km then xmul radius_km (Fin 0.7)
            else radius_km
        | None => radius_km
        end
  | None => None
  end.

(** [radius_km = max(2.0, min(300.0, radius_km))] *)
Definition seismic_radius_km (M : xreal) (depth_km : option xreal)
  : option xreal :=
  match seismic_attenuated_km M depth_km with
  | Some radius_km => Some (xmax (Fin 2) (xmin (Fin 300) radius_km))
  | None => None
  end.

(** *** Wildfires: radius of the sensor footprint, in metres *)

(** The branch taken when scan, track and latitude are all numbers. *)
Definition fire_footprint_radius_m (scan_deg track_deg lat : xreal)
  : option xreal :=
  match xcos (xradians lat) with
  | Some c =>
      let width_m := xmul (xmul scan_deg (Fin 111320)) (xmax (Fin 0) c) in
      let height_m := xmul track_deg (Fin 111320) in
      let radius_m := xsqrt (xdiv_const (xmax (Fin 1) (xmul width_m height_m)) PI) in
      Some (xmax (Fin 150) (xmin (Fin 2000) radius_m))
  | None => None
  end.

(** The whole radius computation of one detection row. *)
Definition fire_radius_m (scan_deg track_deg lat : option pyfloat)
  : option xreal :=
  match scan_deg, track_deg, lat with
  | Some scan_deg, Some track_deg, Some lat =>
      fire_footprint_radius_m (to_real scan_deg) (to_real track_deg) (to_real lat)
  | _, _, _ => Some (Fin 500)
  end.

(** The clamp of a real into [[lo, hi]]. *)
Definition clamp (lo hi x : R) : R := Rmax lo (Rmin hi x).

(** The attenuated radius of a finite magnitude at a finite depth. *)
Definition attenuated (M d : R) : R :=
  let r := sqrt (Rpower 10 (1.02 * M - 1.83) / PI) in
  if Rlt_dec 300 d then r * 0.5 else if Rlt_dec 70 d then r * 0.7 else r.

(** The specification's seismic formula on real numbers. *)
Definition seismic_spec_km (M d : R) : R :=
  let r := sqrt (Rpower 10 (1.02 * M - 1.83) / PI) in
  clamp 2 300
    (if Rlt_dec 300 d then r * 0.5 else if Rlt_dec 70 d then r * 0.7 else r).

(** The specification's wildfire formula on real numbers; it has no
    value when the product under the root is negative. *)
Definition fire_spec_m (scan track lat : R) : option R :=
  let area := (scan * 111320 * cos (lat * PI / 180)) * (track * 111320) in
  if Rle_dec 0 area then Some (clamp 150 2000 (sqrt (area / PI))) else None.

(** The wildfire formula with the two floors of the code written out. *)
Definition fire_guarded_m (scan track lat : R) : R :=
  clamp 150 2000
    (sqrt (Rmax 1 ((scan * 111320 * Rmax 0 (cos (lat * PI / 180)))
                   * (track * 111320)) / PI)).

End RealFloats.


(** ** Python operations that may raise *)

(** [v.get(k, default)]; only a dict has the method. *)
Definition py_get_default (v : json) (k : string) (default : json)
  : option json :=
  match v with
  | JObj kv => Some (dict_get_default kv k default)
  | _ => None
  end.

(** [v.get(k)] *)
Definition py_get (v : json) (k : string) : option json :=
  py_get_default v k JNull.

(** The elements a [for] loop visits: the members of a list, the
    characters of a string, the keys of a dict. *)
Definition py_iter (v : json) : option (list json) :=
  match v with
  | JArr l => Some l
  | JStr s => Some (map (fun c => JStr (String c EmptyString)) (list_ascii_of_string s))
  | JObj kv => Some (map (fun p => JStr (fst p)) kv)
  | _ => None
  end.

(** [len(v)] *)
Definition py_len (v : json) : option nat :=
  match v with
  | JArr l => Some (List.length l)
  | JStr s => Some (String.length s)
  | JObj kv => Some (List.length kv)
  | _ => None
  end.

(** [v[i]] for [i >= 0].  The keys of a parsed dict are strings, so an
    integer subscript of a dict is a [KeyError]. *)
Definition py_index (v : json) (i : nat) : option json :=
  match v with
  | JArr l => nth_error l i
  | JStr s => option_map (fun c => JStr (String c EmptyString)) (String.get i s)
  | _ => None
  end.

(** [v[-1]] *)
Definition py_last (v : json) : option json :=
  match py_len v with
  | Some (S n) => py_index v n
  | _ => None
  end.

(** [a + b] for two lists or two strings.  Two numbers add up to a
    number, after which the radar block draws nothing whether or not
    the next subscript raises; that case is folded into [None]. *)
Definition py_add (a b : json) : option json :=
  match a, b with
  | JArr x, JArr y => Some (JArr (x ++ y))
  | JStr x, JStr y => Some (JStr (x ++ y))
  | _, _ => None
  end.

(** ** What a block draws, and the monad of a [try] block *)

Inductive item : Type :=
| TileLayer (host path : json)
| FadedCircle (lat lon : option pyfloat) (radius_m : xreal)
    (color : string) (steps : nat) (max_opacity : Q)
| CircleMarker (lat lon : option pyfloat) (tooltip : json)
| GeoJson (feature : json) (name : string) (tooltip_detail : json).

(** The state a block works on: the children of its layer, its running
    counter and the shared [counts] dict. *)
Record sst : Type := {
  drawn : list item;
  tally : nat;
  counts : list (string * nat)
}.

(** A computation that returns a value or raises, and keeps its state
    either way. *)
Definition M (A : Type) : Type := sst -> option A * sst.

Definition ret {A : Type} (a : A) : M A := fun s => (Some a, s).

Definition raise {A : Type} : M A := fun s => (None, s).

Definition bind {A B : Type} (m : M A) (f : A -> M B) : M B :=
  fun s =>
    match m s with
    | (Some a, s') => f a s'
    | (None, s') => (None, s')
    end.

Declare Scope py_scope.
Delimit Scope py_scope with py.
Notation "x <- m ;; k" := (bind m (fun x => k))
  (at level 61, m at next level, right associativity) : py_scope.
Notation "m ;; k" := (bind m (fun _ => k))
  (at level 61, right associativity) : py_scope.

(** A value of a partial operation, or its exception. *)
Definition lift {A : Type} (o : option A) : M A :=
  match o with
  | Some a => ret a
  | None => raise
  end.

(** [.add_to(layer)] *)
Definition draw (it : item) : M unit :=
  fun s =>
    (Some tt, {| drawn := drawn s ++ [it]; tally := tally s; counts := counts s |}).

(** [n += 1] on the block's counter. *)
Definition count_one : M unit :=
  fun s =>
    (Some tt, {| drawn := drawn s; tally := S (tally s); counts := counts s |}).

(** [d[k] = v] on an insertion-ordered dict. *)
Fixpoint dict_set {V : Type} (d : list (string * V)) (k : string) (v : V)
  : list (string * V) :=
  match d with
  | [] => [(k, v)]
  | (k', v') :: d' =>
      if String.eqb k' k then (k, v) :: d' else (k', v') :: dict_set d' k v
  end.

Fixpoint dict_find {V : Type} (d : list (string * V)) (k : string) : option V :=
  match d with
  | [] => None
  | (k', v) :: d' => if String.eqb k' k then Some v else dict_find d' k
  end.

(** [counts[k] = n] with the block's counter. *)
Definition store_tally (k : string) : M unit :=
  fun s =>
    (Some tt,
     {| drawn := drawn s; tally := tally s;
        counts := dict_set (counts s) k (tally s) |}).

(** [counts[k] = v] *)
Definition set_count (k : string) (v : nat) : M unit :=
  fun s =>
    (Some tt,
     {| drawn := drawn s; tally := tally s;
        counts := dict_set (counts s) k v |}).

(** [counts[k] += 1]; a missing key is a [KeyError]. *)
Definition bump (k : string) : M unit :=
  fun s =>
    match dict_find (counts s) k with
    | Some v =>
        (Some tt,
         {| drawn := drawn s; tally := tally s;
            counts := dict_set (counts s) k (S v) |})
    | None => (None, s)
    end.

(** [for x in xs: body] *)
Fixpoint for_each {X : Type} (xs : list X) (body : X -> M unit) : M unit :=
  match xs with
  | [] => ret tt
  | x :: xs' => bind (body x) (fun _ => for_each xs' body)
  end.

(** [try: body / except Exception: print(...)], started on an empty
    layer with a counter at zero. *)
Definition try_block (body : M unit) (c : list (string * nat))
  : list item * list (string * nat) :=
  let s := snd (body {| drawn := []; tally := 0; counts := c |}) in
  (drawn s, counts s).

(** ** Bounds of a GeoJSON geometry *)

(** [iter_lonlat]: the innermost coordinate lists, those that open with
    two numbers. *)
Fixpoint iter_lonlat (coords : json) : list json :=
  match coords with
  | JArr l =>
      if (2 <=? List.length l)%nat && forallb is_number (firstn 2 l)
      then [coords]
      else flat_map iter_lonlat l
  | _ => []
  end.

(** [[to_float(c[i]) for c in coords if c and to_float(c[i]) is not None]] *)
Definition column (i : nat) (coords : list json) : list pyfloat :=
  flat_map
    (fun c =>
       if truthy c then
         match py_index c i with
         | Some x => match to_float x with Some y => [y] | None => [] end
         | None => []
         end
       else [])
    coords.

(** [geom_bounds]: [(min_lat, max_lat, min_lon, max_lon)] or [None]. *)
Definition geom_bounds (geom : json)
  : option (pyfloat * pyfloat * pyfloat * pyfloat) :=
  match geom with
  | JObj kv =>
      let coords := iter_lonlat (dict_get_default kv "coordinates" (JArr [])) in
      match coords with
      | [] => None
      | _ =>
          match column 0 coords, column 1 coords with
          | lon :: lons, lat :: lats =>
              Some (fold_left fmin lats lat, fold_left fmax lats lat,
                    fold_left fmin lons lon, fold_left fmax lons lon)
          | _, _ => None
          end
      end
  | _ => None
  end.

(** ** The seven blocks of [build_map] *)

(** The alert names that are drawn, with their colours. *)
Definition include_events : list (string * string) :=
  [ ("Tornado Warning", "#D50000");
    ("Tornado Watch", "#FF6D00");
    ("Severe Thunderstorm Warning", "#FFC107");
    ("Severe Thunderstorm Watch", "#FFE082");
    ("Flash Flood Warning", "#2E7D32");
    ("Flood Warning", "#66BB6A");
    ("Hurricane Warning", "#6A1B9A");
    ("Hurricane Watch", "#9C27B0");
    ("Tropical Storm Warning", "#0077BE");
    ("Winter Storm Warning", "#1565C0");
    ("Blizzard Warning", "#90CAF9");
    ("Red Flag Warning", "#C62828");
    ("Excessive Heat Warning", "#E53935");
    ("High Wind Warning", "#9E9D24");
    ("Special Marine Warning", "#006D77");
    ("Tsunami Warning", "#004C8C");
    ("Tsunami Advisory", "#1976D2");
    ("Tsunami Watch", "#64B5F6") ].

(** What [SESSION.get] hands to the alerts block. *)
Inductive http_result : Type :=
| RequestFailed
| Response (status_code : Z) (body : option json).

(** The rows of one delimited-text feed, as [csv.reader] yields them. *)
Definition csv_rows : Type := list (list string).

Inductive spc_kind : Type := Tornado | Wind | Hail.

Definition spc_color (k : spc_kind) : string :=
  match k with
  | Tornado => "#D50000"
  | Wind => "#FFB300"
  | Hail => "#00ACC1"
  end.

Definition spc_radius_m (k : spc_kind) : R :=
  match k with
  | Tornado => 8000
  | Wind => 6000
  | Hail => 5000
  end%R.

(** [fetch_spc_csv]: the rows, or [[]] when anything went wrong. *)
Definition fetch_spc_csv (fetched : option csv_rows) : csv_rows :=
  match fetched with
  | Some rows => rows
  | None => []
  end.

Section Blocks.
Local Open Scope py_scope.

(** folium's check of a [location] argument and of the data given to
    [GeoJson]; both belong to the library and are left open. *)
Variable location_ok : option pyfloat -> option pyfloat -> bool.
Variable geojson_ok : json -> bool.
Variable py_repr : json -> string.

(** [add_faded_circle]: the stack of concentric rings at one location.
    Every ring has the same location, so either all of them are added or
    the first [folium.Circle] raises, the fallback circle raises as well
    and the exception leaves the helper.  The item drawn stands for the
    call; the [folium.Circle] children it adds, one for each ring of
    [faded_rings] with its own radius and opacity, are [children_of] the
    item. *)
Definition add_faded_circle (lat lon : option pyfloat) (radius_m : xreal)
  (color : string) (steps : nat) (max_opacity : Q) : M unit :=
  if location_ok lat lon
  then draw (FadedCircle lat lon radius_m color steps max_opacity)
  else raise.

Definition circle_marker (lat lon : option pyfloat) (tooltip : json) : M unit :=
  if location_ok lat lon then draw (CircleMarker lat lon tooltip) else raise.

(** 1) Radar mosaic.  The frame time only feeds the legend text and is
    read after the count is stored. *)
Definition radar_block (fetched : option json) : M unit :=
  maps <- lift fetched ;;
  host <- lift (py_get_default maps "host" (JStr "https://tilecache.rainviewer.com")) ;;
  radar <- lift (py_get_default maps "radar" (JObj [])) ;;
  past <- lift (py_get_default radar "past" (JArr [])) ;;
  nowcast <- lift (py_get_default radar "nowcast" (JArr [])) ;;
  frames <- lift (py_add (py_or past (JArr [])) (py_or nowcast (JArr []))) ;;
  frame <- (if truthy frames then lift (py_last frames) else ret JNull) ;;
  if truthy frame then
    path <- lift (py_get frame "path") ;;
    if truthy path then
      draw (TileLayer host path) ;;
      set_count "radar" 1
    else ret tt
  else ret tt.

(** 2) Volcanoes. *)
Definition volcano_block (fetched : option json) : M unit :=
  eonet <- lift fetched ;;
  events <- lift (py_get_default eonet "events" (JArr [])) ;;
  evs <- lift (py_iter events) ;;
  for_each evs (fun ev =>
    t <- lift (py_get ev "title") ;;
    let title := py_or t (JStr "Volcano Activity") in
    geometry <- lift (py_get_default ev "geometry" (JArr [])) ;;
    geos <- lift (py_iter geometry) ;;
    for_each geos (fun geo =>
      coords <- lift (py_get geo "coordinates") ;;
      short <- (if truthy coords
                then len <- lift (py_len coords) ;; ret (len <? 2)%nat
                else ret true) ;;
      if short : bool then ret tt
      else
        c0 <- lift (py_index coords 0) ;;
        c1 <- lift (py_index coords 1) ;;
        let lon := to_float c0 in
        let lat := to_float c1 in
        add_faded_circle lat lon (Fin 20000%R) "#B87333" 4 0.25 ;;
        circle_marker lat lon title ;;
        count_one)).

(** [event not in include_events]; a list or a dict cannot be hashed. *)
Definition not_included (event : json) : option bool :=
  match event with
  | JStr e => Some (negb (existsb (fun p => String.eqb (fst p) e) include_events))
  | JArr _ | JObj _ => None
  | _ => Some true
  end.

(** 3) Alert polygons. *)
Definition nws_block (resp : http_result) : M unit :=
  let nws_data :=
    match resp with
    | Response 200 (Some data) => data
    | _ => JNull
    end in
  if negb (truthy nws_data) then raise
  else
    feats <- lift (py_get_default nws_data "features" (JArr [])) ;;
    fs <- lift (py_iter feats) ;;
    for_each fs (fun f =>
      props <- lift (py_get_default f "properties" (JObj [])) ;;
      event <- lift (py_get props "event") ;;
      geom <- lift (py_get f "geometry") ;;
      skip <- (if negb (truthy geom) then ret true else lift (not_included event)) ;;
      if skip : bool then ret tt
      else
        match geom_bounds geom with
        | None => ret tt
        | Some _ =>
            headline <- lift (py_get props "headline") ;;
            areaDesc <- lift (py_get props "areaDesc") ;;
            (if geojson_ok f
             then draw (GeoJson f (py_str py_repr event)
                          (py_or headline (py_or areaDesc (JStr EmptyString))))
             else raise) ;;
            count_one
        end) ;;
    store_tally "nws".

(** [row[-i]] of a row long enough. *)
Definition from_end (row : list string) (i : nat) : json :=
  JStr (nth (List.length row - i) row EmptyString).

(** 4) Severe-weather reports: each kind with today's feed followed by
    yesterday's. *)
Definition spc_block (feeds : list (spc_kind * list (option csv_rows)))
  : M unit :=
  for_each feeds (fun '(kind, urls) =>
    let rows := flat_map fetch_spc_csv urls in
    for_each (tl rows) (fun row =>
      if (List.length row <? 8)%nat then ret tt
      else
        match to_float (from_end row 2), to_float (from_end row 1) with
        | Some lat, Some lon =>
            add_faded_circle (Some lat) (Some lon) (Fin (spc_radius_m kind))
              (spc_color kind) 3 0.25 ;;
            count_one
        | _, _ => ret tt
        end)) ;;
  store_tally "spc_lsr".

(** 5) Earthquakes; [results] holds the feeds that were fetched, in the
    order in which their requests completed. *)
Definition quakes_block (results : list json) : M unit :=
  for_each results (fun eq =>
    feats <- lift (py_get_default (py_or eq (JObj [])) "features" (JArr [])) ;;
    fs <- lift (py_iter feats) ;;
    for_each fs (fun feature =>
      geometry <- lift (py_get feature "geometry") ;;
      c <- lift (py_get (py_or geometry (JObj [])) "coordinates") ;;
      let coords := py_or c (JArr []) in
      len <- lift (py_len coords) ;;
      if (len <? 2)%nat then ret tt
      else
        c1 <- lift (py_index coords 1) ;;
        c0 <- lift (py_index coords 0) ;;
        let lat := to_float c1 in
        let lon := to_float c0 in
        props <- lift (py_get_default feature "properties" (JObj [])) ;;
        mag <- lift (py_get props "mag") ;;
        match mag with
        | JNull => ret tt
        | _ =>
            match py_float mag with
            | None => ret tt
            | Some magnitude =>
                depth_km <- (if (3 <=? len)%nat
                             then c2 <- lift (py_index coords 2) ;; ret (to_float c2)
                             else ret None) ;;
                radius_km <- lift (seismic_radius_km (to_real magnitude)
                                     (option_map to_real depth_km)) ;;
                add_faded_circle lat lon (xmul radius_km (Fin 1000%R))
                  "#7B1FA2" 5 0.30 ;;
                count_one
            end
        end)) ;;
  store_tally "earthquakes".

(** 6) Wildfires; a row is the dict [csv.DictReader] yields. *)
Definition fires_block (fetched : option (list (list (string * json))))
  : M unit :=
  reader <- lift fetched ;;
  for_each reader (fun row =>
    let lat := to_float (dict_get row "latitude") in
    let lon := to_float (dict_get row "longitude") in
    let scan_deg := to_float (dict_get row "scan") in
    let track_deg := to_float (dict_get row "track") in
    radius_m <- lift (fire_radius_m scan_deg track_deg lat) ;;
    add_faded_circle lat lon radius_m "#E02D2D" 4 0.35 ;;
    count_one) ;;
  store_tally "fires".

(** The body of the loop over storms. *)
Definition cyclone_record (s : json) : M unit :=
  match s with
  | JObj storm =>
      lat <- lift (parse_lat (dict_get storm "lat")) ;;
      lon <- lift (parse_lon (dict_get storm "lon")) ;;
      match lat, lon with
      | Some lat, Some lon =>
          let radius_km := tc_radius_km py_repr storm in
          add_faded_circle (Some lat) (Some lon)
            (to_real (fmul radius_km (Fin 1000%Q))) "#0077BE" 5 0.25 ;;
          bump "storms"
      | _, _ => ret tt
      end
  | _ => raise
  end.

(** 7) Tropical cyclones. *)
Definition cyclones_block (fetched : option json) : M unit :=
  data <- lift fetched ;;
  current <- lift (py_get data "currentStorms") ;;
  active <- lift (py_get data "activeStorms") ;;
  let storms := py_or current (py_or active (JArr [])) in
  ss <- lift (py_iter storms) ;;
  for_each ss cyclone_record.

End Blocks.

(** ** [build_map] *)

(** What the network returns in one run: for each request the parsed
    payload, or [None] when [fetch_json] / [fetch_text] raised. *)
Record feeds : Type := {
  rainviewer : option json;
  eonet : option json;
  nws_alerts : http_result;
  spc_tornado : list (option csv_rows);
  spc_wind : list (option csv_rows);
  spc_hail : list (option csv_rows);
  usgs_2_5 : option json;
  usgs_4_5 : option json;
  (* [as_completed] yields the second request before the first *)
  usgs_second_first : bool;
  firms : option (list (list (string * json)));
  nhc : option json
}.

(** [results]: the payloads of the requests that succeeded, appended as
    [as_completed] yields their futures. *)
Definition usgs_results (f : feeds) : list json :=
  let completed :=
    if usgs_second_first f then [usgs_4_5 f; usgs_2_5 f]
    else [usgs_2_5 f; usgs_4_5 f] in
  flat_map (fun r => match r with Some eq => [eq] | None => [] end) completed.

Inductive layer : Type :=
| layer_radar
| layer_volcano
| layer_nws
| layer_spc_lsr
| layer_quakes_area
| layer_fires_area
| layer_tc_areas.

(** The map that is returned: its layers in the order of their
    [add_to(m)], each with its children, and the [counts] dict as it
    stands at the end. *)
Record folium_map : Type := {
  layers : list (layer * list item);
  final_counts : list (string * nat)
}.

Definition initial_counts : list (string * nat) :=
  [("radar", 0%nat); ("nws", 0%nat); ("earthquakes", 0%nat);
   ("fires", 0%nat); ("storms", 0%nat)].

(** What a block draws when it is run on its own. *)
Definition alone (body : M unit) : list item :=
  fst (try_block body initial_counts).

Section BuildMap.

Variable location_ok : option pyfloat -> option pyfloat -> bool.
Variable geojson_ok : json -> bool.
Variable py_repr : json -> string.

Definition build_map (f : feeds) : folium_map :=
  let counts := initial_counts in
  let (radar, counts) := try_block (radar_block (rainviewer f)) counts in
  let (volcano, counts) :=
    try_block (volcano_block location_ok (eonet f)) counts in
  let (nws, counts) :=
    try_block (nws_block geojson_ok py_repr (nws_alerts f)) counts in
  let (spc_lsr, counts) :=
    try_block
      (spc_block location_ok
         [(Tornado, spc_tornado f); (Wind, spc_wind f); (Hail, spc_hail f)])
      counts in
  let (quakes_area, counts) :=
    try_block (quakes_block location_ok (usgs_results f)) counts in
  let (fires_area, counts) :=
    try_block (fires_block location_ok (firms f)) counts in
  let (tc_areas, counts) :=
    try_block (cyclones_block location_ok py_repr (nhc f)) counts in
  {| layers :=
       [ (layer_radar, radar);
         (layer_volcano, volcano);
         (layer_nws, nws);
         (layer_spc_lsr, spc_lsr);
         (layer_quakes_area, quakes_area);
         (layer_fires_area, fires_area);
         (layer_tc_areas, tc_areas) ];
     final_counts := counts |}.

(** Everything drawn, layer after layer. *)
Definition events (m : folium_map) : list item :=
  flat_map snd (layers m).

End BuildMap.

Definition layer_eqb (a b : layer) : bool :=
  match a, b with
  | layer_radar, layer_radar
  | layer_volcano, layer_volcano
  | layer_nws, layer_nws
  | layer_spc_lsr, layer_spc_lsr
  | layer_quakes_area, layer_quakes_area
  | layer_fires_area, layer_fires_area
  | layer_tc_areas, layer_tc_areas => true
  | _, _ => false
  end.

(** The children of one layer of the map. *)
Fixpoint children (ls : list (layer * list item)) (l : layer) : list item :=
  match ls with
  | [] => []
  | (l', its) :: ls' => if layer_eqb l' l then its else children ls' l
  end.

Definition items_of (m : folium_map) (l : layer) : list item :=
  children (layers m) l.

(** folium's [validate_location]: two values that convert to [float],
    neither of them NaN. *)
Definition validate_location (lat lon : option pyfloat) : bool :=
  match lat, lon with
  | Some a, Some b =>
      match a, b with
      | NaN, _ | _, NaN => false
      | _, _ => true
      end
  | _, _ => false
  end.

(** Whether an item sits at a position with latitude in [[-90, 90]] and
    longitude in [[-180, 180]]; items without a position pass. *)
Definition position_in_range (it : item) : bool :=
  let ok (lat lon : option pyfloat) : bool :=
    match lat, lon with
    | Some (Fin a), Some (Fin b) =>
        (Qle_bool (-90) a && Qle_bool a 90
         && Qle_bool (-180) b && Qle_bool b 180)%Q
    | _, _ => false
    end in
  match it with
  | FadedCircle lat lon _ _ _ _ => ok lat lon
  | CircleMarker lat lon _ => ok lat lon
  | TileLayer _ _ | GeoJson _ _ _ => true
  end.

(** Whether an item that has a position has both of its coordinates. *)
Definition has_coordinates (it : item) : bool :=
  let ok (lat lon : option pyfloat) : bool :=
    match lat, lon with
    | Some _, Some _ => true
    | _, _ => false
    end in
  match it with
  | FadedCircle lat lon _ _ _ _ => ok lat lon
  | CircleMarker lat lon _ => ok lat lon
  | TileLayer _ _ | GeoJson _ _ _ => true
  end.

(** The same run with every request of one source failing. *)
Definition fail_source (l : layer) (f : feeds) : feeds :=
  {| rainviewer := match l with layer_radar => None | _ => rainviewer f end;
     eonet := match l with layer_volcano => None | _ => eonet f end;
     nws_alerts :=
       match l with layer_nws => RequestFailed | _ => nws_alerts f end;
     spc_tornado :=
       match l with
       | layer_spc_lsr => map (fun _ => None) (spc_tornado f)
       | _ => spc_tornado f
       end;
     spc_wind :=
       match l with
       | layer_spc_lsr => map (fun _ => None) (spc_wind f)
       | _ => spc_wind f
       end;
     spc_hail :=
       match l with
       | layer_spc_lsr => map (fun _ => None) (spc_hail f)
       | _ => spc_hail f
       end;
     usgs_2_5 := match l with layer_quakes_area => None | _ => usgs_2_5 f end;
     usgs_4_5 := match l with layer_quakes_area => None | _ => usgs_4_5 f end;
     usgs_second_first := usgs_second_first f;
     firms := match l with layer_fires_area => None | _ => firms f end;
     nhc := match l with layer_tc_areas => None | _ => nhc f end |}.

(** The same run with the two earthquake requests completing in the
    other order. *)
Definition other_completion_order (f : feeds) : feeds :=
  {| rainviewer := rainviewer f; eonet := eonet f;
     nws_alerts := nws_alerts f;
     spc_tornado := spc_tornado f; spc_wind := spc_wind f;
     spc_hail := spc_hail f;
     usgs_2_5 := usgs_2_5 f; usgs_4_5 := usgs_4_5 f;
     usgs_second_first := negb (usgs_second_first f);
     firms := firms f; nhc := nhc f |}.

(** The run in which every request fails. *)
Definition all_failed : feeds :=
  {| rainviewer := None; eonet := None; nws_alerts := RequestFailed;
     spc_tornado := [None; None]; spc_wind := [None; None];
     spc_hail := [None; None];
     usgs_2_5 := None; usgs_4_5 := None; usgs_second_first := false;
     firms := None; nhc := None |}.

(** The run in which every request succeeds and no feed has a record. *)
Definition all_quiet : feeds :=
  {| rainviewer := Some (JObj []); eonet := Some (JObj []);
     nws_alerts := Response 200 (Some (JObj [("features", JArr [])]));
     spc_tornado := [Some []; Some []]; spc_wind := [Some []; Some []];
     spc_hail := [Some []; Some []];
     usgs_2_5 := Some (JObj []); usgs_4_5 := Some (JObj []);
     usgs_second_first := false;
     firms := Some []; nhc := Some (JObj []) |}.

(** ** The shared session: retries, redirects and the fetch helpers

    The module configures the policy and calls [SESSION.get],
    [raise_for_status] and [json()]; the loops are urllib3's
    [HTTPConnectionPool.urlopen] with its [Retry], and requests'
    [HTTPAdapter.send] and [Session.resolve_redirects] (urllib3 1.26,
    requests 2.32).  They are embedded here as those libraries define
    them, for a [GET] whose answers, when they carry a [Retry-After]
    header, carry a well-formed one, and whose bodies arrive once the
    status line has. *)

Record Retry : Type := {
  total : nat;
  backoff_factor : Q;
  status_forcelist : list Z;
  allowed_methods : list string
}.

Definition retry_strategy : Retry :=
  {| total := 2;
     backoff_factor := 0.5;
     status_forcelist := [429; 500; 502; 503; 504];
     allowed_methods := ["GET"] |}.

(** An answer of the server: its status, the seconds its [Retry-After]
    header asks for (when it has one), whether it has a [Location]
    header, and whether its body is JSON. *)
Record reply : Type := {
  status : Z;
  retry_after : option Q;
  location : bool;
  json_body : bool
}.

(** What one sending meets: a connection that breaks (a timeout, a
    reset, a failed handshake), or an answer. *)
Inductive answer : Type :=
| Broken
| Replied (r : reply).

(** An answer with a status and nothing else of note. *)
Definition plain (status_code : Z) : reply :=
  {| status := status_code; retry_after := None; location := false;
     json_body := true |}.

Definition status_of (a : answer) : Z :=
  match a with
  | Replied r => status r
  | Broken => 0
  end.

Definition RETRY_AFTER_STATUS_CODES : list Z := [413; 429; 503].

(** [Retry._is_method_retryable(method)] *)
Definition is_method_retryable (r : Retry) (method : string) : bool :=
  match allowed_methods r with
  | [] => true
  | allowed => existsb (String.eqb (upper method)) allowed
  end.

(** [Retry.is_retry(method, status_code, has_retry_after)] of a policy
    with [left] of its [total] remaining. *)
Definition is_retry (r : Retry) (left : nat) (method : string)
  (status_code : Z) (has_retry_after : bool) : bool :=
  is_method_retryable r method
  && (existsb (Z.eqb status_code) (status_forcelist r)
      || ((0 <? left)%nat && has_retry_after
          && existsb (Z.eqb status_code) RETRY_AFTER_STATUS_CODES)).

(** [Retry.get_backoff_time()] after [errors] consecutive errors. *)
Definition get_backoff_time (r : Retry) (errors : nat) : Q :=
  if (errors <=? 1)%nat then 0
  else Qred (Qmin 120
               (backoff_factor r * inject_Z (2 ^ Z.of_nat (errors - 1)))).

(** [Retry.sleep(response)]: the pause before the next sending, the
    seconds of [Retry-After] when the answer asks for some, else the
    backoff. *)
Definition pause (r : Retry) (errors : nat) (response : option reply) : Q :=
  match response with
  | Some resp =>
      match retry_after resp with
      | Some seconds =>
          if Qle_bool seconds 0 then get_backoff_time r errors else seconds
      | None => get_backoff_time r errors
      end
  | None => get_backoff_time r errors
  end.

(** How [SESSION.get] ends: with an answer, or with one of requests'
    exceptions. *)
Inductive get_result : Type :=
| Answer (r : reply)
| MaxRetries          (* [RetryError] *)
| ConnectionFailed    (* [ConnectionError] and its kin *)
| TooManyRedirects.

(** One request as seen from outside: how many times it was sent, the
    pauses between the sendings and how it ended. *)
Record get_trace : Type := {
  attempts : nat;
  sleeps : list Q;
  result : get_result
}.

(** The loop of [urlopen] as [HTTPAdapter.send] calls it.  [server n] is
    what the [n]-th sending meets; [left] is what remains of [total],
    [errors] the length of the policy's history, [sent] the number of
    sendings made so far. *)
Fixpoint urlopen (r : Retry) (method : string) (server : nat -> answer)
  (left errors sent : nat) {struct left} : get_trace :=
  let again (response : option reply) (exhausted : get_result) : get_trace :=
    match left with
    | O => {| attempts := S sent; sleeps := []; result := exhausted |}
    | S left' =>
        let rest := urlopen r method server left' (S errors) (S sent) in
        {| attempts := attempts rest;
           sleeps := pause r (S errors) response :: sleeps rest;
           result := result rest |}
    end in
  match server sent with
  | Broken => again None ConnectionFailed
  | Replied resp =>
      if is_retry r left method (status resp)
           (match retry_after resp with Some _ => true | None => false end)
      then again (Some resp) MaxRetries
      else {| attempts := S sent; sleeps := []; result := Answer resp |}
  end.

Definition REDIRECT_STATI : list Z := [301; 302; 303; 307; 308].

(** [Response.is_redirect] *)
Definition is_redirect (resp : reply) : bool :=
  location resp && existsb (Z.eqb (status resp)) REDIRECT_STATI.

Definition DEFAULT_REDIRECT_LIMIT : nat := 30.

(** [Session.send] with [resolve_redirects]: every redirect is sent anew
    under the policy as configured; [allowed] is the number of
    redirects that may still be followed. *)
Fixpoint session_send (server : nat -> answer) (allowed sent : nat)
  {struct allowed} : get_trace :=
  let t := urlopen retry_strategy "GET" server (total retry_strategy) 0 sent in
  match result t with
  | Answer resp =>
      if is_redirect resp then
        match allowed with
        | O => {| attempts := attempts t; sleeps := sleeps t;
                  result := TooManyRedirects |}
        | S allowed' =>
            let rest := session_send server allowed' (attempts t) in
            {| attempts := attempts rest;
               sleeps := (sleeps t ++ sleeps rest)%list;
               result := result rest |}
        end
      else t
  | _ => t
  end.

Definition SESSION_get (server : nat -> answer) : get_trace :=
  session_send server DEFAULT_REDIRECT_LIMIT 0.

(** How [fetch_json] / [fetch_text] end. *)
Inductive fetch_outcome : Type :=
| Returned (status_code : Z)   (* the body goes to the caller *)
| HTTPError (status_code : Z)  (* raised by [raise_for_status] *)
| RetryError                   (* the three raised by [SESSION.get] *)
| ConnectionError
| RedirectError
| DecodeError.                 (* raised by [json()] *)

(** [Response.raise_for_status()] *)
Definition raise_for_status (status_code : Z) : fetch_outcome :=
  if (400 <=? status_code) && (status_code <? 600)
  then HTTPError status_code
  else Returned status_code.

(** [fetch_text]: [SESSION.get], then [raise_for_status], then the
    text. *)
Definition fetch_text (server : nat -> answer) : fetch_outcome :=
  match result (SESSION_get server) with
  | Answer resp => raise_for_status (status resp)
  | MaxRetries => RetryError
  | ConnectionFailed => ConnectionError
  | TooManyRedirects => RedirectError
  end.

(** [fetch_json]: the same with [json()] in place of the text. *)
Definition fetch_json (server : nat -> answer) : fetch_outcome :=
  match result (SESSION_get server) with
  | Answer resp =>
      match raise_for_status (status resp) with
      | Returned status_code =>
          if json_body resp then Returned status_code else DecodeError
      | other => other
      end
  | MaxRetries => RetryError
  | ConnectionFailed => ConnectionError
  | TooManyRedirects => RedirectError
  end.

(** Whether a status is outside [200..299]. *)
Definition non_2xx (status_code : Z) : bool :=
  negb ((200 <=? status_code) && (status_code <? 300)).

(** A run of answers without connection failures, [Retry-After] headers
    and redirects. *)
Definition plain_answers (server : nat -> answer) : Prop :=
  forall n, exists resp,
    server n = Replied resp /\ retry_after resp = None
    /\ is_redirect resp = false.

(** ** Reasoning about blocks *)

(** [m] keeps the property [P] of the state, whether it returns or
    raises. *)
Definition preserves {A : Type} (P : sst -> Prop) (m : M A) : Prop :=
  forall s, P s -> P (snd (m s)).

(** Every item drawn so far satisfies [q]. *)
Definition all_drawn (q : item -> bool) (s : sst) : Prop :=
  Forall (fun it => q it = true) (drawn s).

Definition has_storms (c : list (string * nat)) : Prop :=
  dict_find c "storms" <> None.

(** Two states that differ at most in their [counts], both of which
    still hold the key that the cyclone block increments. *)
Definition same_drawing (s1 s2 : sst) : Prop :=
  drawn s1 = drawn s2 /\ tally s1 = tally s2
  /\ has_storms (counts s1) /\ has_storms (counts s2).

(** [m] draws and returns the same from two such states. *)
Definition oblivious {A : Type} (m : M A) : Prop :=
  forall s1 s2,
    same_drawing s1 s2 ->
    fst (m s1) = fst (m s2) /\ same_drawing (snd (m s1)) (snd (m s2)).

(** The latitude an item is drawn at. *)
Definition latitude_of (it : item) : option pyfloat :=
  match it with
  | FadedCircle lat _ _ _ _ _ => lat
  | CircleMarker lat _ _ => lat
  | TileLayer _ _ | GeoJson _ _ _ => None
  end.

(** What the cyclone block draws for one storm dict. *)
Definition storm_circle (py_repr : json -> string)
  (storm : list (string * json)) : list item :=
  match parse_lat (dict_get storm "lat"), parse_lon (dict_get storm "lon") with
  | Some (Some lat), Some (Some lon) =>
      [FadedCircle (Some lat) (Some lon)
         (to_real (fmul (tc_radius_km py_repr storm) (Fin 1000%Q)))
         "#0077BE" 5 0.25]
  | _, _ => []
  end.

(** A storm record that does not end the block: neither parser raises,
    and folium accepts the parsed position if there is one. *)
Definition storm_accepted (location_ok : option pyfloat -> option pyfloat -> bool)
  (storm : list (string * json)) : bool :=
  match parse_lat (dict_get storm "lat"), parse_lon (dict_get storm "lon") with
  | Some (Some lat), Some (Some lon) => location_ok (Some lat) (Some lon)
  | Some _, Some _ => true
  | _, _ => false
  end.

(** What the severe-report block draws for one row of a feed of the
    given kind. *)
Definition report_circle (kind : spc_kind) (row : list string) : list item :=
  if (List.length row <? 8)%nat then []
  else
    match to_float (from_end row 2), to_float (from_end row 1) with
    | Some lat, Some lon =>
        [FadedCircle (Some lat) (Some lon) (Fin (spc_radius_m kind))
           (spc_color kind) 3 0.25]
    | _, _ => []
    end.

(** A row that does not end the block: folium accepts its position if
    it has one. *)
Definition report_accepted
  (location_ok : option pyfloat -> option pyfloat -> bool)
  (row : list string) : bool :=
  if (List.length row <? 8)%nat then true
  else
    match to_float (from_end row 2), to_float (from_end row 1) with
    | Some lat, Some lon => location_ok (Some lat) (Some lon)
    | _, _ => true
    end.

(** A storm list as the cyclone feed carries it. *)
Definition nhc_storms (storms : list (list (string * json))) : option json :=
  Some (JObj [("currentStorms", JArr (map JObj storms))]).

(** One severe-report feed of one kind: a header row, then the rows. *)
Definition spc_feed (kind : spc_kind) (header : list string)
  (rows : list (list string)) : list (spc_kind * list (option csv_rows)) :=
  [(kind, [Some (header :: rows)])].

(** ** Runs used as examples *)

(** Stand-ins for the two library functions that the example runs never
    reach. *)
Definition any_geojson : json -> bool := fun _ => true.
Definition blank_repr : json -> string := fun _ => EmptyString.

Definition quiet_with (usgs_a usgs_b : option json) (storms : option json)
  (volcanoes : option json) : feeds :=
  {| rainviewer := Some (JObj []); eonet := volcanoes;
     nws_alerts := Response 200 (Some (JObj [("features", JArr [])]));
     spc_tornado := [Some []; Some []]; spc_wind := [Some []; Some []];
     spc_hail := [Some []; Some []];
     usgs_2_5 := usgs_a; usgs_4_5 := usgs_b;
     usgs_second_first := false;
     firms := Some []; nhc := storms |}.

(** A storm list with one storm at 91 degrees north. *)
Definition storm_at_91N : list (string * json) :=
  [("name", JStr "Test"); ("lat", JStr "91N"); ("lon", JStr "0E")].

Definition nhc_91N : json :=
  JObj [("activeStorms", JArr [JObj storm_at_91N])].

(** An earthquake feed with one event. *)
Definition usgs_event (lon lat depth_km mag : json) : json :=
  JObj [("features",
         JArr [JObj [("geometry",
                      JObj [("coordinates", JArr [lon; lat; depth_km])]);
                     ("properties", JObj [("mag", mag)])]])].

(** The event of magnitude 5 at the given latitude, longitude 0 and
    depth 10 km. *)
Definition usgs_one (lat : Z) : json :=
  usgs_event (JInt 0) (JInt lat) (JInt 10) (JInt 5).

(** A volcano feed: one event with two geometries, the first with a
    null longitude, the second sound. *)
Definition eonet_unparsed : json :=
  JObj [("events",
         JArr [JObj [("title", JStr "Etna");
                     ("geometry",
                      JArr [JObj [("coordinates", JArr [JNull; JInt 10])];
                            JObj [("coordinates", JArr [JInt 20; JInt 10])]])]])].

(** The same two records as storms. *)
Definition nhc_unparsed : json :=
  JObj [("currentStorms",
         JArr [JObj [("lat", JStr "10N"); ("lon", JNull)];
               JObj [("lat", JStr "10N"); ("lon", JStr "20E")]])].

(** ** Predicates used in the further properties *)

(** A coordinate list that opens with two numbers. *)
Definition is_lonlat (c : json) : bool :=
  match c with
  | JArr (a :: b :: _) => is_number a && is_number b
  | _ => false
  end.

Definition is_finite (x : pyfloat) : bool :=
  match x with
  | Fin _ => true
  | _ => false
  end.

(** [x <= y] on finite floats. *)
Definition fle (x y : pyfloat) : Prop :=
  match x, y with
  | Fin a, Fin b => (a <= b)%Q
  | _, _ => False
  end.

(** ** The rings of [add_faded_circle]

    An item [FadedCircle] stands for the circles that the [try] branch
    of [add_faded_circle] adds; they are listed here. *)

(** One [folium.Circle] of the stack: the fraction [f] of the radius it
    is drawn with and its fill opacity. *)
Record ring : Type := { fraction : Q; fill_opacity : Q }.

(** The pass of the loop for one [i]: no circle when the opacity is at
    most 0.01 and the ring is not the last one. *)
Definition ring_at (steps : nat) (max_opacity : Q) (i : nat) : list ring :=
  let f := Qred (inject_Z (Z.of_nat (i + 1)) / inject_Z (Z.of_nat steps)) in
  let faded := (max_opacity * (1 - f * f))%Q in
  let opacity := if Qltb 0 faded then faded else 0%Q in
  if Qle_bool opacity (1 # 100) && (i <? steps - 1)%nat then []
  else [{| fraction := f; fill_opacity := opacity |}].

(** [steps = max(2, int(steps))], then the loop over [range(steps)]. *)
Definition faded_rings (steps : Z) (max_opacity : Q) : list ring :=
  let steps := Z.to_nat (Z.max 2 steps) in
  flat_map (ring_at steps max_opacity) (seq 0 steps).

(** A ring further out than another: a larger fraction of the radius
    and an opacity that is not larger. *)
Definition fades_towards (inner outer : ring) : Prop :=
  (fraction inner < fraction outer)%Q
  /\ (fill_opacity outer <= fill_opacity inner)%Q.

(** ** What a layer may hold *)

(** Every item drawn so far satisfies [Q]. *)
Definition all_items (Q : item -> Prop) (s : sst) : Prop :=
  Forall Q (drawn s).

(** The radii of the cyclone tables, in kilometres. *)
Definition cyclone_table_km : list Q :=
  [100; 120; 150; 200; 250; 300; 320; 350; 420; 500]%Q.

(** The items each block adds to its layer: their kind, their style
    and the range of their radius. *)
Definition layer_item (l : layer) (it : item) : Prop :=
  match l with
  | layer_radar =>
      exists host path, it = TileLayer host path /\ truthy path = true
  | layer_volcano =>
      (exists lat lon,
         it = FadedCircle lat lon (Fin 20000%R) "#B87333" 4 0.25)
      \/ (exists lat lon title,
            it = CircleMarker lat lon title /\ truthy title = true)
  | layer_nws =>
      exists f event detail geom,
        it = GeoJson f event detail
        /\ In event (map fst include_events)
        /\ py_get f "geometry" = Some geom
        /\ geom_bounds geom <> None
  | layer_spc_lsr =>
      exists lat lon kind,
        it = FadedCircle (Some lat) (Some lon) (Fin (spc_radius_m kind))
               (spc_color kind) 3 0.25
  | layer_quakes_area =>
      exists lat lon r,
        it = FadedCircle lat lon (Fin r) "#7B1FA2" 5 0.30
        /\ (2000 <= r <= 300000)%R
  | layer_fires_area =>
      exists lat lon r,
        it = FadedCircle lat lon (Fin r) "#E02D2D" 4 0.35
        /\ (150 <= r <= 2000)%R
  | layer_tc_areas =>
      exists lat lon km,
        it = FadedCircle (Some lat) (Some lon)
               (to_real (fmul (Fin km) (Fin 1000%Q))) "#0077BE" 5 0.25
        /\ In km cyclone_table_km
  end.

(** The circle and the marker the volcano block draws at one position. *)
Definition volcano_pair (p : option pyfloat * option pyfloat * json)
  : list item :=
  let '(lat, lon, title) := p in
  [ FadedCircle lat lon (Fin 20000%R) "#B87333" 4 0.25;
    CircleMarker lat lon title ].

(** The layer is a sequence of such pairs, one for each position
    counted. *)
Definition paired (s : sst) : Prop :=
  exists ps, drawn s = flat_map volcano_pair ps /\ tally s = List.length ps.

(** ** What the counts record *)

(** From a state that satisfies [J] the computation ends, by returning
    or by raising, in a state that satisfies [F]. *)
Definition reaches {A : Type} (J F : sst -> Prop) (m : M A) : Prop :=
  forall s, J s -> F (snd (m s)).

(** The value the counts hold under a key. *)
Definition keeps (k : string) (v : option nat) (s : sst) : Prop :=
  dict_find (counts s) k = v.

(** Inside a block that tallies: the counter is the number of items
    drawn, and the key still holds what it held before the block. *)
Definition tallies (k : string) (v0 : option nat) (s : sst) : Prop :=
  tally s = List.length (drawn s) /\ dict_find (counts s) k = v0.

(** After such a block: the key holds the number of items drawn, or
    still what it held before. *)
Definition counted (k : string) (v0 : option nat) (s : sst) : Prop :=
  dict_find (counts s) k = Some (List.length (drawn s))
  \/ dict_find (counts s) k = v0.

(** The key holds the number of items drawn. *)
Definition counts_drawn (k : string) (s : sst) : Prop :=
  dict_find (counts s) k = Some (List.length (drawn s)).

(** The keys of [counts] when [build_map] returns. *)
Definition count_keys : list string :=
  ["radar"; "nws"; "earthquakes"; "fires"; "storms"; "spc_lsr"].

(** ** [build_quick_map] *)

Section QuickMap.
Local Open Scope py_scope.

(** The radar block of the quick map: the one of [build_map] without
    the count. *)
Definition quick_radar_block (fetched : option json) : M unit :=
  maps <- lift fetched ;;
  host <- lift (py_get_default maps "host" (JStr "https://tilecache.rainviewer.com")) ;;
  radar <- lift (py_get_default maps "radar" (JObj [])) ;;
  past <- lift (py_get_default radar "past" (JArr [])) ;;
  nowcast <- lift (py_get_default radar "nowcast" (JArr [])) ;;
  frames <- lift (py_add (py_or past (JArr [])) (py_or nowcast (JArr []))) ;;
  frame <- (if truthy frames then lift (py_last frames) else ret JNull) ;;
  if truthy frame then
    path <- lift (py_get frame "path") ;;
    if truthy path then draw (TileLayer host path)
    else ret tt
  else ret tt.

(** [build_quick_map]: the map with the radar layer alone; it keeps no
    counts. *)
Definition build_quick_map (fetched : option json) : folium_map :=
  let (radar, _) := try_block (quick_radar_block fetched) [] in
  {| layers := [(layer_radar, radar)]; final_counts := [] |}.

End QuickMap.

(** Two computations that return the same and draw the same from states
    with the same items. *)
Definition same_layer {A : Type} (m1 m2 : M A) : Prop :=
  forall s1 s2,
    drawn s1 = drawn s2 ->
    fst (m1 s1) = fst (m2 s2) /\ drawn (snd (m1 s1)) = drawn (snd (m2 s2)).

(** An alerts answer with one tornado warning. *)
Definition tornado_warning : json :=
  JObj [("properties", JObj [("event", JStr "Tornado Warning")]);
        ("geometry",
         JObj [("type", JStr "Polygon");
               ("coordinates", JArr [JArr [JArr [JInt 1; JInt 2]]])])].

Definition nws_one_warning : http_result :=
  Response 200 (Some (JObj [("features", JArr [tornado_warning])])).

(** Two runs in which the source of one layer returned the same. *)
Definition same_source (l : layer) (f g : feeds) : Prop :=
  match l with
  | layer_radar => rainviewer f = rainviewer g
  | layer_volcano => eonet f = eonet g
  | layer_nws => nws_alerts f = nws_alerts g
  | layer_spc_lsr =>
      spc_tornado f = spc_tornado g /\ spc_wind f = spc_wind g
      /\ spc_hail f = spc_hail g
  | layer_quakes_area => usgs_results f = usgs_results g
  | layer_fires_area => firms f = firms g
  | layer_tc_areas => nhc f = nhc g
  end.

(** ** The children of a layer

    An item of the embedding is one call, of [add_faded_circle] or of
    an [add_to]; a call of [add_faded_circle] adds one [folium.Circle]
    for each ring of [faded_rings].  What a layer holds in folium are
    the children listed here. *)

Inductive child : Type :=
| Tile (host path : json)
| Circle (lat lon : option pyfloat) (radius_m : xreal) (color : string)
    (opacity : Q)
| Marker (lat lon : option pyfloat) (tooltip : json)
| Polygon (feature : json) (name : string) (tooltip_detail : json).

(** [radius=radius_m * f], [fill_opacity=opacity] for each ring. *)
Definition circle_of (lat lon : option pyfloat) (radius_m : xreal)
  (color : string) (r : ring) : child :=
  Circle lat lon (xmul radius_m (Fin (Q2R (fraction r)))) color
    (fill_opacity r).

Definition children_of (it : item) : list child :=
  match it with
  | TileLayer host path => [Tile host path]
  | FadedCircle lat lon radius_m color steps max_opacity =>
      map (circle_of lat lon radius_m color)
        (faded_rings (Z.of_nat steps) max_opacity)
  | CircleMarker lat lon tooltip => [Marker lat lon tooltip]
  | GeoJson feature name detail => [Polygon feature name detail]
  end.

Definition layer_children (m : folium_map) (l : layer) : list child :=
  flat_map children_of (items_of m l).

(** A ring of a faded circle whose full radius lies in [[lo, hi]]: it
    has that radius times a fraction in (0, 1]. *)
Definition ring_within (lo hi : R) (color : string) (max_opacity : Q)
  (c : child) : Prop :=
  exists (lat lon : option pyfloat) (r f : R) (opacity : Q),
    c = Circle lat lon (Fin (r * f)%R) color opacity
    /\ (lo <= r <= hi)%R /\ (0 < f <= 1)%R
    /\ (0 <= opacity)%Q /\ (opacity <= max_opacity)%Q.

(** The children each block adds to its layer. *)
Definition layer_child (l : layer) (c : child) : Prop :=
  match l with
  | layer_radar =>
      exists host path, c = Tile host path /\ truthy path = true
  | layer_volcano =>
      ring_within 20000 20000 "#B87333" 0.25 c
      \/ (exists lat lon title,
            c = Marker lat lon title /\ truthy title = true)
  | layer_nws =>
      exists f event detail geom,
        c = Polygon f event detail
        /\ In event (map fst include_events)
        /\ py_get f "geometry" = Some geom
        /\ geom_bounds geom <> None
  | layer_spc_lsr =>
      exists kind,
        ring_within (spc_radius_m kind) (spc_radius_m kind)
          (spc_color kind) 0.25 c
  | layer_quakes_area => ring_within 2000 300000 "#7B1FA2" 0.30 c
  | layer_fires_area => ring_within 150 2000 "#E02D2D" 0.35 c
  | layer_tc_areas => ring_within 100000 500000 "#0077BE" 0.25 c
  end.

(** What the volcano block adds at one position: the rings of its
    circle, then the marker. *)
Definition volcano_group (p : option pyfloat * option pyfloat * json)
  : list child :=
  let '(lat, lon, title) := p in
  (children_of (FadedCircle lat lon (Fin 20000%R) "#B87333" 4 0.25)
   ++ [Marker lat lon title])%list.

(** The radius a child is drawn with. *)
Definition radius_of (c : child) : option xreal :=
  match c with
  | Circle _ _ radius_m _ _ => Some radius_m
  | _ => None
  end.

(** The number of rings that [add_faded_circle] adds in each layer of
    circles. *)
Definition rings_per_circle (l : layer) : nat :=
  match l with
  | layer_spc_lsr => 3
  | layer_fires_area => 4
  | layer_quakes_area | layer_tc_areas => 5
  | _ => 1
  end.

(** A coordinate pair whose two numbers convert to floats. *)
Definition pair_converts (c : json) : bool :=
  match c with
  | JArr (a :: b :: _) =>
      match to_float a, to_float b with
      | Some _, Some _ => true
      | _, _ => false
      end
  | _ => false
  end.

(** An earthquake feed with two events. *)
Definition usgs_two (first second : Z) : json :=
  JObj [("features",
         JArr [JObj [("geometry",
                      JObj [("coordinates", JArr [JInt 0; JInt 1; JInt 10])]);
                     ("properties", JObj [("mag", JInt first)])];
               JObj [("geometry",
                      JObj [("coordinates", JArr [JInt 0; JInt 2; JInt 10])]);
                     ("properties", JObj [("mag", JInt second)])]])].

(** A float that is plus infinity or a finite number of at least [k]. *)
Definition at_least (k : R) (x : xreal) : Prop :=
  x = PInf \/ exists r : R, x = Fin r /\ (k <= r)%R.

(** * Properties *)

(** ** Real-valued floats *)

Section RealFloatFacts.
Local Open Scope R_scope.

Lemma xlt_fin (a b : R) :
  xlt (Fin a) (Fin b) = if Rlt_dec a b then true else false.
Proof. reflexivity. Qed.

Lemma xmin_fin (a b : R) : xmin (Fin a) (Fin b) = Fin (Rmin a b).
Proof.
  unfold xmin, Rmin; rewrite xlt_fin.
  destruct (Rlt_dec b a), (Rle_dec a b); try reflexivity; f_equal; lra.
Qed.

Lemma xmax_fin (a b : R) : xmax (Fin a) (Fin b) = Fin (Rmax a b).
Proof.
  unfold xmax, Rmax; rewrite xlt_fin.
  destruct (Rlt_dec a b), (Rle_dec a b); try reflexivity; f_equal; lra.
Qed.

Lemma clamp_bounds (lo hi x : R) : lo <= hi -> lo <= clamp lo hi x <= hi.
Proof.
  intros H; unfold clamp; split.
  - apply Rmax_l.
  - apply Rmax_lub; [exact H | apply Rmin_l].
Qed.

Lemma clamp_low (lo hi x : R) : lo <= hi -> x <= lo -> clamp lo hi x = lo.
Proof.
  intros H1 H2; unfold clamp.
  rewrite Rmin_right by lra. apply Rmax_left; lra.
Qed.

Lemma clamp_high (lo hi x : R) : lo <= hi -> hi <= x -> clamp lo hi x = hi.
Proof.
  intros H1 H2; unfold clamp.
  rewrite Rmin_left by lra. apply Rmax_right; lra.
Qed.

(** The clamp written with the builtins returns a finite number for
    every float, the special values included. *)
Lemma clamp_any (lo hi : R) (x : xreal) :
  lo <= hi ->
  exists r : R, xmax (Fin lo) (xmin (Fin hi) x) = Fin r /\ lo <= r <= hi.
Proof.
  intros H. destruct x as [a | | |].
  - exists (clamp lo hi a). rewrite xmin_fin, xmax_fin.
    split; [reflexivity | apply clamp_bounds; exact H].
  - exists hi. unfold xmin; simpl xlt; cbv iota. rewrite xmax_fin.
    rewrite Rmax_right by exact H. split; [reflexivity | lra].
  - exists lo. unfold xmin, xmax; simpl. split; [reflexivity | lra].
  - exists hi. unfold xmin; simpl xlt; cbv iota. rewrite xmax_fin.
    rewrite Rmax_right by exact H. split; [reflexivity | lra].
Qed.

Lemma Q2R_inject (z : Z) : Q2R (inject_Z z) = IZR z.
Proof. unfold Q2R, inject_Z; simpl. field. Qed.

Lemma Rabs_le_inv (x a : R) : Rabs x <= a -> - a <= x <= a.
Proof. unfold Rabs. destruct (Rcase_abs x); intros H; lra. Qed.

Lemma PI_bounds : 3.1415 < PI < 3.1416.
Proof.
  pose proof (PI_2_3_7_ineq 2) as [Hlo Hhi].
  unfold sum_f_R0, tg_alt, PI_2_3_7_tg, Ratan_seq in Hlo, Hhi.
  simpl in Hlo, Hhi.
  split; lra.
Qed.

(** *** The overflow bound *)

Lemma float_bound_large : 1000000000000000000 < float_bound.
Proof. unfold float_bound. apply IZR_lt. vm_compute. reflexivity. Qed.

Lemma overflow_fin (x : R) :
  - float_bound < x < float_bound -> overflow x = Fin x.
Proof.
  intros [Hlo Hhi]. unfold overflow.
  destruct (Rle_dec float_bound x); [lra |].
  destruct (Rle_dec x (- float_bound)); [lra |]. reflexivity.
Qed.

Lemma xmul_fin (a b : R) :
  - float_bound < a * b < float_bound -> xmul (Fin a) (Fin b) = Fin (a * b).
Proof. exact (overflow_fin (a * b)). Qed.

(** A product of moderate size does not overflow. *)
Lemma xmul_moderate (a b : R) :
  Rabs (a * b) <= 1000000000000000000 -> xmul (Fin a) (Fin b) = Fin (a * b).
Proof.
  intros H. apply xmul_fin. pose proof float_bound_large.
  apply Rabs_le_inv in H. lra.
Qed.

(** A rational below the [n]-th root of an integer. *)
Lemma root_lower (p q y : Z) (n : nat) (x : R) :
  (0 < q)%Z -> 0 < x -> x ^ n = IZR y ->
  (p ^ Z.of_nat n < y * q ^ Z.of_nat n)%Z -> IZR p / IZR q < x.
Proof.
  intros Hq Hx Hp Hlt.
  assert (Hq' : 0 < IZR q) by (apply IZR_lt; exact Hq).
  apply Rnot_le_lt; intros Hle.
  assert (H1 : x * IZR q <= IZR p).
  { apply Rmult_le_compat_r with (r := IZR q) in Hle; [| lra].
    unfold Rdiv in Hle; rewrite Rmult_assoc, Rinv_l, Rmult_1_r in Hle; lra. }
  assert (H2 : (x * IZR q) ^ n <= IZR p ^ n).
  { apply pow_incr; split; [| exact H1]. apply Rmult_le_pos; lra. }
  rewrite Rpow_mult_distr, Hp, !pow_IZR, <- mult_IZR in H2.
  apply le_IZR in H2. lia.
Qed.

(** A rational above the [n]-th root of an integer. *)
Lemma root_upper (p q y : Z) (n : nat) (x : R) :
  (0 < q)%Z -> (0 <= p)%Z -> 0 < x -> x ^ n = IZR y ->
  (y * q ^ Z.of_nat n < p ^ Z.of_nat n)%Z -> x < IZR p / IZR q.
Proof.
  intros Hq Hp0 Hx Hp Hlt.
  assert (Hq' : 0 < IZR q) by (apply IZR_lt; exact Hq).
  assert (Hp' : 0 <= IZR p) by (apply IZR_le; exact Hp0).
  apply Rnot_le_lt; intros Hle.
  assert (H1 : IZR p <= x * IZR q).
  { apply Rmult_le_compat_r with (r := IZR q) in Hle; [| lra].
    unfold Rdiv in Hle; rewrite Rmult_assoc, Rinv_l, Rmult_1_r in Hle; lra. }
  assert (H2 : IZR p ^ n <= (x * IZR q) ^ n).
  { apply pow_incr; split; [exact Hp' | exact H1]. }
  rewrite Rpow_mult_distr, Hp, !pow_IZR, <- mult_IZR in H2.
  apply le_IZR in H2. lia.
Qed.

Lemma Rpower_10_le (x y : R) : x <= y -> Rpower 10 x <= Rpower 10 y.
Proof. intros H. apply Rle_Rpower; lra. Qed.

Lemma Rpower_10_1 : Rpower 10 1 = 10.
Proof. apply Rpower_1. lra. Qed.

(** [10 ** 308.25] is still a float. *)
Lemma power_in_range (x : R) : x <= 308.25 -> Rpower 10 x < float_bound.
Proof.
  intros H. apply Rle_lt_trans with (Rpower 10 308.25);
    [apply Rpower_10_le; exact H |].
  set (y := Rpower 10 308.25).
  assert (Hy : 0 < y) by apply exp_pos.
  assert (Hp : y ^ 4 = IZR (10 ^ 1233)).
  { rewrite <- (Rpower_pow 4 y Hy).
    unfold y. rewrite Rpower_mult.
    replace (308.25 * INR 4) with (INR 1233)
      by (rewrite !INR_IZR_INZ; simpl; lra).
    rewrite Rpower_pow by lra.
    change 10 with (IZR 10). rewrite pow_IZR. reflexivity. }
  unfold float_bound.
  replace (IZR float_overflow) with (IZR float_overflow / IZR 1) by field.
  apply (root_upper float_overflow 1 (10 ^ 1233) 4 y);
    [lia | vm_compute; discriminate | exact Hy | exact Hp
    | vm_compute; reflexivity].
Qed.

(** [10 ** 308.3] is not. *)
Lemma power_out_of_range (x : R) : 308.3 <= x -> float_bound <= Rpower 10 x.
Proof.
  intros H. apply Rle_trans with (Rpower 10 308.3);
    [| apply Rpower_10_le; exact H].
  set (y := Rpower 10 308.3).
  assert (Hy : 0 < y) by apply exp_pos.
  assert (Hp : y ^ 10 = IZR (10 ^ 3083)).
  { rewrite <- (Rpower_pow 10 y Hy).
    unfold y. rewrite Rpower_mult.
    replace (308.3 * INR 10) with (INR 3083)
      by (rewrite !INR_IZR_INZ; simpl; lra).
    rewrite Rpower_pow by lra.
    change 10 with (IZR 10) at 1. rewrite pow_IZR. reflexivity. }
  unfold float_bound. left.
  replace (IZR float_overflow) with (IZR float_overflow / IZR 1) by field.
  apply (root_lower float_overflow 1 (10 ^ 3083) 10 y);
    [lia | exact Hy | exact Hp | vm_compute; reflexivity].
Qed.

Lemma sqrt_below_bound (a : R) : 0 <= a < float_bound -> sqrt a < float_bound.
Proof.
  intros [H0 Hb]. pose proof float_bound_large as HL.
  destruct (Rle_dec a 1) as [H1 | H1].
  - apply Rle_lt_trans with 1; [| lra].
    rewrite <- sqrt_1. apply sqrt_le_1_alt. exact H1.
  - apply Rle_lt_trans with a; [| exact Hb].
    pose proof (sqrt_pos a) as Hs.
    pose proof (sqrt_sqrt a H0) as Hq.
    assert (1 <= sqrt a).
    { rewrite <- sqrt_1. apply sqrt_le_1_alt. lra. }
    nra.
Qed.

(** *** The seismic radius of a finite magnitude *)

Lemma seismic_exponent_fin (m : R) :
  Rabs m <= 1000000000 ->
  xsub (xmul (Fin 1.02) (Fin m)) (Fin 1.83) = Fin (1.02 * m - 1.83).
Proof.
  intros H. rewrite xmul_moderate; [reflexivity |].
  apply Rabs_le_inv in H. apply Rabs_le. lra.
Qed.

Lemma seismic_base_fin (m : R) :
  Rabs m <= 304 ->
  seismic_base_radius_km (Fin m)
  = Some (Fin (sqrt (Rpower 10 (1.02 * m - 1.83) / PI))).
Proof.
  intros H. unfold seismic_base_radius_km.
  rewrite seismic_exponent_fin by lra. unfold xpow10.
  apply Rabs_le_inv in H.
  destruct (Rle_dec float_bound (Rpower 10 (1.02 * m - 1.83))) as [Hb | Hb].
  - pose proof (power_in_range (1.02 * m - 1.83)). lra.
  - reflexivity.
Qed.

(** From magnitude 304.1 on the power is out of range. *)
Lemma seismic_base_overflow (m : R) :
  304.1 <= m <= 1000000000 -> seismic_base_radius_km (Fin m) = None.
Proof.
  intros H. unfold seismic_base_radius_km.
  rewrite seismic_exponent_fin by (apply Rabs_le; lra). unfold xpow10.
  destruct (Rle_dec float_bound (Rpower 10 (1.02 * m - 1.83))) as [Hb | Hb].
  - reflexivity.
  - pose proof (power_out_of_range (1.02 * m - 1.83)). lra.
Qed.

Lemma seismic_radius_overflow (m : R) (depth_km : option xreal) :
  304.1 <= m <= 1000000000 ->
  seismic_attenuated_km (Fin m) depth_km = None
  /\ seismic_radius_km (Fin m) depth_km = None.
Proof.
  intros H. unfold seismic_radius_km, seismic_attenuated_km.
  rewrite seismic_base_overflow by exact H. split; reflexivity.
Qed.

Lemma base_radius_small (m : R) :
  Rabs m <= 304 ->
  0 <= sqrt (Rpower 10 (1.02 * m - 1.83) / PI) < float_bound.
Proof.
  intros H. split; [apply sqrt_pos |].
  apply sqrt_below_bound.
  assert (HPI : 3 < PI) by (pose proof PI_bounds; lra).
  assert (Hp : 0 < Rpower 10 (1.02 * m - 1.83)) by apply exp_pos.
  apply Rabs_le_inv in H.
  pose proof (power_in_range (1.02 * m - 1.83)) as Hb.
  split.
  - apply Rmult_le_pos; [lra |]. left. apply Rinv_0_lt_compat. lra.
  - apply Rle_lt_trans with (Rpower 10 (1.02 * m - 1.83)); [| lra].
    apply Rmult_le_reg_r with PI; [lra |].
    unfold Rdiv. rewrite Rmult_assoc, Rinv_l by lra. nra.
Qed.

Lemma seismic_attenuated_fin (m d : R) :
  Rabs m <= 304 ->
  seismic_attenuated_km (Fin m) (Some (Fin d)) = Some (Fin (attenuated m d)).
Proof.
  intros H. unfold seismic_attenuated_km, attenuated.
  rewrite seismic_base_fin by exact H. rewrite !xlt_fin.
  pose proof (base_radius_small m H) as [H0 Hb].
  destruct (Rlt_dec 300 d); [rewrite xmul_fin by lra; reflexivity |].
  destruct (Rlt_dec 70 d); [rewrite xmul_fin by lra; reflexivity |].
  reflexivity.
Qed.

Lemma seismic_radius_fin (m d : R) :
  Rabs m <= 304 ->
  seismic_radius_km (Fin m) (Some (Fin d)) = Some (Fin (seismic_spec_km m d)).
Proof.
  intros H. unfold seismic_radius_km.
  rewrite seismic_attenuated_fin by exact H. rewrite xmin_fin, xmax_fin.
  reflexivity.
Qed.

Lemma seismic_base_mono (M1 M2 : R) :
  M1 <= M2 ->
  sqrt (Rpower 10 (1.02 * M1 - 1.83) / PI)
  <= sqrt (Rpower 10 (1.02 * M2 - 1.83) / PI).
Proof.
  intros H.
  apply sqrt_le_1_alt.
  apply Rmult_le_compat_r.
  - left; apply Rinv_0_lt_compat, PI_RGT_0.
  - destruct (Req_dec M1 M2) as [-> | Hne]; [apply Rle_refl |].
    left; apply Rpower_lt; lra.
Qed.

Lemma attenuated_mono (M1 M2 d : R) :
  M1 <= M2 -> attenuated M1 d <= attenuated M2 d.
Proof.
  intros H; unfold attenuated.
  pose proof (seismic_base_mono M1 M2 H) as Hb.
  destruct (Rlt_dec 300 d); [lra |].
  destruct (Rlt_dec 70 d); lra.
Qed.

End RealFloatFacts.

(** ** The seismic radius *)

Section SeismicFacts.
Local Open Scope R_scope.

(** The felt area of a magnitude 6 event, [10 ** 4.29] square
    kilometres. *)
Lemma felt_area_M6 : 19490 < Rpower 10 (1.02 * 6 - 1.83) < 19505.
Proof.
  set (x := Rpower 10 (1.02 * 6 - 1.83)).
  assert (Hx : 0 < x) by apply exp_pos.
  assert (Hp : x ^ 100 = IZR (10 ^ 429)).
  { rewrite <- (Rpower_pow 100 x Hx).
    unfold x. rewrite Rpower_mult.
    replace ((1.02 * 6 - 1.83) * INR 100) with (INR 429)
      by (rewrite !INR_IZR_INZ; simpl; lra).
    rewrite Rpower_pow by lra.
    change 10 with (IZR 10). rewrite pow_IZR. reflexivity. }
  split.
  - replace 19490 with (IZR 19490 / IZR 1) by lra.
    apply (root_lower 19490 1 (10 ^ 429) 100 x);
      [lia | exact Hx | exact Hp | vm_compute; reflexivity].
  - replace 19505 with (IZR 19505 / IZR 1) by lra.
    apply (root_upper 19505 1 (10 ^ 429) 100 x);
      [lia | lia | exact Hx | exact Hp | vm_compute; reflexivity].
Qed.

Lemma div_PI_bounds (A lo hi : R) :
  lo * PI < A -> A < hi * PI -> lo < A / PI < hi.
Proof.
  intros H1 H2.
  assert (HPI : 0 < PI) by apply PI_RGT_0.
  assert (HA : A / PI * PI = A) by (field; lra).
  split; apply Rmult_lt_reg_r with PI; lra.
Qed.

Lemma base_radius_M6 :
  78.75 < sqrt (Rpower 10 (1.02 * 6 - 1.83) / PI) < 78.85.
Proof.
  pose proof PI_bounds as [Hp1 Hp2].
  pose proof felt_area_M6 as [Ha1 Ha2].
  set (A := Rpower 10 (1.02 * 6 - 1.83)) in *.
  destruct (div_PI_bounds A (78.75 ^ 2) (78.85 ^ 2)) as [Hlo Hhi]; [nra | nra |].
  split.
  - rewrite <- (sqrt_pow2 78.75) by lra.
    apply sqrt_lt_1_alt. split; [nra | exact Hlo].
  - rewrite <- (sqrt_pow2 78.85) by lra.
    apply sqrt_lt_1_alt. split; [nra | exact Hhi].
Qed.

Lemma seismic_spec_bounds (m d : R) : 2 <= seismic_spec_km m d <= 300.
Proof. unfold seismic_spec_km. apply clamp_bounds. lra. Qed.

(** The radius in metres of a circle whose radius in kilometres was
    clamped. *)
Lemma metres_fin (r : R) :
  2 <= r <= 300 -> xmul (Fin r) (Fin 1000) = Fin (r * 1000).
Proof. intros H. apply xmul_moderate. apply Rabs_le. lra. Qed.

(** The circle the earthquake block draws for a feed with one event of
    finite magnitude and depth. *)
Lemma quake_circle (location_ok : option pyfloat -> option pyfloat -> bool)
  (lon lat : pyfloat) (m d : Q) :
  Rabs (Q2R m) <= 304 ->
  alone (quakes_block location_ok
           [usgs_event (JFloat lon) (JFloat lat) (JFloat (Fin d)) (JFloat (Fin m))])
  = if location_ok (Some lat) (Some lon) then
      [FadedCircle (Some lat) (Some lon)
         (Fin (seismic_spec_km (Q2R m) (Q2R d) * 1000)) "#7B1FA2" 5 0.30]
    else [].
Proof.
  intros Hm.
  unfold alone, try_block, quakes_block, usgs_event, add_faded_circle.
  cbv -[seismic_radius_km to_real xmul IZR seismic_spec_km Q2R Rmult].
  change (seismic_radius_km (to_real (Fin m)) (Some (to_real (Fin d))))
    with (seismic_radius_km (Fin (Q2R m)) (Some (Fin (Q2R d)))).
  rewrite (seismic_radius_fin _ _ Hm).
  rewrite (metres_fin _ (seismic_spec_bounds _ _)).
  match goal with
  | |- context [if ?ok then _ else _] => destruct ok
  end; reflexivity.
Qed.


(** The same from an integer magnitude and depth. *)
Lemma seismic_radius_Z (m d : Z) :
  (Z.abs m <= 304)%Z ->
  seismic_radius_km (to_real (Fin (inject_Z m)))
    (Some (to_real (Fin (inject_Z d))))
  = Some (Fin (seismic_spec_km (IZR m) (IZR d))).
Proof.
  intros H. unfold to_real. rewrite !Q2R_inject.
  apply seismic_radius_fin. rewrite <- abs_IZR. apply IZR_le. exact H.
Qed.

Lemma seismic_overflow_Z (m : Z) (depth_km : option xreal) :
  (305 <= m <= 1000000000)%Z ->
  seismic_radius_km (to_real (Fin (inject_Z m))) depth_km = None.
Proof.
  intros [Hlo Hhi]. unfold to_real. rewrite Q2R_inject.
  apply seismic_radius_overflow.
  apply IZR_le in Hlo, Hhi. lra.
Qed.

(** An event of magnitude 305 ends the block, whatever follows it. *)
Lemma quake_overflow_first
  (location_ok : option pyfloat -> option pyfloat -> bool) :
  alone (quakes_block location_ok [usgs_two 305 5]) = [].
Proof.
  unfold alone, try_block, quakes_block, usgs_two, add_faded_circle.
  cbv -[seismic_radius_km to_real xmul IZR seismic_spec_km Q2R Rmult].
  change (seismic_radius_km (to_real (Fin (305 # 1))) (Some (to_real (Fin (10 # 1)))))
    with (seismic_radius_km (to_real (Fin (inject_Z 305)))
            (Some (to_real (Fin (inject_Z 10))))).
  rewrite seismic_overflow_Z by lia. reflexivity.
Qed.

(** The count of the block is not stored then. *)
Lemma quake_overflow_count
  (location_ok : option pyfloat -> option pyfloat -> bool) :
  dict_find
    (snd (try_block (quakes_block location_ok [usgs_two 305 5]) initial_counts))
    "earthquakes"
  = Some 0%nat.
Proof.
  unfold try_block, quakes_block, usgs_two, add_faded_circle.
  cbv -[seismic_radius_km to_real xmul IZR seismic_spec_km Q2R Rmult].
  change (seismic_radius_km (to_real (Fin (305 # 1))) (Some (to_real (Fin (10 # 1)))))
    with (seismic_radius_km (to_real (Fin (inject_Z 305)))
            (Some (to_real (Fin (inject_Z 10))))).
  rewrite seismic_overflow_Z by lia. reflexivity.
Qed.

(** What came before it stays drawn. *)
Lemma quake_overflow_second
  (location_ok : option pyfloat -> option pyfloat -> bool) :
  alone (quakes_block location_ok [usgs_two 5 305])
  = if location_ok (Some (Fin 1%Q)) (Some (Fin 0%Q)) then
      [FadedCircle (Some (Fin 1%Q)) (Some (Fin 0%Q))
         (Fin (seismic_spec_km 5 10 * 1000)) "#7B1FA2" 5 0.30]
    else [].
Proof.
  unfold alone, try_block, quakes_block, usgs_two, add_faded_circle.
  cbv -[seismic_radius_km to_real xmul IZR seismic_spec_km Q2R Rmult].
  change (seismic_radius_km (to_real (Fin (5 # 1))) (Some (to_real (Fin (10 # 1)))))
    with (seismic_radius_km (to_real (Fin (inject_Z 5)))
            (Some (to_real (Fin (inject_Z 10))))).
  rewrite seismic_radius_Z by lia.
  rewrite (metres_fin _ (seismic_spec_bounds _ _)).
  match goal with
  | |- context [if ?ok then _ else _] => destruct ok
  end; [| reflexivity].
  cbv -[seismic_radius_km to_real xmul IZR seismic_spec_km Q2R Rmult].
  change (seismic_radius_km (to_real (Fin (305 # 1))) (Some (to_real (Fin (10 # 1)))))
    with (seismic_radius_km (to_real (Fin (inject_Z 305)))
            (Some (to_real (Fin (inject_Z 10))))).
  rewrite seismic_overflow_Z by lia. reflexivity.
Qed.

(** C1 at the failing input: for an event of magnitude 305 the power
    [10 ** (1.02 M - 1.83)] is out of the range of a float and raises;
    the exception ends the earthquake block, so neither this event nor
    the sound event after it is drawn and the count stays at zero, while
    an event before it stays drawn.  Up to magnitude 304 the radius is the one the claim gives:
    [sqrt (10 ^ (1.02 M - 1.83) / pi)] km, halved when [d > 300], else
    multiplied by 0.7 when [d > 70], then clamped into [[2, 300]];
    magnitude 6 at a depth of 10 km gives the unattenuated base radius,
    which rounds to 78.8 km. *)
Theorem magnitude_overflow_ends_block :
  forall location_ok : option pyfloat -> option pyfloat -> bool,
    seismic_radius_km (Fin 305) (Some (Fin 10)) = None
    /\ alone (quakes_block location_ok [usgs_two 305 5]) = []
    /\ dict_find
         (snd (try_block (quakes_block location_ok [usgs_two 305 5])
                 initial_counts))
         "earthquakes"
       = Some 0%nat
    /\ alone (quakes_block location_ok [usgs_two 5 305])
       = (if location_ok (Some (Fin 1%Q)) (Some (Fin 0%Q)) then
            [FadedCircle (Some (Fin 1%Q)) (Some (Fin 0%Q))
               (Fin (seismic_spec_km 5 10 * 1000)) "#7B1FA2" 5 0.30]
          else [])
    /\ (forall m d : R,
          Rabs m <= 304 ->
          seismic_radius_km (Fin m) (Some (Fin d))
          = Some (Fin (seismic_spec_km m d)))
    /\ seismic_radius_km (Fin 6) (Some (Fin 10))
       = Some (Fin (sqrt (Rpower 10 (1.02 * 6 - 1.83) / PI)))
    /\ 78.75 < sqrt (Rpower 10 (1.02 * 6 - 1.83) / PI) < 78.85.
Proof.
  intros location_ok.
  split; [apply seismic_radius_overflow; lra |].
  split; [apply quake_overflow_first |].
  split; [apply quake_overflow_count |].
  split; [apply quake_overflow_second |].
  split; [exact seismic_radius_fin |].
  split; [| exact base_radius_M6].
  rewrite seismic_radius_fin by (rewrite Rabs_pos_eq; lra). do 2 f_equal.
  pose proof base_radius_M6 as [Hlo Hhi].
  unfold seismic_spec_km, clamp.
  destruct (Rlt_dec 300 10); [lra |].
  destruct (Rlt_dec 70 10); [lra |].
  rewrite Rmin_right by lra.
  rewrite Rmax_right by lra.
  reflexivity.
Qed.

Lemma magnitude_overflow_witness :
  Rabs 6 <= 304
  /\ seismic_radius_km (Fin 6) (Some (Fin 10))
     = Some (Fin (seismic_spec_km 6 10)).
Proof.
  assert (H : Rabs 6 <= 304) by (rewrite Rabs_pos_eq; lra).
  split; [exact H |].
  destruct (magnitude_overflow_ends_block validate_location)
    as (_ & _ & _ & _ & Hf & _).
  exact (Hf 6 10 H).
Defined.

Lemma seismic_base_special (M : xreal) :
  (forall m, M <> Fin m) -> exists x, seismic_base_radius_km M = Some x.
Proof.
  intros H. unfold seismic_base_radius_km.
  destruct M as [m | | |]; [exfalso; apply (H m); reflexivity | | |];
    simpl xmul;
    repeat match goal with
           | |- context [if ?c then _ else _] => destruct c
           end; simpl; eexists; reflexivity.
Qed.

(** A magnitude that does not overflow has a radius before the clamp. *)
Lemma seismic_attenuated_some (M : xreal) (depth_km : option xreal) :
  (forall m, M = Fin m -> Rabs m <= 304) ->
  exists x, seismic_attenuated_km M depth_km = Some x.
Proof.
  intros H. unfold seismic_attenuated_km.
  assert (Hb : exists x, seismic_base_radius_km M = Some x).
  { destruct M as [m | | |];
      [rewrite seismic_base_fin by (apply H; reflexivity); eexists; reflexivity
      | | |];
      apply seismic_base_special; intros m; discriminate. }
  destruct Hb as (x & ->). eexists; reflexivity.
Qed.

Lemma seismic_radius_range (M : xreal) (depth_km : option xreal) :
  (forall m, M = Fin m -> Rabs m <= 304) ->
  exists r : R, seismic_radius_km M depth_km = Some (Fin r) /\ 2 <= r <= 300.
Proof.
  intros H. unfold seismic_radius_km.
  destruct (seismic_attenuated_some M depth_km H) as (x & ->).
  destruct (clamp_any 2 300 x) as (r & -> & Hr); [lra |].
  exists r. split; [reflexivity | exact Hr].
Qed.

(** C9 at the failing inputs: from magnitude 304.1 on the power
    overflows, so there is no radius, before the clamp or after it, and
    nothing is drawn.  Up to magnitude 304 the claim holds: at equal
    depth the radius before clamping does not decrease when the
    magnitude grows, and the radius after clamping lies in [[2, 300]]
    km at every depth. *)
Theorem seismic_radius_monotone_and_bounded :
  (forall (m : R) (depth_km : option xreal),
     304.1 <= m <= 1000000000 ->
     seismic_attenuated_km (Fin m) depth_km = None
     /\ seismic_radius_km (Fin m) depth_km = None)
  /\ seismic_radius_km (Fin 305) None = None
  /\ (forall (M1 M2 : R) (depth : option R),
        Rabs M1 <= 304 -> Rabs M2 <= 304 -> M1 <= M2 ->
        exists r1 r2 : R,
          seismic_attenuated_km (Fin M1) (option_map Fin depth) = Some (Fin r1)
          /\ seismic_attenuated_km (Fin M2) (option_map Fin depth)
             = Some (Fin r2)
          /\ r1 <= r2)
  /\ (forall (m : R) (depth_km : option xreal),
        Rabs m <= 304 ->
        exists r : R,
          seismic_radius_km (Fin m) depth_km = Some (Fin r) /\ 2 <= r <= 300).
Proof.
  split; [exact seismic_radius_overflow |].
  split; [apply seismic_radius_overflow; lra |].
  split.
  - intros M1 M2 [d |] H1 H2 H.
    + exists (attenuated M1 d), (attenuated M2 d).
      simpl option_map. rewrite !seismic_attenuated_fin by assumption.
      repeat split; [apply attenuated_mono; exact H].
    + eexists; eexists. unfold seismic_attenuated_km. simpl option_map.
      rewrite !seismic_base_fin by assumption.
      repeat split. apply seismic_base_mono; exact H.
  - intros m depth_km H. apply seismic_radius_range.
    intros m' [= <-]. exact H.
Qed.

Lemma seismic_radius_monotone_witness :
  Rabs 5 <= 304 /\ Rabs 6 <= 304 /\ 5 <= 6
  /\ exists r1 r2 : R,
       seismic_attenuated_km (Fin 5) (option_map Fin (Some 100))
       = Some (Fin r1)
       /\ seismic_attenuated_km (Fin 6) (option_map Fin (Some 100))
          = Some (Fin r2)
       /\ r1 <= r2.
Proof.
  assert (H5 : Rabs 5 <= 304) by (rewrite Rabs_pos_eq; lra).
  assert (H6 : Rabs 6 <= 304) by (rewrite Rabs_pos_eq; lra).
  assert (H : 5 <= 6) by lra.
  split; [exact H5 |]. split; [exact H6 |]. split; [exact H |].
  destruct seismic_radius_monotone_and_bounded as (_ & _ & Hm & _).
  exact (Hm 5 6 (Some 100) H5 H6 H).
Defined.

End SeismicFacts.

(** ** The wildfire radius *)

Section FireFacts.
Local Open Scope R_scope.

Lemma sqrt_inv_PI_le_1 : sqrt (1 / PI) <= 1.
Proof.
  pose proof PI_bounds as [Hlo _].
  rewrite <- sqrt_1 at 2. apply sqrt_le_1_alt.
  apply Rmult_le_reg_r with PI; [lra |].
  unfold Rdiv; rewrite Rmult_assoc, Rinv_l; lra.
Qed.

(** The radius the code computes once the floored product is known. *)
Lemma fire_clamp_fin (P : R) :
  xmax (Fin 150)
    (xmin (Fin 2000) (xsqrt (xdiv_const (xmax (Fin 1) (Fin P)) PI)))
  = Fin (clamp 150 2000 (sqrt (Rmax 1 P / PI))).
Proof.
  rewrite xmax_fin. simpl xdiv_const. simpl xsqrt.
  rewrite xmin_fin, xmax_fin. reflexivity.
Qed.

(** Without overflow the code computes its formula on the reals. *)
Lemma fire_footprint_fin (scan track lat : R) :
  Rabs scan <= 360 -> Rabs track <= 360 ->
  fire_footprint_radius_m (Fin scan) (Fin track) (Fin lat)
  = Some (Fin (fire_guarded_m scan track lat)).
Proof.
  intros Hs Ht. apply Rabs_le_inv in Hs, Ht.
  unfold fire_footprint_radius_m, fire_guarded_m.
  simpl xcos. cbv iota beta.
  pose proof (COS_bound (lat * PI / 180)) as [Hc1 Hc2].
  set (c := cos (lat * PI / 180)) in *.
  rewrite (xmax_fin 0 c).
  assert (Hm : 0 <= Rmax 0 c <= 1).
  { split; [apply Rmax_l | apply Rmax_lub; lra]. }
  set (m := Rmax 0 c) in *.
  set (s := scan * 111320). set (h := track * 111320).
  assert (Hs' : -40075200 <= s <= 40075200) by (unfold s; lra).
  assert (Hh' : -40075200 <= h <= 40075200) by (unfold h; lra).
  assert (Hw : -40075200 <= s * m <= 40075200) by nra.
  assert (Hp : -1606021655040000 <= s * m * h <= 1606021655040000) by nra.
  rewrite (xmul_moderate scan) by (apply Rabs_le; fold s; lra).
  rewrite (xmul_moderate track) by (apply Rabs_le; fold h; lra).
  fold s h.
  rewrite (xmul_moderate s) by (apply Rabs_le; lra).
  rewrite xmul_moderate by (apply Rabs_le; lra).
  rewrite fire_clamp_fin. reflexivity.
Qed.

(** With a cosine and a product of scan and track that are not negative
    the formula of the specification has a value, and the two floors
    change nothing after the clamp. *)
Lemma fire_guarded_is_spec (scan track lat : R) :
  0 <= cos (lat * PI / 180) -> 0 <= scan * track ->
  fire_spec_m scan track lat = Some (fire_guarded_m scan track lat).
Proof.
  intros Hc Hst. unfold fire_guarded_m, fire_spec_m.
  rewrite (Rmax_right 0 _ Hc).
  set (P := scan * 111320 * cos (lat * PI / 180) * (track * 111320)).
  assert (HP : 0 <= P).
  { unfold P.
    replace (scan * 111320 * cos (lat * PI / 180) * (track * 111320))
      with (scan * track * (111320 * 111320 * cos (lat * PI / 180))) by ring.
    apply Rmult_le_pos; [exact Hst |]. apply Rmult_le_pos; [lra | exact Hc]. }
  cbv zeta. destruct (Rle_dec 0 P) as [_ | Hn]; [| contradiction].
  f_equal.
  destruct (Rle_dec 1 P) as [H1 | H1].
  - rewrite (Rmax_right 1 P H1). reflexivity.
  - rewrite Rmax_left by lra.
    pose proof sqrt_inv_PI_le_1 as Hs.
    assert (Hp : sqrt (P / PI) <= sqrt (1 / PI)).
    { apply sqrt_le_1_alt. apply Rmult_le_compat_r; [| lra].
      left; apply Rinv_0_lt_compat, PI_RGT_0. }
    rewrite !clamp_low by lra. reflexivity.
Qed.

(** C5, as the code has it, for scan, track and latitude of magnitude
    at most 360: the radius is [sqrt (max 1 (w * h) / pi)] clamped into
    [[150, 2000]] m, where [w = scan * 111320 * max 0 (cos lat_rad)] and
    [h = track * 111320]; when the cosine and the product of scan and
    track are not negative this is the formula without the two floors;
    with scan, track or latitude missing the radius is exactly 500 m. *)
Theorem fire_radius_formula :
  (forall scan track lat : Q,
     Rabs (Q2R scan) <= 360 -> Rabs (Q2R track) <= 360 ->
     Rabs (Q2R lat) <= 360 ->
     fire_radius_m (Some (Fin scan)) (Some (Fin track)) (Some (Fin lat))
     = Some (Fin (fire_guarded_m (Q2R scan) (Q2R track) (Q2R lat))))
  /\ (forall scan track lat : Q,
        Rabs (Q2R scan) <= 360 -> Rabs (Q2R track) <= 360 ->
        Rabs (Q2R lat) <= 360 ->
        0 <= cos (Q2R lat * PI / 180) ->
        0 <= Q2R scan * Q2R track ->
        fire_radius_m (Some (Fin scan)) (Some (Fin track)) (Some (Fin lat))
        = option_map Fin (fire_spec_m (Q2R scan) (Q2R track) (Q2R lat)))
  /\ (forall track lat, fire_radius_m None track lat = Some (Fin 500))
  /\ (forall scan lat, fire_radius_m scan None lat = Some (Fin 500))
  /\ (forall scan track, fire_radius_m scan track None = Some (Fin 500)).
Proof.
  split.
  { intros scan track lat Hs Ht _. apply fire_footprint_fin; assumption. }
  split.
  { intros scan track lat Hs Ht _ Hc Hst.
    rewrite (fire_guarded_is_spec _ _ _ Hc Hst). simpl option_map.
    apply fire_footprint_fin; assumption. }
  split; [reflexivity |].
  split.
  - intros [scan |] lat; reflexivity.
  - intros [scan |] [track |]; reflexivity.
Qed.

Lemma cos_degrees_nonneg (lat : R) :
  -90 <= lat <= 90 -> 0 <= cos (lat * PI / 180).
Proof.
  intros [Hlo Hhi]. pose proof PI_RGT_0 as HPI.
  apply cos_ge_0; nra.
Qed.

Lemma fire_radius_formula_witness :
  Rabs (Q2R 1) <= 360 /\ Rabs (Q2R 45) <= 360
  /\ 0 <= cos (Q2R 45 * PI / 180) /\ 0 <= Q2R 1 * Q2R 1
  /\ fire_radius_m (Some (Fin 1%Q)) (Some (Fin 1%Q)) (Some (Fin 45%Q))
     = option_map Fin (fire_spec_m (Q2R 1) (Q2R 1) (Q2R 45)).
Proof.
  assert (E1 : Q2R 1 = 1)
    by (change 1%Q with (inject_Z 1); rewrite Q2R_inject; reflexivity).
  assert (E45 : Q2R 45 = 45)
    by (change 45%Q with (inject_Z 45); rewrite Q2R_inject; reflexivity).
  assert (H1 : Rabs (Q2R 1) <= 360) by (rewrite E1, Rabs_pos_eq; lra).
  assert (H45 : Rabs (Q2R 45) <= 360) by (rewrite E45, Rabs_pos_eq; lra).
  assert (Hc : 0 <= cos (Q2R 45 * PI / 180))
    by (rewrite E45; apply cos_degrees_nonneg; lra).
  assert (Hp : 0 <= Q2R 1 * Q2R 1) by (rewrite E1; lra).
  split; [exact H1 |]. split; [exact H45 |]. split; [exact Hc |].
  split; [exact Hp |].
  exact (proj1 (proj2 fire_radius_formula) 1%Q 1%Q 45%Q H1 H1 H45 Hc Hp).
Defined.


(** Scan -1, track 1 at latitude 180 gives 150 m in the code, where the
    cosine is floored at zero, and 2000 m by the formula without the
    floor. *)
Lemma fire_floor_example :
  fire_radius_m (Some (Fin (-1)%Q)) (Some (Fin 1%Q)) (Some (Fin 180%Q))
  = Some (Fin 150)
  /\ fire_spec_m (Q2R (-1)) (Q2R 1) (Q2R 180) = Some 2000.
Proof.
  assert (Hm : Q2R (-1) = -1)
    by (change (-1)%Q with (inject_Z (-1)); rewrite Q2R_inject; reflexivity).
  assert (H1 : Q2R 1 = 1)
    by (change 1%Q with (inject_Z 1); rewrite Q2R_inject; reflexivity).
  assert (Hl : Q2R 180 = 180)
    by (change 180%Q with (inject_Z 180); rewrite Q2R_inject; reflexivity).
  assert (Hcos : cos (180 * PI / 180) = -1).
  { replace (180 * PI / 180) with PI by field. apply cos_PI. }
  pose proof PI_bounds as [HPlo HPhi].
  split.
  - change (fire_radius_m (Some (Fin (-1)%Q)) (Some (Fin 1%Q)) (Some (Fin 180%Q)))
      with (fire_footprint_radius_m (Fin (Q2R (-1))) (Fin (Q2R 1))
              (Fin (Q2R 180))).
    rewrite fire_footprint_fin by (rewrite ?Hm, ?H1; apply Rabs_le; lra).
    rewrite Hm, H1, Hl. unfold fire_guarded_m. rewrite Hcos.
    do 2 f_equal.
    rewrite (Rmax_left 0 (-1)) by lra.
    rewrite Rmax_left by lra.
    pose proof sqrt_inv_PI_le_1.
    apply clamp_low; lra.
  - rewrite Hm, H1, Hl. unfold fire_spec_m. rewrite Hcos. cbv zeta.
    destruct (Rle_dec 0 (-1 * 111320 * -1 * (1 * 111320))) as [_ | Hn];
      [| exfalso; apply Hn; lra].
    f_equal. apply clamp_high; [lra |].
    rewrite <- (sqrt_pow2 2000) by lra.
    apply sqrt_le_1_alt.
    apply Rmult_le_reg_r with PI; [lra |].
    unfold Rdiv; rewrite Rmult_assoc, Rinv_l by lra. nra.
Qed.

(** *** The wildfire radius on every float *)

Lemma at_least_overflow (k r : R) :
  0 <= k -> k <= r -> at_least k (overflow r).
Proof.
  intros H0 H. unfold overflow. pose proof float_bound_large.
  destruct (Rle_dec float_bound r); [left; reflexivity |].
  destruct (Rle_dec r (- float_bound)); [lra |].
  right. exists r. split; [reflexivity | exact H].
Qed.

Lemma at_least_mul (k1 k2 : R) (x y : xreal) :
  0 < k1 -> 0 < k2 -> at_least k1 x -> at_least k2 y ->
  at_least (k1 * k2) (xmul x y).
Proof.
  intros H1 H2 [-> | (a & -> & Ha)] [-> | (b & -> & Hb)].
  - left; reflexivity.
  - simpl. destruct (Req_dec_T b 0); [lra |].
    destruct (Rlt_dec b 0); [lra |]. left; reflexivity.
  - simpl. destruct (Req_dec_T a 0); [lra |].
    destruct (Rlt_dec a 0); [lra |]. left; reflexivity.
  - apply at_least_overflow; nra.
Qed.

(** A floored product of at least 12566400 square metres gives the
    maximum radius. *)
Lemma fire_clamp_large (P : xreal) :
  at_least 12566400 P ->
  xmax (Fin 150)
    (xmin (Fin 2000) (xsqrt (xdiv_const (xmax (Fin 1) P) PI)))
  = Fin 2000.
Proof.
  pose proof PI_bounds as [HPlo HPhi].
  intros [-> | (r & -> & Hr)].
  - unfold xmax at 2. simpl xlt. cbv iota. simpl xdiv_const. simpl xsqrt.
    unfold xmin. simpl xlt. cbv iota. rewrite xmax_fin.
    rewrite Rmax_right by lra. reflexivity.
  - rewrite fire_clamp_fin. f_equal.
    rewrite Rmax_right by lra.
    apply clamp_high; [lra |].
    rewrite <- (sqrt_pow2 2000) by lra.
    apply sqrt_le_1_alt.
    apply Rmult_le_reg_r with PI; [lra |].
    unfold Rdiv; rewrite Rmult_assoc, Rinv_l by lra. nra.
Qed.

(** Beyond the range of angles the width overflows: a scan of
    [10 ^ 305] with a track of [10 ^ -310] at latitude 60 gives 2000 m in
    the code and 150 m by the formula on the reals. *)
Lemma fire_overflow_example :
  fire_radius_m (Some (Fin (inject_Z (10 ^ 305))))
    (Some (Fin (1 # 10 ^ 310))) (Some (Fin 60%Q))
  = Some (Fin 2000)
  /\ fire_spec_m (Q2R (inject_Z (10 ^ 305))) (Q2R (1 # 10 ^ 310)) (Q2R 60)
     = Some 150.
Proof.
  pose proof PI_bounds as [HPlo HPhi].
  pose proof float_bound_large as HL.
  assert (Hl : Q2R 60 = 60)
    by (change 60%Q with (inject_Z 60); rewrite Q2R_inject; reflexivity).
  assert (Hcos : cos (60 * PI / 180) = 1 / 2).
  { replace (60 * PI / 180) with (PI / 3) by field. apply cos_PI3. }
  rewrite Q2R_inject.
  set (S := IZR (10 ^ 305)).
  set (t := Q2R (1 # 10 ^ 310)).
  assert (HS : float_bound <= S * 111320).
  { unfold S, float_bound. rewrite <- mult_IZR. apply IZR_le.
    vm_compute. discriminate. }
  assert (HS0 : 0 < S) by (unfold S; apply IZR_lt; vm_compute; reflexivity).
  assert (Hst : S * t = / 100000).
  { unfold t, Q2R, S. cbn [Qnum Qden].
    replace (IZR (Z.pos (10 ^ 310))) with (IZR (10 ^ 305) * 100000)
      by (rewrite <- mult_IZR; f_equal).
    fold S. field. lra. }
  assert (Ht : 0 < t <= 1).
  { assert (t = / 100000 / S) by (rewrite <- Hst; field; lra).
    assert (1 <= S) by (unfold S; apply IZR_le; vm_compute; discriminate).
    assert (Hi : 0 < / S) by (apply Rinv_0_lt_compat; lra).
    assert (/ S <= 1).
    { rewrite <- Rinv_1. apply Rinv_le_contravar; lra. }
    subst t. rewrite H. unfold Rdiv. nra. }
  split.
  - change (fire_radius_m (Some (Fin (inject_Z (10 ^ 305))))
              (Some (Fin (1 # 10 ^ 310))) (Some (Fin 60%Q)))
      with (fire_footprint_radius_m (Fin (Q2R (inject_Z (10 ^ 305))))
              (Fin t) (Fin (Q2R 60))).
    rewrite Q2R_inject, Hl. fold S.
    unfold fire_footprint_radius_m. simpl xcos. cbv iota beta.
    rewrite Hcos, (xmax_fin 0), (Rmax_right 0) by lra.
    f_equal. apply fire_clamp_large. left.
    change (xmul (Fin S) (Fin 111320)) with (overflow (S * 111320)).
    change (xmul (Fin t) (Fin 111320)) with (overflow (t * 111320)).
    unfold overflow at 1.
    destruct (Rle_dec float_bound (S * 111320)); [| contradiction].
    rewrite (overflow_fin (t * 111320)) by lra.
    simpl. destruct (Req_dec_T (1 / 2) 0); [lra |].
    destruct (Rlt_dec (1 / 2) 0); [lra |]. simpl.
    destruct (Req_dec_T (t * 111320) 0); [lra |].
    destruct (Rlt_dec (t * 111320) 0); [lra |]. reflexivity.
  - rewrite Hl. unfold fire_spec_m. rewrite Hcos. cbv zeta.
    replace (S * 111320 * (1 / 2) * (t * 111320))
      with (S * t * 6196071200) by field.
    rewrite Hst.
    destruct (Rle_dec 0 (/ 100000 * 6196071200)) as [_ | Hn];
      [| exfalso; apply Hn; lra].
    f_equal. apply clamp_low; [lra |].
    rewrite <- (sqrt_pow2 150) by lra.
    apply sqrt_le_1_alt.
    apply Rmult_le_reg_r with PI; [lra |].
    unfold Rdiv; rewrite Rmult_assoc, Rinv_l by lra. nra.
Qed.

(** C5 as stated fails twice: at scan -1, track 1 and latitude 180 the
    floor on the cosine gives 150 m where the formula gives 2000 m, and
    at scan [10 ^ 305], track [10 ^ -310] and latitude 60 the overflowing
    width gives 2000 m where the formula gives 150 m. *)
Lemma fire_radius_counterexample :
  (fire_radius_m (Some (Fin (-1)%Q)) (Some (Fin 1%Q)) (Some (Fin 180%Q))
   = Some (Fin 150)
   /\ fire_spec_m (Q2R (-1)) (Q2R 1) (Q2R 180) = Some 2000)
  /\ (fire_radius_m (Some (Fin (inject_Z (10 ^ 305))))
        (Some (Fin (1 # 10 ^ 310))) (Some (Fin 60%Q))
      = Some (Fin 2000)
      /\ fire_spec_m (Q2R (inject_Z (10 ^ 305))) (Q2R (1 # 10 ^ 310))
           (Q2R 60)
         = Some 150).
Proof.
  split; [exact fire_floor_example | exact fire_overflow_example].
Qed.

(** A width floored at zero leaves the area at its floor of 1, whether
    or not scan or track overflow. *)
Lemma fire_floored_area (x y : xreal) :
  xmax (Fin 1) (xmul (xmul x (Fin 0)) y) = Fin 1.
Proof.
  pose proof float_bound_large as HL.
  assert (Hz : forall a, overflow (a * 0) = Fin 0).
  { intros a. rewrite Rmult_0_r. apply overflow_fin. lra. }
  assert (Hz' : forall b, overflow (0 * b) = Fin 0).
  { intros b. rewrite Rmult_0_l. apply overflow_fin. lra. }
  assert (H0 : forall y', xmax (Fin 1) (xmul (Fin 0) y') = Fin 1).
  { intros [b | | |]; simpl xmul.
    - rewrite Hz', xmax_fin, Rmax_left by lra. reflexivity.
    - destruct (Req_dec_T 0 0); [reflexivity | lra].
    - destruct (Req_dec_T 0 0); [reflexivity | lra].
    - reflexivity. }
  destruct x as [a | | |]; simpl (xmul _ (Fin 0)).
  - rewrite Hz. apply H0.
  - destruct (Req_dec_T 0 0); [| lra]. destruct y; reflexivity.
  - destruct (Req_dec_T 0 0); [| lra]. destruct y; reflexivity.
  - destruct y; reflexivity.
Qed.

(** X4: the wildfire radius is always a finite number of metres between
    150 and 2000, for every scan, track and latitude that is present or
    missing, NaN included; the only failure is the [ValueError] of the
    cosine at an infinite latitude. *)
Theorem fire_radius_always_finite :
  forall scan_deg track_deg lat : option pyfloat,
    match fire_radius_m scan_deg track_deg lat with
    | Some radius_m => exists r : R, radius_m = Fin r /\ 150 <= r <= 2000
    | None => lat = Some PInf \/ lat = Some NInf
    end.
Proof.
  intros [scan |] [track |] [lat |]; simpl;
    try (exists 500; split; [reflexivity | lra]).
  unfold fire_footprint_radius_m.
  destruct lat as [q | | |]; simpl xcos; cbv iota beta.
  - apply clamp_any; lra.
  - left; reflexivity.
  - right; reflexivity.
  - apply clamp_any; lra.
Qed.

Lemma cos_degrees_nonpos (lat : R) :
  90 < Rabs lat < 270 -> cos (lat * PI / 180) <= 0.
Proof.
  intros [Hlo Hhi]. pose proof PI_RGT_0 as HPI.
  unfold Rabs in Hlo, Hhi. destruct (Rcase_abs lat).
  - replace (lat * PI / 180) with (- (- lat * PI / 180)) by field.
    rewrite cos_neg. apply cos_le_0; nra.
  - apply cos_le_0; nra.
Qed.

(** X5: a detection whose latitude lies strictly between 90 and 270
    degrees on either side of the equator, where the cosine is negative
    and floored at zero, gets the minimum radius of 150 m whatever its
    scan and track. *)
Theorem fire_radius_beyond_pole :
  forall scan track lat : R,
    90 < Rabs lat < 270 ->
    fire_footprint_radius_m (Fin scan) (Fin track) (Fin lat) = Some (Fin 150).
Proof.
  intros scan track lat H.
  pose proof (cos_degrees_nonpos lat H) as Hc.
  unfold fire_footprint_radius_m. simpl xcos. cbv iota beta.
  rewrite (xmax_fin 0), (Rmax_left 0 _ Hc).
  rewrite fire_floored_area.
  simpl xdiv_const. simpl xsqrt. rewrite xmin_fin, xmax_fin.
  do 2 f_equal. pose proof sqrt_inv_PI_le_1.
  apply (clamp_low 150 2000); lra.
Qed.

Lemma fire_beyond_pole_witness :
  90 < Rabs 120 < 270
  /\ fire_footprint_radius_m (Fin 1) (Fin 1) (Fin 120) = Some (Fin 150).
Proof.
  assert (H : 90 < Rabs 120 < 270) by (rewrite Rabs_pos_eq; lra).
  split; [exact H | exact (fire_radius_beyond_pole 1 1 120 H)].
Defined.

(** X6: the wildfire radius does not depend on the hemisphere: a
    latitude and its opposite give the same radius. *)
Theorem fire_radius_symmetric :
  forall scan track lat : R,
    fire_footprint_radius_m (Fin scan) (Fin track) (Fin (- lat))
    = fire_footprint_radius_m (Fin scan) (Fin track) (Fin lat).
Proof.
  intros scan track lat. unfold fire_footprint_radius_m. simpl xcos.
  replace (- lat * PI / 180) with (- (lat * PI / 180)) by field.
  rewrite cos_neg. reflexivity.
Qed.

Lemma cos_degrees_half (lat : R) :
  -60 <= lat <= 60 -> 1 / 2 <= cos (lat * PI / 180).
Proof.
  intros [Hlo Hhi]. pose proof PI_RGT_0 as HPI.
  rewrite <- cos_PI3.
  destruct (Rle_dec 0 lat) as [Hpos | Hneg].
  - apply cos_decr_1; nra.
  - replace (lat * PI / 180) with (- (- lat * PI / 180)) by field.
    rewrite cos_neg. apply cos_decr_1; nra.
Qed.

(** X7: with scan and track of at least 0.05 and a latitude within 60
    degrees of the equator the footprint is so large that the radius is
    the maximum of 2000 m. *)
Theorem fire_radius_saturates :
  forall scan track lat : R,
    0.05 <= scan -> 0.05 <= track -> -60 <= lat <= 60 ->
    fire_footprint_radius_m (Fin scan) (Fin track) (Fin lat) = Some (Fin 2000).
Proof.
  intros scan track lat Hs Ht Hl.
  pose proof (cos_degrees_half lat Hl) as Hc.
  unfold fire_footprint_radius_m. simpl xcos. cbv iota beta.
  rewrite (xmax_fin 0), (Rmax_right 0) by lra.
  f_equal. apply fire_clamp_large.
  assert (Hw : at_least (5566 * (1 / 2))
                 (xmul (xmul (Fin scan) (Fin 111320))
                    (Fin (cos (lat * PI / 180))))).
  { apply at_least_mul; [lra | lra | |].
    - apply at_least_overflow; lra.
    - right. eexists. split; [reflexivity | exact Hc]. }
  assert (Hh : at_least 5566 (xmul (Fin track) (Fin 111320)))
    by (apply at_least_overflow; lra).
  assert (HP : at_least (5566 * (1 / 2) * 5566)
                 (xmul (xmul (xmul (Fin scan) (Fin 111320))
                          (Fin (cos (lat * PI / 180))))
                    (xmul (Fin track) (Fin 111320))))
    by (apply at_least_mul; [lra | lra | exact Hw | exact Hh]).
  destruct HP as [-> | (r & -> & Hr)]; [left; reflexivity |].
  right. exists r. split; [reflexivity | lra].
Qed.

Lemma fire_saturation_witness :
  0.05 <= 1 /\ 0.05 <= 1 /\ -60 <= 45 <= 60
  /\ fire_footprint_radius_m (Fin 1) (Fin 1) (Fin 45) = Some (Fin 2000).
Proof.
  assert (H1 : 0.05 <= 1) by lra.
  assert (H2 : -60 <= 45 <= 60) by lra.
  split; [exact H1 |]. split; [exact H1 |]. split; [exact H2 |].
  exact (fire_radius_saturates 1 1 45 H1 H1 H2).
Defined.

End FireFacts.

(** ** The seismic radius on every float *)

Section SeismicRange.
Local Open Scope R_scope.

(** X1: for every magnitude that is NaN, infinite, or finite and of
    absolute value at most 304, and for every depth, the seismic radius
    is a finite number of kilometres between 2 and 300. *)
Theorem seismic_radius_always_finite :
  forall (M : xreal) (depth_km : option xreal),
    (forall m, M = Fin m -> Rabs m <= 304) ->
    exists r : R,
      seismic_radius_km M depth_km = Some (Fin r) /\ 2 <= r <= 300.
Proof. exact seismic_radius_range. Qed.

Lemma seismic_finite_witness :
  (forall m, @NaN R = Fin m -> Rabs m <= 304)
  /\ exists r : R,
       seismic_radius_km NaN (Some PInf) = Some (Fin r) /\ 2 <= r <= 300.
Proof.
  assert (H : forall m, @NaN R = Fin m -> Rabs m <= 304)
    by (intros m E; discriminate E).
  split; [exact H |].
  exact (seismic_radius_always_finite NaN (Some PInf) H).
Defined.

Lemma attenuated_le_base (M d : R) :
  attenuated M d <= sqrt (Rpower 10 (1.02 * M - 1.83) / PI).
Proof.
  unfold attenuated.
  assert (H : 0 <= sqrt (Rpower 10 (1.02 * M - 1.83) / PI)) by apply sqrt_pos.
  destruct (Rlt_dec 300 d); [lra |].
  destruct (Rlt_dec 70 d); lra.
Qed.

Lemma attenuated_antitone (M d1 d2 : R) :
  d1 <= d2 -> attenuated M d2 <= attenuated M d1.
Proof.
  intros H. unfold attenuated.
  assert (H0 : 0 <= sqrt (Rpower 10 (1.02 * M - 1.83) / PI)) by apply sqrt_pos.
  destruct (Rlt_dec 300 d2), (Rlt_dec 300 d1),
    (Rlt_dec 70 d2), (Rlt_dec 70 d1); lra.
Qed.

Lemma seismic_attenuated_none (M : R) :
  Rabs M <= 304 ->
  seismic_attenuated_km (Fin M) None
  = Some (Fin (sqrt (Rpower 10 (1.02 * M - 1.83) / PI))).
Proof.
  intros H. unfold seismic_attenuated_km.
  rewrite seismic_base_fin by exact H. reflexivity.
Qed.

(** X2: at a fixed magnitude of absolute value at most 304 a deeper
    earthquake never gets a larger radius before the clamp, and no depth
    gives more than the radius of an event whose depth is unknown. *)
Theorem seismic_depth_never_enlarges :
  forall M d1 d2 : R,
    Rabs M <= 304 ->
    d1 <= d2 ->
    exists r0 r1 r2 : R,
      seismic_attenuated_km (Fin M) None = Some (Fin r0)
      /\ seismic_attenuated_km (Fin M) (Some (Fin d1)) = Some (Fin r1)
      /\ seismic_attenuated_km (Fin M) (Some (Fin d2)) = Some (Fin r2)
      /\ r2 <= r1 <= r0.
Proof.
  intros M d1 d2 HM H.
  exists (sqrt (Rpower 10 (1.02 * M - 1.83) / PI)),
    (attenuated M d1), (attenuated M d2).
  rewrite !seismic_attenuated_fin, seismic_attenuated_none by exact HM.
  split; [reflexivity |]. split; [reflexivity |]. split; [reflexivity |].
  split; [apply attenuated_antitone; exact H | apply attenuated_le_base].
Qed.

Lemma seismic_depth_witness :
  Rabs 6 <= 304 /\ 10 <= 400
  /\ exists r0 r1 r2 : R,
       seismic_attenuated_km (Fin 6) None = Some (Fin r0)
       /\ seismic_attenuated_km (Fin 6) (Some (Fin 10)) = Some (Fin r1)
       /\ seismic_attenuated_km (Fin 6) (Some (Fin 400)) = Some (Fin r2)
       /\ r2 <= r1 <= r0.
Proof.
  assert (HM : Rabs 6 <= 304) by (rewrite Rabs_pos_eq; lra).
  assert (H : 10 <= 400) by lra.
  split; [exact HM |]. split; [exact H |].
  exact (seismic_depth_never_enlarges 6 10 400 HM H).
Defined.

Lemma Rpower_10_5_5 : 300000 < Rpower 10 5.5.
Proof.
  set (x := Rpower 10 5.5).
  assert (Hx : 0 < x) by apply exp_pos.
  assert (Hp : x ^ 2 = IZR (10 ^ 11)).
  { rewrite <- (Rpower_pow 2 x Hx).
    unfold x. rewrite Rpower_mult.
    replace (5.5 * INR 2) with (INR 11)
      by (rewrite !INR_IZR_INZ; simpl; lra).
    rewrite Rpower_pow by lra.
    change 10 with (IZR 10). rewrite pow_IZR. reflexivity. }
  replace 300000 with (IZR 300000 / IZR 1) by lra.
  apply (root_lower 300000 1 (10 ^ 11) 2 x);
    [lia | exact Hx | exact Hp | vm_compute; reflexivity].
Qed.

Lemma small_magnitude_base (M : R) :
  M <= 2.77 -> sqrt (Rpower 10 (1.02 * M - 1.83) / PI) <= 2.
Proof.
  intros H. pose proof PI_bounds as [Hlo Hhi].
  assert (HA : Rpower 10 (1.02 * M - 1.83) <= 10).
  { rewrite <- Rpower_10_1 at 2. apply Rpower_10_le. lra. }
  rewrite <- (sqrt_pow2 2) by lra.
  apply sqrt_le_1_alt.
  apply Rmult_le_reg_r with PI; [lra |].
  unfold Rdiv; rewrite Rmult_assoc, Rinv_l by lra. nra.
Qed.

Lemma large_magnitude_base (M : R) :
  7.19 <= M -> 300 <= sqrt (Rpower 10 (1.02 * M - 1.83) / PI).
Proof.
  intros H. pose proof PI_bounds as [Hlo Hhi].
  pose proof Rpower_10_5_5 as H55.
  assert (HA : Rpower 10 5.5 <= Rpower 10 (1.02 * M - 1.83))
    by (apply Rpower_10_le; lra).
  rewrite <- (sqrt_pow2 300) by lra.
  apply sqrt_le_1_alt.
  apply Rmult_le_reg_r with PI; [lra |].
  unfold Rdiv; rewrite Rmult_assoc, Rinv_l by lra. nra.
Qed.

(** X3: the clamp decides at both ends of the scale.  Every event of
    magnitude between -304 and 2.77 is drawn with the minimum of 2 km at
    any depth, and every event of magnitude between 7.19 and 304 that is
    not deeper than 70 km, or whose depth is unknown, with the maximum
    of 300 km. *)
Theorem seismic_radius_saturates :
  (forall (M : R) (depth : option R),
     -304 <= M <= 2.77 ->
     seismic_radius_km (Fin M) (option_map Fin depth) = Some (Fin 2))
  /\ (forall M d : R,
        7.19 <= M <= 304 -> d <= 70 ->
        seismic_radius_km (Fin M) (Some (Fin d)) = Some (Fin 300))
  /\ (forall M : R,
        7.19 <= M <= 304 -> seismic_radius_km (Fin M) None = Some (Fin 300)).
Proof.
  split; [| split].
  - intros M [d |] [Hlo H]; pose proof (small_magnitude_base M H) as Hb;
      assert (HM : Rabs M <= 304) by (apply Rabs_le; lra).
    + simpl option_map. rewrite seismic_radius_fin by exact HM. do 2 f_equal.
      unfold seismic_spec_km. apply clamp_low; [lra |].
      pose proof (attenuated_le_base M d) as Ha. unfold attenuated in Ha. lra.
    + unfold seismic_radius_km. simpl option_map.
      rewrite seismic_attenuated_none by exact HM.
      rewrite xmin_fin, xmax_fin. do 2 f_equal.
      apply (clamp_low 2 300); lra.
  - intros M d [H Hhi] Hd. pose proof (large_magnitude_base M H) as Hb.
    rewrite seismic_radius_fin by (apply Rabs_le; lra).
    do 2 f_equal. unfold seismic_spec_km.
    destruct (Rlt_dec 300 d); [lra |].
    destruct (Rlt_dec 70 d); [lra |].
    apply clamp_high; lra.
  - intros M [H Hhi]. pose proof (large_magnitude_base M H) as Hb.
    unfold seismic_radius_km.
    rewrite seismic_attenuated_none by (apply Rabs_le; lra).
    rewrite xmin_fin, xmax_fin. do 2 f_equal.
    apply (clamp_high 2 300); lra.
Qed.

Lemma seismic_saturation_witness :
  7.19 <= 8 <= 304 /\ 33 <= 70
  /\ seismic_radius_km (Fin 8) (Some (Fin 33)) = Some (Fin 300).
Proof.
  assert (H1 : 7.19 <= 8 <= 304) by lra.
  assert (H2 : 33 <= 70) by lra.
  split; [exact H1 |]. split; [exact H2 |].
  exact (proj1 (proj2 seismic_radius_saturates) 8 33 H1 H2).
Defined.

End SeismicRange.

(** ** The cyclone radius *)

Lemma Qltb_true (a b : Q) : Qltb a b = true <-> (a < b)%Q.
Proof.
  unfold Qltb. rewrite Qlt_alt.
  destruct (a ?= b)%Q; split; intros H; congruence.
Qed.

Lemma fmax_zero (w : Q) :
  fmax (Fin 0%Q) (Fin w) = if Qltb 0 w then Fin w else Fin 0%Q.
Proof. reflexivity. Qed.

(** Whenever the chain of wind keys yields a finite number, the radius
    is the band of that number. *)
Lemma wind_bands (py_repr : json -> string) (storm : list (string * json)) (w : Q) :
  to_float (wind_field storm) = Some (Fin w) ->
  tc_radius_km py_repr storm = Fin (wind_band_km w).
Proof.
  intros H. unfold tc_radius_km, estimate_tc_radius_km.
  change (py_or (dict_get storm "wind") _) with (wind_field storm).
  rewrite H, fmax_zero. unfold wind_band_km.
  destruct (Qltb 0 w) eqn:Hpos.
  - change (flt (Fin w)) with (fun y => flt (Fin w) y). cbv beta.
    change (flt (Fin w) (Fin 34%Q)) with (Qltb w 34).
    change (flt (Fin w) (Fin 50%Q)) with (Qltb w 50).
    change (flt (Fin w) (Fin 64%Q)) with (Qltb w 64).
    change (flt (Fin w) (Fin 83%Q)) with (Qltb w 83).
    change (flt (Fin w) (Fin 96%Q)) with (Qltb w 96).
    change (flt (Fin w) (Fin 113%Q)) with (Qltb w 113).
    change (flt (Fin w) (Fin 137%Q)) with (Qltb w 137).
    repeat match goal with
           | |- context [Qltb w ?k] => destruct (Qltb w k)
           end; reflexivity.
  - assert (Hw : Qltb w 34 = true).
    { apply Qltb_true.
      assert (Hn : ~ (0 < w)%Q) by (rewrite <- Qltb_true; congruence).
      apply Qnot_lt_le in Hn.
      apply Qle_lt_trans with (y := 0%Q); [exact Hn | reflexivity]. }
    rewrite Hw. reflexivity.
Qed.

(** C2 at the failing input: a storm whose wind is the number 0 gets the
    default 200 km, while the same wind written as text gets the 100 km
    of its band, as does every non-zero wind below 34 kt. *)
Theorem zero_wind_radius (py_repr : json -> string) :
  tc_radius_km py_repr
    [("lat", JStr "25N"); ("lon", JStr "70W"); ("wind", JInt 0)]
  = Fin 200%Q
  /\ tc_radius_km py_repr
       [("lat", JStr "25N"); ("lon", JStr "70W"); ("wind", JStr "0")]
     = Fin 100%Q
  /\ tc_radius_km py_repr
       [("lat", JStr "25N"); ("lon", JStr "70W"); ("wind", JInt 1)]
     = Fin 100%Q
  /\ tc_radius_km py_repr
       [("lat", JStr "25N"); ("lon", JStr "70W"); ("wind", JInt 90)]
     = Fin 300%Q
  /\ wind_band_km 0 = 100%Q.
Proof. repeat split; reflexivity. Qed.

(** ** The cyclone estimator on every record *)

Lemma Qltb_false (a b : Q) : Qltb a b = false <-> (b <= a)%Q.
Proof.
  split; intros H.
  - apply Qnot_lt_le. rewrite <- Qltb_true. congruence.
  - destruct (Qltb a b) eqn:E; [| reflexivity].
    apply Qltb_true in E. apply Qle_not_lt in H. contradiction.
Qed.

Lemma wind_band_monotone (w1 w2 : Q) :
  (w1 <= w2)%Q -> (wind_band_km w1 <= wind_band_km w2)%Q.
Proof.
  intros H. unfold wind_band_km.
  repeat match goal with
         | |- context [Qltb ?w ?k] =>
             let E := fresh "E" in
             destruct (Qltb w k) eqn:E;
             [apply Qltb_true in E | apply Qltb_false in E]
         end;
    try (apply Qle_bool_imp_le; reflexivity);
    exfalso; Lqa.lra.
Qed.

(** X8: between two storm records for which the first truthy value
    under the keys wind, maxWind, intensity, sustainedWind converts to a
    finite float, the one with the stronger wind never gets the smaller
    radius; category and status play no part.  A numeric wind of 0 is
    falsy, so the chain skips it and such a record is not covered: it
    gets 200 km where a wind of 1 gets 100 km. *)
Theorem cyclone_radius_monotone_in_wind :
  forall py_repr : json -> string,
    (forall (s1 s2 : list (string * json)) (w1 w2 : Q),
       to_float (wind_field s1) = Some (Fin w1) ->
       to_float (wind_field s2) = Some (Fin w2) ->
       (w1 <= w2)%Q ->
       exists r1 r2 : Q,
         tc_radius_km py_repr s1 = Fin r1 /\ tc_radius_km py_repr s2 = Fin r2
         /\ (r1 <= r2)%Q)
    /\ to_float (wind_field [("wind", JInt 0)]) = None
    /\ tc_radius_km py_repr [("wind", JInt 0)] = Fin 200%Q
    /\ tc_radius_km py_repr [("wind", JInt 1)] = Fin 100%Q.
Proof.
  intros py_repr. split; [| repeat split; reflexivity].
  intros s1 s2 w1 w2 H1 H2 H.
  exists (wind_band_km w1), (wind_band_km w2).
  rewrite (wind_bands py_repr s1 w1 H1), (wind_bands py_repr s2 w2 H2).
  split; [reflexivity |]. split; [reflexivity |].
  apply wind_band_monotone; exact H.
Qed.

Lemma cyclone_monotone_witness :
  to_float (wind_field [("wind", JInt 40); ("sshs", JInt 5)]) = Some (Fin 40%Q)
  /\ to_float (wind_field [("intensity", JStr "100"); ("type", JStr "TD")])
     = Some (Fin 100%Q)
  /\ (40 <= 100)%Q
  /\ exists r1 r2 : Q,
       tc_radius_km blank_repr [("wind", JInt 40); ("sshs", JInt 5)] = Fin r1
       /\ tc_radius_km blank_repr [("intensity", JStr "100"); ("type", JStr "TD")]
          = Fin r2
       /\ (r1 <= r2)%Q.
Proof.
  assert (H : (40 <= 100)%Q) by (apply Qle_bool_imp_le; reflexivity).
  split; [reflexivity |]. split; [reflexivity |]. split; [exact H |].
  exact (proj1 (cyclone_radius_monotone_in_wind blank_repr)
           [("wind", JInt 40); ("sshs", JInt 5)]
           [("intensity", JStr "100"); ("type", JStr "TD")]
           40%Q 100%Q eq_refl eq_refl H).
Defined.

Lemma sshs_radius_values (c : Z) :
  In (sshs_radius c) [250; 300; 350; 420; 500; 200]%Q.
Proof.
  unfold sshs_radius.
  repeat match goal with
         | |- context [match ?x with _ => _ end] => destruct x
         end; simpl; auto 10.
Qed.

Lemma estimate_table_value (py_repr : json -> string)
  (storm : list (string * json)) :
  exists q : Q,
    estimate_tc_radius_km py_repr storm = Fin q
    /\ In q [100; 120; 150; 200; 250; 300; 320; 350; 420; 500]%Q.
Proof.
  unfold estimate_tc_radius_km.
  destruct (to_float _) as [wind |].
  - repeat match goal with
           | |- context [if ?b then _ else _] => destruct b
           end; eexists; (split; [reflexivity | simpl; auto 15]).
  - assert (Hs : exists q : Q,
               (if contains "TD" (upper (py_str py_repr
                      (py_or (dict_get storm "type")
                      (py_or (dict_get storm "stormType")
                      (py_or (dict_get storm "class")
                      (py_or (dict_get storm "status") (JStr EmptyString)))))))
                then Fin 120%Q
                else if contains "TS" (upper (py_str py_repr
                      (py_or (dict_get storm "type")
                      (py_or (dict_get storm "stormType")
                      (py_or (dict_get storm "class")
                      (py_or (dict_get storm "status") (JStr EmptyString)))))))
                then Fin 200%Q
                else if contains "HU" (upper (py_str py_repr
                      (py_or (dict_get storm "type")
                      (py_or (dict_get storm "stormType")
                      (py_or (dict_get storm "class")
                      (py_or (dict_get storm "status") (JStr EmptyString)))))))
                     || contains "HURRICANE" (upper (py_str py_repr
                      (py_or (dict_get storm "type")
                      (py_or (dict_get storm "stormType")
                      (py_or (dict_get storm "class")
                      (py_or (dict_get storm "status") (JStr EmptyString)))))))
                then Fin 320%Q else Fin STORM_RADIUS_KM) = Fin q
               /\ In q [100; 120; 150; 200; 250; 300; 320; 350; 420; 500]%Q).
    { repeat match goal with
             | |- context [if ?b then _ else _] => destruct b
             end; eexists; (split; [reflexivity | simpl; auto 15]). }
    destruct (dict_get storm "sshs"); try exact Hs;
      match goal with
      | |- context [py_int ?v] => destruct (py_int v) as [c |]
      end; try exact Hs;
      exists (sshs_radius c); (split; [reflexivity |]);
      pose proof (sshs_radius_values c) as Hc; simpl in Hc |- *;
      intuition.
Qed.

Lemma clamp_keeps_table_value (q : Q) :
  In q [100; 120; 150; 200; 250; 300; 320; 350; 420; 500]%Q ->
  fmax (Fin 60%Q) (fmin (Fin 600%Q) (Fin q)) = Fin q.
Proof.
  intros Hin. simpl in Hin.
  repeat (destruct Hin as [<- | Hin]; [reflexivity |]).
  contradiction.
Qed.

(** X9: for every storm record the estimate is one of the ten table
    values, all between 100 and 500 km, so the clamp into [[60, 600]]
    that follows never changes it. *)
Theorem cyclone_radius_is_a_table_value :
  forall (py_repr : json -> string) (storm : list (string * json)),
    tc_radius_km py_repr storm = estimate_tc_radius_km py_repr storm
    /\ exists q : Q,
         estimate_tc_radius_km py_repr storm = Fin q
         /\ In q [100; 120; 150; 200; 250; 300; 320; 350; 420; 500]%Q.
Proof.
  intros py_repr storm.
  pose proof (estimate_table_value py_repr storm) as H.
  split; [| exact H].
  destruct H as (q & Hq & Hin). unfold tc_radius_km. rewrite Hq.
  apply clamp_keeps_table_value; exact Hin.
Qed.

(** X10: a wind field that is not a finite number still selects a band:
    NaN and minus infinity count as calm (100 km), plus infinity as the
    strongest band (500 km). *)
Theorem cyclone_radius_of_special_wind :
  forall (py_repr : json -> string) (storm : list (string * json)) (w : pyfloat),
    to_float (wind_field storm) = Some w ->
    (w = NaN -> tc_radius_km py_repr storm = Fin 100%Q)
    /\ (w = NInf -> tc_radius_km py_repr storm = Fin 100%Q)
    /\ (w = PInf -> tc_radius_km py_repr storm = Fin 500%Q).
Proof.
  intros py_repr storm w H. unfold tc_radius_km, estimate_tc_radius_km.
  change (py_or (dict_get storm "wind") _) with (wind_field storm).
  rewrite H.
  repeat split; intros ->; reflexivity.
Qed.

Lemma cyclone_special_wind_witness :
  to_float (wind_field [("maxWind", JStr "nan")]) = Some NaN
  /\ tc_radius_km blank_repr [("maxWind", JStr "nan")] = Fin 100%Q.
Proof.
  split; [reflexivity |].
  exact (proj1 (cyclone_radius_of_special_wind blank_repr
                  [("maxWind", JStr "nan")] NaN eq_refl) eq_refl).
Defined.

(** X11: when no wind is found and the record carries a category that
    converts to an integer, the category decides alone: 0 to 5 select
    250, 250, 300, 350, 420, 500 km and every other integer gives
    200 km; the status text is not read. *)
Theorem cyclone_radius_of_category :
  forall (py_repr : json -> string) (storm : list (string * json)) (c : Z),
    to_float (wind_field storm) = None ->
    dict_get storm "sshs" <> JNull ->
    py_int (dict_get storm "sshs") = Some c ->
    (0 <= c <= 5 ->
     tc_radius_km py_repr storm
     = Fin (nth (Z.to_nat c) [250; 250; 300; 350; 420; 500]%Q 200%Q))
    /\ (c < 0 \/ 5 < c -> tc_radius_km py_repr storm = Fin 200%Q).
Proof.
  intros py_repr storm c Hw Hnull Hc.
  assert (E : estimate_tc_radius_km py_repr storm = Fin (sshs_radius c)).
  { unfold estimate_tc_radius_km.
    change (py_or (dict_get storm "wind") _) with (wind_field storm).
    rewrite Hw. cbv zeta.
    destruct (dict_get storm "sshs"); try contradiction;
      rewrite Hc; reflexivity. }
  unfold tc_radius_km. rewrite E. split.
  - intros [Hlo Hhi].
    assert (Hcases : c = 0 \/ c = 1 \/ c = 2 \/ c = 3 \/ c = 4 \/ c = 5) by lia.
    destruct Hcases as [-> | [-> | [-> | [-> | [-> | ->]]]]]; reflexivity.
  - intros Hout. destruct c as [| p | p]; try lia.
    + unfold sshs_radius.
      repeat match goal with
             | |- context [match ?x with _ => _ end] => destruct x
             end; try reflexivity; lia.
    + reflexivity.
Qed.

Lemma cyclone_category_witness :
  to_float (wind_field [("sshs", JStr "7"); ("type", JStr "HU")]) = None
  /\ dict_get [("sshs", JStr "7"); ("type", JStr "HU")] "sshs" <> JNull
  /\ py_int (dict_get [("sshs", JStr "7"); ("type", JStr "HU")] "sshs") = Some 7
  /\ tc_radius_km blank_repr [("sshs", JStr "7"); ("type", JStr "HU")]
     = Fin 200%Q.
Proof.
  assert (Hn : dict_get [("sshs", JStr "7"); ("type", JStr "HU")] "sshs" <> JNull)
    by discriminate.
  split; [reflexivity |]. split; [exact Hn |]. split; [reflexivity |].
  apply (proj2 (cyclone_radius_of_category blank_repr
                  [("sshs", JStr "7"); ("type", JStr "HU")] 7
                  eq_refl Hn eq_refl)).
  right. reflexivity.
Defined.


(** ** The coordinate parser *)

Section ParserFacts.

Lemma list_of_upper (s : string) :
  list_ascii_of_string (upper s) = map upper_char (list_ascii_of_string s).
Proof. induction s as [| c s IH]; simpl; [reflexivity | rewrite IH; reflexivity]. Qed.

Lemma string_of_map_upper (l : list ascii) :
  string_of_list_ascii (map upper_char l) = upper (string_of_list_ascii l).
Proof. induction l as [| c l IH]; simpl; [reflexivity | rewrite IH; reflexivity]. Qed.

Lemma isspace_upper_char (c : ascii) : str_isspace (upper_char c) = str_isspace c.
Proof. destruct c as [[] [] [] [] [] [] [] []]; reflexivity. Qed.

Lemma upper_char_idempotent (c : ascii) : upper_char (upper_char c) = upper_char c.
Proof. destruct c as [[] [] [] [] [] [] [] []]; reflexivity. Qed.

Lemma upper_idempotent (s : string) : upper (upper s) = upper s.
Proof.
  induction s as [| c s IH]; simpl; [reflexivity |].
  rewrite upper_char_idempotent, IH. reflexivity.
Qed.

Lemma drop_while_map (p : ascii -> bool) (f : ascii -> ascii) (l : list ascii) :
  (forall c, p (f c) = p c) ->
  drop_while p (map f l) = map f (drop_while p l).
Proof.
  intros H; induction l as [| c l IH]; simpl; [reflexivity |].
  rewrite H. destruct (p c); [exact IH | reflexivity].
Qed.

Lemma strip_with_map (p : ascii -> bool) (f : ascii -> ascii) (l : list ascii) :
  (forall c, p (f c) = p c) ->
  strip_with p (map f l) = map f (strip_with p l).
Proof.
  intros H. unfold strip_with.
  rewrite (drop_while_map p f l H), <- map_rev,
    (drop_while_map p f _ H), map_rev.
  reflexivity.
Qed.

Lemma strip_upper (s : string) : strip (upper s) = upper (strip s).
Proof.
  unfold strip. rewrite list_of_upper.
  rewrite (strip_with_map str_isspace upper_char _ isspace_upper_char).
  apply string_of_map_upper.
Qed.

Lemma drop_while_blank_prefix (p : ascii -> bool) (ws l : list ascii) :
  forallb p ws = true -> drop_while p (ws ++ l)%list = drop_while p l.
Proof.
  induction ws as [| c ws IH]; simpl; [reflexivity |].
  intros H. apply andb_prop in H as [Hc Hws]. rewrite Hc. exact (IH Hws).
Qed.

Lemma forallb_rev (p : ascii -> bool) (l : list ascii) :
  forallb p (rev l) = forallb p l.
Proof.
  induction l as [| c l IH]; simpl; [reflexivity |].
  rewrite forallb_app, IH. simpl. rewrite andb_true_r. apply andb_comm.
Qed.

Lemma drop_while_last (p : ascii -> bool) (l : list ascii) (c : ascii) :
  p c = false -> drop_while p (l ++ [c]) = (drop_while p l ++ [c])%list.
Proof.
  intros Hc; induction l as [| a l IH]; simpl.
  - rewrite Hc. reflexivity.
  - destruct (p a); [exact IH | reflexivity].
Qed.

Lemma strip_with_blanks (p : ascii -> bool) (ws1 ws2 l : list ascii) :
  forallb p ws1 = true -> forallb p ws2 = true ->
  strip_with p (ws1 ++ l ++ ws2)%list = strip_with p l.
Proof.
  intros H1 H2. unfold strip_with.
  rewrite (drop_while_blank_prefix p ws1 _ H1).
  assert (E : forall a b : list ascii,
             forallb p b = true ->
             drop_while p (rev (drop_while p (a ++ b)%list))
             = drop_while p (rev (drop_while p a))).
  { intros a b Hb. induction a as [| c a IH]; simpl.
    - pose proof (drop_while_blank_prefix p b [] Hb) as Hall.
      rewrite app_nil_r in Hall. simpl in Hall. rewrite Hall. reflexivity.
    - destruct (p c); [exact IH |].
      simpl. rewrite rev_app_distr, <- app_assoc.
      rewrite (drop_while_blank_prefix p (rev b)); [reflexivity |].
      rewrite forallb_rev. exact Hb. }
  rewrite (E l ws2 H2). reflexivity.
Qed.

Lemma strip_with_last (p : ascii -> bool) (l : list ascii) (c : ascii) :
  p c = false -> strip_with p (l ++ [c]) = (drop_while p l ++ [c])%list.
Proof.
  intros Hc. unfold strip_with.
  rewrite (drop_while_last p l c Hc), rev_app_distr. simpl.
  rewrite Hc. simpl. rewrite rev_involutive. reflexivity.
Qed.






Lemma list_of_append (s t : string) :
  list_ascii_of_string (s ++ t)
  = (list_ascii_of_string s ++ list_ascii_of_string t)%list.
Proof. induction s as [| c s IH]; simpl; [reflexivity | rewrite IH; reflexivity]. Qed.

Lemma string_of_app (a b : list ascii) :
  string_of_list_ascii (a ++ b)%list
  = string_of_list_ascii a ++ string_of_list_ascii b.
Proof. induction a as [| c a IH]; simpl; [reflexivity | rewrite IH; reflexivity]. Qed.

Lemma upper_append (s t : string) : upper (s ++ t) = upper s ++ upper t.
Proof. induction s as [| c s IH]; simpl; [reflexivity | rewrite IH; reflexivity]. Qed.

Lemma endswith_last (s : string) (c d : ascii) :
  endswith (s ++ String c EmptyString) d = Ascii.eqb c d.
Proof.
  induction s as [| a s IH]; simpl; [reflexivity |].
  destruct (s ++ String c EmptyString) eqn:E.
  - destruct s; discriminate E.
  - exact IH.
Qed.

Lemma drop_last_last (s : string) (c : ascii) :
  drop_last (s ++ String c EmptyString) = s.
Proof.
  induction s as [| a s IH]; simpl; [reflexivity |].
  destruct (s ++ String c EmptyString) eqn:E.
  - destruct s; discriminate E.
  - rewrite IH. reflexivity.
Qed.



(** A string that ends with a letter, once trimmed and upper-cased. *)
Lemma prepared_with_suffix (t : string) (c : ascii) :
  str_isspace c = false ->
  upper (strip (t ++ String c EmptyString))
  = upper (string_of_list_ascii
             (drop_while str_isspace (list_ascii_of_string t)))
    ++ String (upper_char c) EmptyString.
Proof.
  intros Hc. unfold strip. rewrite list_of_append. simpl list_ascii_of_string.
  rewrite (strip_with_last str_isspace _ c Hc), string_of_app, upper_append.
  reflexivity.
Qed.







End ParserFacts.




(** X12: blanks around a coordinate string change nothing: with any
    run of white space before and after it the string parses to the
    same result, for latitudes and for longitudes. *)
Theorem coordinate_parser_ignores_blanks :
  forall s ws1 ws2 : string,
    forallb str_isspace (list_ascii_of_string ws1) = true ->
    forallb str_isspace (list_ascii_of_string ws2) = true ->
    parse_lat (JStr (ws1 ++ s ++ ws2)) = parse_lat (JStr s)
    /\ parse_lon (JStr (ws1 ++ s ++ ws2)) = parse_lon (JStr s).
Proof.
  intros s ws1 ws2 H1 H2.
  assert (E : strip (ws1 ++ s ++ ws2) = strip s).
  { unfold strip. rewrite !list_of_append.
    rewrite (strip_with_blanks str_isspace _ _ _ H1 H2). reflexivity. }
  unfold parse_lat, parse_lon. rewrite E. split; reflexivity.
Qed.

Lemma coordinate_blanks_witness :
  forallb str_isspace (list_ascii_of_string "  ") = true
  /\ forallb str_isspace (list_ascii_of_string " ") = true
  /\ parse_lat (JStr ("  " ++ "40.5N" ++ " ")) = parse_lat (JStr "40.5N").
Proof.
  split; [reflexivity |]. split; [reflexivity |].
  exact (proj1 (coordinate_parser_ignores_blanks "40.5N" "  " " "
                  eq_refl eq_refl)).
Defined.

(** X13: the parser does not tell lower case from upper case: a string
    and its upper-cased form parse to the same result, so [n], [s], [e]
    and [w] work as hemisphere letters too. *)
Theorem coordinate_parser_ignores_case :
  forall s : string,
    parse_lat (JStr (upper s)) = parse_lat (JStr s)
    /\ parse_lon (JStr (upper s)) = parse_lon (JStr s).
Proof.
  intros s. unfold parse_lat, parse_lon.
  rewrite strip_upper, upper_idempotent. split; reflexivity.
Qed.

(** X14: the two hemisphere letters mirror each other: a latitude text
    ending in S parses to the negation of the same text ending in N,
    and a longitude ending in W to the negation of the one ending in E;
    one fails exactly when the other does. *)
Theorem coordinate_parser_hemispheres_mirror :
  forall t : string,
    parse_lat (JStr (t ++ "S"))
    = option_map (option_map fneg) (parse_lat (JStr (t ++ "N")))
    /\ parse_lon (JStr (t ++ "W"))
       = option_map (option_map fneg) (parse_lon (JStr (t ++ "E"))).
Proof.
  intros t. unfold parse_lat, parse_lon.
  rewrite !prepared_with_suffix by reflexivity.
  rewrite !endswith_last, !drop_last_last.
  split; destruct (to_float (JStr _)); reflexivity.
Qed.

(** ** The retry policy *)

Section RetryFacts.

Lemma forcelist_iff (status_code : Z) :
  existsb (Z.eqb status_code) [429; 500; 502; 503; 504] = true
  <-> In status_code [429; 500; 502; 503; 504].
Proof.
  simpl. rewrite !Bool.orb_true_iff, !Z.eqb_eq.
  split.
  - intros [H | [H | [H | [H | [H | H]]]]]; try discriminate; subst; auto 6.
  - intros [H | [H | [H | [H | [H | []]]]]]; subst; auto 6.
Qed.

Lemma get_is_retryable : is_method_retryable retry_strategy "GET" = true.
Proof. reflexivity. Qed.

(** A status of the force list is retried, whatever is left of the
    total and whatever the headers. *)
Lemma is_retry_forced (left : nat) (status_code : Z) (has_retry_after : bool) :
  In status_code [429; 500; 502; 503; 504] ->
  is_retry retry_strategy left "GET" status_code has_retry_after = true.
Proof.
  intros H. apply forcelist_iff in H.
  unfold is_retry. rewrite get_is_retryable.
  change (status_forcelist retry_strategy) with [429; 500; 502; 503; 504].
  rewrite H. reflexivity.
Qed.

Lemma not_retried_not_forced (left : nat) (status_code : Z)
  (has_retry_after : bool) :
  is_retry retry_strategy left "GET" status_code has_retry_after = false ->
  ~ In status_code [429; 500; 502; 503; 504].
Proof.
  intros H Hin. rewrite (is_retry_forced left _ _ Hin) in H. discriminate H.
Qed.

(** Without a [Retry-After] header the force list alone decides. *)
Lemma is_retry_plain (left : nat) (status_code : Z) :
  is_retry retry_strategy left "GET" status_code false
  = existsb (Z.eqb status_code) [429; 500; 502; 503; 504].
Proof.
  unfold is_retry. rewrite get_is_retryable.
  change (status_forcelist retry_strategy) with [429; 500; 502; 503; 504].
  rewrite Bool.andb_false_r, Bool.andb_false_l, Bool.orb_false_r.
  reflexivity.
Qed.

Lemma urlopen_eq (r : Retry) (method : string) (server : nat -> answer)
  (left errors sent : nat) :
  urlopen r method server left errors sent
  = let again (response : option reply) (exhausted : get_result) :=
      match left with
      | O => {| attempts := S sent; sleeps := []; result := exhausted |}
      | S left' =>
          let rest := urlopen r method server left' (S errors) (S sent) in
          {| attempts := attempts rest;
             sleeps := pause r (S errors) response :: sleeps rest;
             result := result rest |}
      end in
    match server sent with
    | Broken => again None ConnectionFailed
    | Replied resp =>
        if is_retry r left method (status resp)
             (match retry_after resp with Some _ => true | None => false end)
        then again (Some resp) MaxRetries
        else {| attempts := S sent; sleeps := []; result := Answer resp |}
    end.
Proof. destruct left; reflexivity. Qed.

(** [urlopen] sends at least once and at most once more than is left. *)
Lemma urlopen_attempts (server : nat -> answer) (left errors sent : nat) :
  (sent < attempts (urlopen retry_strategy "GET" server left errors sent)
   <= sent + left + 1)%nat.
Proof.
  revert errors sent. induction left as [| left IH]; intros errors sent;
    rewrite urlopen_eq; cbv zeta.
  - destruct (server sent) as [| resp]; [simpl; lia |].
    destruct (is_retry _ _ _ _ _); simpl; lia.
  - pose proof (IH (S errors) (S sent)) as H.
    destruct (server sent) as [| resp]; [simpl; lia |].
    destruct (is_retry _ _ _ _ _); simpl; lia.
Qed.

(** An answer that [urlopen] returns was met by one of its sendings and
    has a status outside the force list. *)
Lemma urlopen_answer (server : nat -> answer) (left errors sent : nat)
  (resp : reply) :
  result (urlopen retry_strategy "GET" server left errors sent) = Answer resp ->
  exists n,
    (sent <= n < attempts (urlopen retry_strategy "GET" server left errors sent))%nat
    /\ server n = Replied resp
    /\ ~ In (status resp) [429; 500; 502; 503; 504].
Proof.
  revert errors sent. induction left as [| left IH]; intros errors sent;
    rewrite urlopen_eq; cbv zeta.
  - destruct (server sent) as [| resp0] eqn:E; [discriminate |].
    destruct (is_retry _ _ _ _ _) eqn:Er; [discriminate |].
    simpl. intros [= <-]. exists sent.
    split; [lia |]. split; [exact E |].
    exact (not_retried_not_forced _ _ _ Er).
  - destruct (server sent) as [| resp0] eqn:E.
    + simpl. intros H. destruct (IH _ _ H) as (n & Hn & Hs & Hf).
      exists n. split; [lia |]. split; assumption.
    + destruct (is_retry _ _ _ _ _) eqn:Er.
      * simpl. intros H. destruct (IH _ _ H) as (n & Hn & Hs & Hf).
        exists n. split; [lia |]. split; assumption.
      * simpl. intros [= <-]. exists sent.
        split; [lia |]. split; [exact E |].
        exact (not_retried_not_forced _ _ _ Er).
Qed.

Lemma session_send_eq (server : nat -> answer) (allowed sent : nat) :
  session_send server allowed sent
  = let t := urlopen retry_strategy "GET" server (total retry_strategy) 0 sent in
    match result t with
    | Answer resp =>
        if is_redirect resp then
          match allowed with
          | O => {| attempts := attempts t; sleeps := sleeps t;
                    result := TooManyRedirects |}
          | S allowed' =>
              let rest := session_send server allowed' (attempts t) in
              {| attempts := attempts rest;
                 sleeps := (sleeps t ++ sleeps rest)%list;
                 result := result rest |}
          end
        else t
    | _ => t
    end.
Proof. destruct allowed; reflexivity. Qed.

(** An answer that [SESSION.get] returns was met by one of the sendings,
    is no redirect and has a status outside the force list. *)
Lemma session_send_answer (server : nat -> answer) (allowed sent : nat)
  (resp : reply) :
  result (session_send server allowed sent) = Answer resp ->
  exists n,
    (sent <= n < attempts (session_send server allowed sent))%nat
    /\ server n = Replied resp
    /\ ~ In (status resp) [429; 500; 502; 503; 504]
    /\ is_redirect resp = false.
Proof.
  revert sent. induction allowed as [| allowed IH]; intros sent;
    rewrite session_send_eq; cbv zeta;
    pose proof (urlopen_attempts server (total retry_strategy) 0 sent) as Ha;
    pose proof (urlopen_answer server (total retry_strategy) 0 sent) as Hu;
    destruct (result (urlopen retry_strategy "GET" server
                        (total retry_strategy) 0 sent)) as [r | | |] eqn:Er;
    try (intros H; rewrite Er in H; discriminate H).
  - destruct (is_redirect r) eqn:Ed; [cbn [result]; discriminate |].
    intros H. rewrite Er in H. injection H as <-.
    destruct (Hu r eq_refl) as (n & Hn & Hs & Hf).
    exists n. repeat split; try assumption; lia.
  - destruct (is_redirect r) eqn:Ed.
    + cbn [attempts result]. intros H.
      destruct (IH _ H) as (n & Hn & Hs & Hf & Hd).
      exists n. repeat split; try assumption; lia.
    + intros H. rewrite Er in H. injection H as <-.
      destruct (Hu r eq_refl) as (n & Hn & Hs & Hf).
      exists n. repeat split; try assumption; lia.
Qed.

(** With plain answers [SESSION.get] is one call of [urlopen]. *)
Lemma plain_session (server : nat -> answer) :
  plain_answers server ->
  SESSION_get server
  = urlopen retry_strategy "GET" server (total retry_strategy) 0 0.
Proof.
  intros Hp. unfold SESSION_get. rewrite session_send_eq. cbv zeta.
  destruct (result (urlopen retry_strategy "GET" server
                      (total retry_strategy) 0 0)) as [r | | |] eqn:Er;
    try reflexivity.
  destruct (urlopen_answer server _ _ _ r Er) as (n & _ & Hs & _).
  destruct (Hp n) as (resp & Hn & _ & Hd).
  rewrite Hs in Hn. injection Hn as ->. rewrite Hd. reflexivity.
Qed.

Lemma raise_for_status_error (status_code : Z) :
  400 <= status_code < 600 ->
  raise_for_status status_code = HTTPError status_code.
Proof.
  intros [Hlo Hhi]. unfold raise_for_status.
  apply Z.leb_le in Hlo. apply Z.ltb_lt in Hhi.
  rewrite Hlo, Hhi. reflexivity.
Qed.

Lemma raise_for_status_cases (status_code : Z) :
  (400 <= status_code < 600
   /\ raise_for_status status_code = HTTPError status_code)
  \/ (~ (400 <= status_code < 600)
      /\ raise_for_status status_code = Returned status_code).
Proof.
  unfold raise_for_status.
  destruct (400 <=? status_code) eqn:Elo;
    destruct (status_code <? 600) eqn:Ehi; cbn [andb];
    try apply Z.leb_le in Elo; try apply Z.leb_gt in Elo;
    try apply Z.ltb_lt in Ehi; try apply Z.ltb_ge in Ehi;
    [left | right | right | right]; (split; [lia | reflexivity]).
Qed.

End RetryFacts.

(** C4, as the libraries have it, for answers that carry no
    [Retry-After] header and are no redirects, on a connection that does
    not break: an answer whose status is in the force list is retried,
    at most twice, the second sending following at once and the third
    after a pause of 1 s; any other answer ends the request at once, as
    an [HTTPError] when its status is in [400..599] and as a normal
    return otherwise; three 503 answers in a row make exactly three
    attempts and a failure, a 404 fails on the first attempt. *)
Theorem retry_policy :
  forall server : nat -> answer,
    plain_answers server ->
    let t := SESSION_get server in
    (attempts t <= 3)%nat
    /\ sleeps t = firstn (attempts t - 1) [0; 1]%Q
    /\ (forall n, (n < attempts t - 1)%nat ->
                  In (status_of (server n)) [429; 500; 502; 503; 504])
    /\ (~ In (status_of (server 0%nat)) [429; 500; 502; 503; 504] ->
        attempts t = 1%nat
        /\ fetch_text server = raise_for_status (status_of (server 0%nat))
        /\ (400 <= status_of (server 0%nat) < 600 ->
            fetch_text server = HTTPError (status_of (server 0%nat))
            /\ fetch_json server = HTTPError (status_of (server 0%nat))))
    /\ (In (status_of (server 0%nat)) [429; 500; 502; 503; 504] ->
        In (status_of (server 1%nat)) [429; 500; 502; 503; 504] ->
        In (status_of (server 2%nat)) [429; 500; 502; 503; 504] ->
        attempts t = 3%nat
        /\ fetch_text server = RetryError /\ fetch_json server = RetryError)
    /\ attempts (SESSION_get (fun _ => Replied (plain 503))) = 3%nat
    /\ sleeps (SESSION_get (fun _ => Replied (plain 503))) = [0; 1]%Q
    /\ fetch_json (fun _ => Replied (plain 503)) = RetryError
    /\ fetch_text (fun _ => Replied (plain 503)) = RetryError
    /\ attempts (SESSION_get (fun _ => Replied (plain 404))) = 1%nat
    /\ fetch_json (fun _ => Replied (plain 404)) = HTTPError 404
    /\ fetch_text (fun _ => Replied (plain 404)) = HTTPError 404.
Proof.
  intros server Hp t. subst t.
  unfold fetch_text, fetch_json. rewrite (plain_session server Hp).
  destruct (Hp 0%nat) as (r0 & E0 & A0 & _).
  destruct (Hp 1%nat) as (r1 & E1 & A1 & _).
  destruct (Hp 2%nat) as (r2 & E2 & A2 & _).
  change (total retry_strategy) with 2%nat.
  rewrite urlopen_eq. cbv zeta. rewrite E0, A0, is_retry_plain.
  destruct (existsb (Z.eqb (status r0)) [429; 500; 502; 503; 504]) eqn:F0.
  - rewrite urlopen_eq. cbv zeta. rewrite E1, A1, is_retry_plain.
    destruct (existsb (Z.eqb (status r1)) [429; 500; 502; 503; 504]) eqn:F1.
    + rewrite urlopen_eq. cbv zeta. rewrite E2, A2, is_retry_plain.
      destruct (existsb (Z.eqb (status r2)) [429; 500; 502; 503; 504]) eqn:F2;
        cbn [attempts sleeps result status_of];
        unfold pause; rewrite ?A0, ?A1;
        apply forcelist_iff in F0, F1.
      * apply forcelist_iff in F2.
        split; [lia |]. split; [reflexivity |].
        split.
        { intros n Hn. destruct n as [| [| n]]; [| | simpl in Hn; lia].
          - rewrite E0. exact F0.
          - rewrite E1. exact F1. }
        split; [intros H; contradiction |].
        split; [intros _ _ _; repeat split; reflexivity |].
        repeat split; reflexivity.
      * assert (N2 : ~ In (status r2) [429; 500; 502; 503; 504])
          by (rewrite <- forcelist_iff; congruence).
        split; [lia |]. split; [reflexivity |].
        split.
        { intros n Hn. destruct n as [| [| n]]; [| | simpl in Hn; lia].
          - rewrite E0. exact F0.
          - rewrite E1. exact F1. }
        split; [intros H; contradiction |].
        split; [intros _ _ H; contradiction |].
        repeat split; reflexivity.
    + cbn [attempts sleeps result status_of].
      unfold pause. rewrite ?A0.
      apply forcelist_iff in F0.
      assert (N1 : ~ In (status r1) [429; 500; 502; 503; 504])
        by (rewrite <- forcelist_iff; congruence).
      split; [lia |]. split; [reflexivity |].
      split.
      { intros n Hn. destruct n as [| n]; [| simpl in Hn; lia].
        rewrite E0. exact F0. }
      split; [intros H; contradiction |].
      split; [intros _ H; contradiction |].
      repeat split; reflexivity.
  - cbn [attempts sleeps result status_of].
    assert (N0 : ~ In (status r0) [429; 500; 502; 503; 504])
      by (rewrite <- forcelist_iff; congruence).
    split; [lia |]. split; [reflexivity |].
    split; [intros n Hn; simpl in Hn; lia |].
    split.
    { intros _. split; [reflexivity |]. split; [reflexivity |].
      intros H. rewrite (raise_for_status_error _ H). split; reflexivity. }
    split; [intros H; contradiction |].
    repeat split; reflexivity.
Qed.

Lemma retry_policy_witness :
  plain_answers (fun _ => Replied (plain 503))
  /\ attempts (SESSION_get (fun _ => Replied (plain 503))) = 3%nat
  /\ sleeps (SESSION_get (fun _ => Replied (plain 503)))
     = firstn (attempts (SESSION_get (fun _ => Replied (plain 503))) - 1)
         [0; 1]%Q
  /\ fetch_text (fun _ => Replied (plain 503)) = RetryError.
Proof.
  assert (H : plain_answers (fun _ => Replied (plain 503))).
  { intros n. exists (plain 503). repeat split; reflexivity. }
  assert (F : In 503 [429; 500; 502; 503; 504]) by (simpl; auto 6).
  split; [exact H |].
  destruct (retry_policy (fun _ => Replied (plain 503)) H)
    as (_ & Hs & _ & _ & Hall & _).
  destruct (Hall F F F) as (Ha & Ht & _).
  split; [exact Ha |]. split; [exact Hs | exact Ht].
Defined.

(** C4 as stated fails in four ways.  A 304 is outside 200..299 and
    outside the force list, yet the request ends without any error.
    The pauses before the second and the third sending are 0 s and 1 s:
    no sending waits 0.5 s.  A 413 is outside the force list, yet with
    a [Retry-After] header it is retried twice, after the pauses the
    header asks for, before it fails.  A 302 with a [Location] header
    is followed, not failed. *)
Lemma retry_policy_counterexample :
  (non_2xx 304 = true
   /\ ~ In 304 [429; 500; 502; 503; 504]
   /\ attempts (SESSION_get (fun _ => Replied (plain 304))) = 1%nat
   /\ fetch_text (fun _ => Replied (plain 304)) = Returned 304
   /\ fetch_json (fun _ => Replied (plain 304)) = Returned 304)
  /\ sleeps (SESSION_get (fun _ => Replied (plain 503))) = [0; 1]%Q
  /\ (let busy := {| status := 413; retry_after := Some 7%Q;
                     location := false; json_body := true |} in
      non_2xx 413 = true
      /\ ~ In 413 [429; 500; 502; 503; 504]
      /\ attempts (SESSION_get (fun _ => Replied busy)) = 3%nat
      /\ sleeps (SESSION_get (fun _ => Replied busy)) = [7; 7]%Q
      /\ fetch_text (fun _ => Replied busy) = HTTPError 413)
  /\ (let moved := {| status := 302; retry_after := None;
                      location := true; json_body := true |} in
      let server (n : nat) :=
        match n with O => Replied moved | _ => Replied (plain 200) end in
      non_2xx 302 = true
      /\ attempts (SESSION_get server) = 2%nat
      /\ fetch_text server = Returned 200).
Proof.
  assert (N : forall c, existsb (Z.eqb c) [429; 500; 502; 503; 504] = false ->
                        ~ In c [429; 500; 502; 503; 504])
    by (intros c H; rewrite <- forcelist_iff; congruence).
  split; [repeat split; try reflexivity; apply N; reflexivity |].
  split; [reflexivity |].
  split; [repeat split; try reflexivity; apply N; reflexivity |].
  repeat split; reflexivity.
Qed.

(** ** How a fetch ends *)

(** X24: how [fetch_text] and [fetch_json] end, whatever the server
    does.  A body is returned only for a status outside [400..599] and
    outside the force list, carried by an answer that one of the
    sendings met and that is no redirect; for [fetch_json] that answer
    has a JSON body.  An [HTTPError] carries a status of [400..599] that
    is not in the force list.  [fetch_text] never ends in a decoding
    error, and the two helpers end alike unless [fetch_json] ends in
    one. *)
Theorem fetch_outcomes :
  forall server : nat -> answer,
    (forall status_code,
       fetch_text server = Returned status_code ->
       ~ (400 <= status_code < 600)
       /\ ~ In status_code [429; 500; 502; 503; 504]
       /\ exists n resp,
            (n < attempts (SESSION_get server))%nat
            /\ server n = Replied resp /\ status resp = status_code
            /\ is_redirect resp = false)
    /\ (forall status_code,
          fetch_json server = Returned status_code ->
          fetch_text server = Returned status_code
          /\ exists n resp,
               (n < attempts (SESSION_get server))%nat
               /\ server n = Replied resp /\ status resp = status_code
               /\ json_body resp = true)
    /\ (forall status_code,
          fetch_text server = HTTPError status_code ->
          400 <= status_code < 600
          /\ ~ In status_code [429; 500; 502; 503; 504]
          /\ fetch_json server = HTTPError status_code)
    /\ fetch_text server <> DecodeError
    /\ (fetch_json server <> DecodeError ->
        fetch_json server = fetch_text server).
Proof.
  intros server. unfold fetch_text, fetch_json, SESSION_get.
  pose proof (session_send_answer server DEFAULT_REDIRECT_LIMIT 0) as Hs.
  destruct (result (session_send server DEFAULT_REDIRECT_LIMIT 0))
    as [r | | |] eqn:Er.
  - destruct (Hs r eq_refl) as (n & Hn & Hm & Hf & Hd).
    destruct (raise_for_status_cases (status r)) as [[Hc ->] | [Hc ->]].
    + split; [intros c [=] |]. split; [intros c [=] |].
      split; [intros c [= <-]; repeat split; try assumption; lia |].
      split; [discriminate |]. reflexivity.
    + split.
      { intros c [= <-]. split; [exact Hc |]. split; [exact Hf |].
        exists n, r. repeat split; try assumption; lia. }
      split.
      { destruct (json_body r) eqn:Ej; intros c [= <-].
        split; [reflexivity |].
        exists n, r. repeat split; try assumption; lia. }
      split; [intros c [=] |].
      split; [discriminate |].
      destruct (json_body r); [reflexivity | intros H; contradiction].
  - repeat split; try discriminate.
  - repeat split; try discriminate.
  - repeat split; try discriminate.
Qed.

Lemma fetch_outcomes_witness :
  fetch_text (fun _ => Replied (plain 404)) = HTTPError 404
  /\ 400 <= 404 < 600
  /\ ~ In 404 [429; 500; 502; 503; 504]
  /\ fetch_json (fun _ => Replied (plain 404)) = HTTPError 404.
Proof.
  assert (H : fetch_text (fun _ => Replied (plain 404)) = HTTPError 404)
    by reflexivity.
  split; [exact H |].
  destruct (fetch_outcomes (fun _ => Replied (plain 404)))
    as (_ & _ & He & _).
  exact (He 404 H).
Defined.

(** ** Blocks: what is drawn does not depend on the counts *)

Section BlockFacts.

Lemma dict_find_set_other {V : Type} (d : list (string * V)) (k k' : string) (v : V) :
  dict_find d k' <> None -> dict_find (dict_set d k v) k' <> None.
Proof.
  induction d as [| [k0 v0] d IH]; simpl.
  - intros H; contradiction.
  - destruct (String.eqb k0 k) eqn:Ek; simpl.
    + destruct (String.eqb k0 k') eqn:Ek'.
      * apply String.eqb_eq in Ek, Ek'; subst.
        rewrite String.eqb_refl. discriminate.
      * apply String.eqb_eq in Ek; subst. rewrite Ek'. trivial.
    + destruct (String.eqb k0 k'); [discriminate | exact IH].
Qed.

Lemma oblivious_ret {A : Type} (a : A) : oblivious (ret a).
Proof. intros s1 s2 H; split; [reflexivity | exact H]. Qed.

Lemma oblivious_raise {A : Type} : oblivious (@raise A).
Proof. intros s1 s2 H; split; [reflexivity | exact H]. Qed.

Lemma oblivious_lift {A : Type} (o : option A) : oblivious (lift o).
Proof. destruct o; [apply oblivious_ret | apply oblivious_raise]. Qed.

Lemma oblivious_bind {A B : Type} (m : M A) (f : A -> M B) :
  oblivious m -> (forall a, oblivious (f a)) -> oblivious (bind m f).
Proof.
  intros Hm Hf s1 s2 H. unfold bind.
  destruct (Hm s1 s2 H) as [Hr Hs].
  destruct (m s1) as [[a1 |] t1], (m s2) as [[a2 |] t2];
    simpl in Hr, Hs; try discriminate.
  - injection Hr as ->. apply Hf; exact Hs.
  - split; [reflexivity | exact Hs].
Qed.

Lemma oblivious_for_each {X : Type} (xs : list X) (body : X -> M unit) :
  (forall x, oblivious (body x)) -> oblivious (for_each xs body).
Proof.
  intros Hb; induction xs as [| x xs IH]; simpl.
  - apply oblivious_ret.
  - apply oblivious_bind; [apply Hb | intros _; exact IH].
Qed.

Lemma oblivious_draw (it : item) : oblivious (draw it).
Proof.
  intros s1 s2 (Hd & Ht & H1 & H2); split; [reflexivity |].
  repeat split; simpl; congruence.
Qed.

Lemma oblivious_count_one : oblivious count_one.
Proof.
  intros s1 s2 (Hd & Ht & H1 & H2); split; [reflexivity |].
  repeat split; simpl; congruence.
Qed.

Lemma oblivious_store_tally (k : string) : oblivious (store_tally k).
Proof.
  intros s1 s2 (Hd & Ht & H1 & H2); split; [reflexivity |].
  repeat split; simpl; try assumption;
    apply dict_find_set_other; assumption.
Qed.

Lemma oblivious_set_count (k : string) (v : nat) : oblivious (set_count k v).
Proof.
  intros s1 s2 (Hd & Ht & H1 & H2); split; [reflexivity |].
  repeat split; simpl; try assumption;
    apply dict_find_set_other; assumption.
Qed.

Lemma oblivious_bump_storms : oblivious (bump "storms").
Proof.
  intros s1 s2 (Hd & Ht & H1 & H2). unfold bump.
  unfold has_storms in H1, H2.
  destruct (dict_find (counts s1) "storms") eqn:E1; [| contradiction].
  destruct (dict_find (counts s2) "storms") eqn:E2; [| contradiction].
  split; [reflexivity |].
  repeat split; simpl; try assumption;
    apply dict_find_set_other; congruence.
Qed.

End BlockFacts.

Ltac oblivious_step :=
  first
    [ apply oblivious_ret | apply oblivious_raise | apply oblivious_lift
    | apply oblivious_draw | apply oblivious_count_one
    | apply oblivious_store_tally | apply oblivious_set_count
    | apply oblivious_bump_storms
    | apply oblivious_bind; [| intros ?]
    | apply oblivious_for_each; intros ?
    | match goal with
      | |- oblivious (match ?x with _ => _ end) => destruct x
      end ].

Section BlocksOblivious.
Variable location_ok : option pyfloat -> option pyfloat -> bool.
Variable geojson_ok : json -> bool.
Variable py_repr : json -> string.

Lemma oblivious_add_faded_circle lat lon radius color steps opacity :
  oblivious (add_faded_circle location_ok lat lon radius color steps opacity).
Proof. unfold add_faded_circle; repeat oblivious_step. Qed.

Lemma oblivious_circle_marker lat lon tooltip :
  oblivious (circle_marker location_ok lat lon tooltip).
Proof. unfold circle_marker; repeat oblivious_step. Qed.

Lemma oblivious_radar fetched : oblivious (radar_block fetched).
Proof. unfold radar_block; repeat oblivious_step. Qed.

Lemma oblivious_volcano fetched : oblivious (volcano_block location_ok fetched).
Proof.
  unfold volcano_block;
    repeat first [ apply oblivious_add_faded_circle
                 | apply oblivious_circle_marker | oblivious_step ].
Qed.

Lemma oblivious_nws resp : oblivious (nws_block geojson_ok py_repr resp).
Proof. unfold nws_block; repeat oblivious_step. Qed.

Lemma oblivious_spc feeds : oblivious (spc_block location_ok feeds).
Proof.
  unfold spc_block;
    repeat first [ apply oblivious_add_faded_circle | oblivious_step ].
Qed.

Lemma oblivious_quakes results : oblivious (quakes_block location_ok results).
Proof.
  unfold quakes_block;
    repeat first [ apply oblivious_add_faded_circle | oblivious_step ].
Qed.

Lemma oblivious_fires fetched : oblivious (fires_block location_ok fetched).
Proof.
  unfold fires_block;
    repeat first [ apply oblivious_add_faded_circle | oblivious_step ].
Qed.

Lemma oblivious_cyclone_record s :
  oblivious (cyclone_record location_ok py_repr s).
Proof.
  unfold cyclone_record;
    repeat first [ apply oblivious_add_faded_circle | oblivious_step ].
Qed.

Lemma oblivious_cyclones fetched :
  oblivious (cyclones_block location_ok py_repr fetched).
Proof.
  unfold cyclones_block;
    repeat first [ apply oblivious_cyclone_record | oblivious_step ].
Qed.

End BlocksOblivious.

(** ** [build_map]: the layers and what each of them holds *)

Lemma has_storms_initial : has_storms initial_counts.
Proof. unfold has_storms; simpl; discriminate. Qed.

Lemma try_block_oblivious (body : M unit) (c1 c2 : list (string * nat)) :
  oblivious body -> has_storms c1 -> has_storms c2 ->
  fst (try_block body c1) = fst (try_block body c2)
  /\ has_storms (snd (try_block body c1)).
Proof.
  intros Hb H1 H2. unfold try_block; simpl.
  destruct (Hb {| drawn := []; tally := 0; counts := c1 |}
               {| drawn := []; tally := 0; counts := c2 |})
    as (_ & Hd & _ & Hs & _).
  { repeat split; assumption. }
  split; assumption.
Qed.

Section BuildMapFacts.
Variable location_ok : option pyfloat -> option pyfloat -> bool.
Variable geojson_ok : json -> bool.
Variable py_repr : json -> string.

Lemma build_map_layers (f : feeds) :
  layers (build_map location_ok geojson_ok py_repr f) =
  [ (layer_radar, alone (radar_block (rainviewer f)));
    (layer_volcano, alone (volcano_block location_ok (eonet f)));
    (layer_nws, alone (nws_block geojson_ok py_repr (nws_alerts f)));
    (layer_spc_lsr,
     alone (spc_block location_ok
              [(Tornado, spc_tornado f); (Wind, spc_wind f); (Hail, spc_hail f)]));
    (layer_quakes_area, alone (quakes_block location_ok (usgs_results f)));
    (layer_fires_area, alone (fires_block location_ok (firms f)));
    (layer_tc_areas, alone (cyclones_block location_ok py_repr (nhc f))) ].
Proof.
  unfold build_map, alone.
  pose proof has_storms_initial as H0.
  destruct (try_block_oblivious _ initial_counts initial_counts
              (oblivious_radar (rainviewer f)) H0 H0) as [_ H1].
  destruct (try_block (radar_block (rainviewer f)) initial_counts)
    as [radar c1]; simpl in H1.
  destruct (try_block_oblivious _ c1 initial_counts
              (oblivious_volcano location_ok (eonet f)) H1 H0) as [E2 H2].
  destruct (try_block (volcano_block location_ok (eonet f)) c1)
    as [volcano c2]; simpl in E2, H2.
  destruct (try_block_oblivious _ c2 initial_counts
              (oblivious_nws geojson_ok py_repr (nws_alerts f)) H2 H0)
    as [E3 H3].
  destruct (try_block (nws_block geojson_ok py_repr (nws_alerts f)) c2)
    as [nws c3]; simpl in E3, H3.
  destruct (try_block_oblivious _ c3 initial_counts
              (oblivious_spc location_ok
                 [(Tornado, spc_tornado f); (Wind, spc_wind f);
                  (Hail, spc_hail f)]) H3 H0) as [E4 H4].
  destruct (try_block (spc_block location_ok _) c3)
    as [spc c4]; simpl in E4, H4.
  destruct (try_block_oblivious _ c4 initial_counts
              (oblivious_quakes location_ok (usgs_results f)) H4 H0)
    as [E5 H5].
  destruct (try_block (quakes_block location_ok (usgs_results f)) c4)
    as [quakes c5]; simpl in E5, H5.
  destruct (try_block_oblivious _ c5 initial_counts
              (oblivious_fires location_ok (firms f)) H5 H0) as [E6 H6].
  destruct (try_block (fires_block location_ok (firms f)) c5)
    as [fires c6]; simpl in E6, H6.
  destruct (try_block_oblivious _ c6 initial_counts
              (oblivious_cyclones location_ok py_repr (nhc f)) H6 H0)
    as [E7 H7].
  destruct (try_block (cyclones_block location_ok py_repr (nhc f)) c6)
    as [tc c7]; simpl in E7, H7.
  simpl. subst. reflexivity.
Qed.

End BuildMapFacts.

Section Isolation.
Variable location_ok : option pyfloat -> option pyfloat -> bool.
Variable geojson_ok : json -> bool.
Variable py_repr : json -> string.

Lemma fetch_spc_all_failed (urls : list (option csv_rows)) :
  flat_map fetch_spc_csv (map (fun _ => None) urls) = [].
Proof. induction urls as [| u urls IH]; simpl; [reflexivity | exact IH]. Qed.

Lemma spc_all_failed (a b c : list (option csv_rows)) :
  alone (spc_block location_ok
           [(Tornado, map (fun _ => None) a); (Wind, map (fun _ => None) b);
            (Hail, map (fun _ => None) c)]) = [].
Proof.
  unfold alone, spc_block; simpl for_each.
  rewrite !fetch_spc_all_failed. reflexivity.
Qed.

Lemma usgs_all_failed (f : feeds) :
  usgs_results (fail_source layer_quakes_area f) = [].
Proof. unfold usgs_results; simpl. destruct (usgs_second_first f); reflexivity. Qed.

(** What the map of a run with one source failing holds in each layer. *)
Lemma items_after_failure (f : feeds) (failed other : layer) :
  items_of (build_map location_ok geojson_ok py_repr (fail_source failed f)) other
  = if layer_eqb failed other then []
    else items_of (build_map location_ok geojson_ok py_repr f) other.
Proof.
  unfold items_of. rewrite !build_map_layers.
  destruct failed, other;
    cbn [children layer_eqb fail_source rainviewer eonet nws_alerts
         spc_tornado spc_wind spc_hail usgs_2_5 usgs_4_5 firms nhc];
    try reflexivity;
    try apply spc_all_failed;
    try (rewrite usgs_all_failed; reflexivity).
Qed.

End Isolation.

(** ** Failure of a source *)

(** C7, as the code has it: when every request of one source fails,
    that source draws nothing and every other layer holds what it holds
    without the failure; when every source fails the map is built with
    seven empty layers; the only statistics are the event counts, all
    zero then and equal to those of a run whose feeds are all empty. *)
Theorem source_failure_is_isolated :
  forall (location_ok : option pyfloat -> option pyfloat -> bool)
         (geojson_ok : json -> bool) (py_repr : json -> string),
    (forall (f : feeds) (failed other : layer),
       items_of (build_map location_ok geojson_ok py_repr (fail_source failed f))
         other
       = if layer_eqb failed other then []
         else items_of (build_map location_ok geojson_ok py_repr f) other)
    /\ build_map location_ok geojson_ok py_repr all_failed
       = {| layers :=
              [ (layer_radar, []); (layer_volcano, []); (layer_nws, []);
                (layer_spc_lsr, []); (layer_quakes_area, []);
                (layer_fires_area, []); (layer_tc_areas, []) ];
            final_counts :=
              [ ("radar", 0%nat); ("nws", 0%nat); ("earthquakes", 0%nat);
                ("fires", 0%nat); ("storms", 0%nat); ("spc_lsr", 0%nat) ] |}
    /\ events (build_map location_ok geojson_ok py_repr all_failed) = []
    /\ final_counts (build_map location_ok geojson_ok py_repr all_quiet)
       = final_counts (build_map location_ok geojson_ok py_repr all_failed).
Proof.
  intros location_ok geojson_ok py_repr.
  split; [apply items_after_failure |].
  repeat split; reflexivity.
Qed.

(** C7 as stated fails: after a run in which every request failed the
    statistics hold six event counts and nothing else, and they are the
    very statistics of a run in which nothing failed and no feed had a
    record; no attempt count or failure kind is kept. *)
Lemma failure_statistics_counterexample :
  final_counts (build_map validate_location any_geojson blank_repr all_failed)
  = [ ("radar", 0%nat); ("nws", 0%nat); ("earthquakes", 0%nat);
      ("fires", 0%nat); ("storms", 0%nat); ("spc_lsr", 0%nat) ]
  /\ final_counts (build_map validate_location any_geojson blank_repr all_quiet)
     = final_counts
         (build_map validate_location any_geojson blank_repr all_failed)
  /\ nhc all_quiet <> nhc all_failed.
Proof. repeat split; try reflexivity. discriminate. Qed.

(** ** Order of the events *)

(** C8, as the code has it: the layers are listed in the fixed order
    radar, volcano, alerts, severe reports, earthquakes, wildfires,
    cyclones, and the events are the children of these layers in that
    order; every layer but the earthquake layer holds the same items
    whichever earthquake request completes first; the earthquake layer
    holds the events of the feeds in the order of completion. *)
Theorem layer_order_is_fixed :
  forall (location_ok : option pyfloat -> option pyfloat -> bool)
         (geojson_ok : json -> bool) (py_repr : json -> string) (f : feeds),
    let m := build_map location_ok geojson_ok py_repr f in
    let m' := build_map location_ok geojson_ok py_repr (other_completion_order f) in
    map fst (layers m)
    = [ layer_radar; layer_volcano; layer_nws; layer_spc_lsr;
        layer_quakes_area; layer_fires_area; layer_tc_areas ]
    /\ events m
       = (items_of m layer_radar ++ items_of m layer_volcano
          ++ items_of m layer_nws ++ items_of m layer_spc_lsr
          ++ items_of m layer_quakes_area ++ items_of m layer_fires_area
          ++ items_of m layer_tc_areas)%list
    /\ (forall l : layer,
          items_of m' l
          = if layer_eqb l layer_quakes_area
            then alone (quakes_block location_ok
                          (usgs_results (other_completion_order f)))
            else items_of m l)
    /\ items_of m layer_quakes_area
       = alone (quakes_block location_ok (usgs_results f))
    /\ (forall a b : json,
          usgs_2_5 f = Some a -> usgs_4_5 f = Some b ->
          usgs_results f = if usgs_second_first f then [b; a] else [a; b]).
Proof.
  intros location_ok geojson_ok py_repr f m m'. subst m m'.
  unfold items_of, events. rewrite !build_map_layers.
  split; [reflexivity |].
  split; [simpl; rewrite app_nil_r; reflexivity |].
  split; [intros []; reflexivity |].
  split; [reflexivity |].
  intros a b Ha Hb. unfold usgs_results. rewrite Ha, Hb.
  destruct (usgs_second_first f); reflexivity.
Qed.

Lemma layer_order_witness :
  usgs_2_5 (quiet_with (Some (usgs_one 1)) (Some (usgs_one 2)) None None)
  = Some (usgs_one 1)
  /\ usgs_4_5 (quiet_with (Some (usgs_one 1)) (Some (usgs_one 2)) None None)
     = Some (usgs_one 2)
  /\ usgs_results (quiet_with (Some (usgs_one 1)) (Some (usgs_one 2)) None None)
     = [usgs_one 1; usgs_one 2].
Proof.
  split; [reflexivity |]. split; [reflexivity |].
  exact (proj2 (proj2 (proj2 (proj2
           (layer_order_is_fixed validate_location any_geojson
              blank_repr
              (quiet_with (Some (usgs_one 1)) (Some (usgs_one 2)) None None)))))
           (usgs_one 1) (usgs_one 2) eq_refl eq_refl).
Defined.

(** Two feeds with one event of magnitude 5 each, in either order. *)
Ltac two_quakes :=
  unfold alone, try_block, quakes_block, usgs_one, usgs_event, add_faded_circle;
  cbv -[seismic_radius_km to_real xmul IZR seismic_spec_km Q2R Rmult];
  change (seismic_radius_km (to_real (Fin (5 # 1))) (Some (to_real (Fin (10 # 1)))))
    with (seismic_radius_km (to_real (Fin (inject_Z 5)))
            (Some (to_real (Fin (inject_Z 10)))));
  rewrite seismic_radius_Z by lia;
  rewrite (metres_fin _ (seismic_spec_bounds _ _));
  reflexivity.

Lemma quakes_first_then_second :
  alone (quakes_block validate_location [usgs_one 1; usgs_one 2])
  = [ FadedCircle (Some (Fin 1%Q)) (Some (Fin 0%Q))
        (Fin (seismic_spec_km 5 10 * 1000)%R) "#7B1FA2" 5 0.30;
      FadedCircle (Some (Fin 2%Q)) (Some (Fin 0%Q))
        (Fin (seismic_spec_km 5 10 * 1000)%R) "#7B1FA2" 5 0.30 ].
Proof. two_quakes. Qed.

Lemma quakes_second_then_first :
  alone (quakes_block validate_location [usgs_one 2; usgs_one 1])
  = [ FadedCircle (Some (Fin 2%Q)) (Some (Fin 0%Q))
        (Fin (seismic_spec_km 5 10 * 1000)%R) "#7B1FA2" 5 0.30;
      FadedCircle (Some (Fin 1%Q)) (Some (Fin 0%Q))
        (Fin (seismic_spec_km 5 10 * 1000)%R) "#7B1FA2" 5 0.30 ].
Proof. two_quakes. Qed.

(** C8 as stated fails: with the same two earthquake feeds, the event
    at latitude 1 comes first when the first request completes first and
    second when the second request does. *)
Lemma event_order_counterexample :
  map latitude_of
    (events (build_map validate_location any_geojson blank_repr
               (quiet_with (Some (usgs_one 1)) (Some (usgs_one 2)) None None)))
  = [Some (Fin 1%Q); Some (Fin 2%Q)]
  /\ map latitude_of
       (events (build_map validate_location any_geojson blank_repr
                  (other_completion_order
                     (quiet_with (Some (usgs_one 1)) (Some (usgs_one 2))
                        None None))))
     = [Some (Fin 2%Q); Some (Fin 1%Q)].
Proof.
  unfold events. rewrite !build_map_layers.
  change (usgs_results (quiet_with (Some (usgs_one 1)) (Some (usgs_one 2))
                          None None))
    with [usgs_one 1; usgs_one 2].
  change (usgs_results
            (other_completion_order
               (quiet_with (Some (usgs_one 1)) (Some (usgs_one 2)) None None)))
    with [usgs_one 2; usgs_one 1].
  rewrite quakes_first_then_second, quakes_second_then_first.
  split; reflexivity.
Qed.

(** ** Positions of the items *)

Section Preservation.
Variable P : sst -> Prop.

Lemma preserves_ret {A : Type} (a : A) : preserves P (ret a).
Proof. intros s H; exact H. Qed.

Lemma preserves_raise {A : Type} : preserves P (@raise A).
Proof. intros s H; exact H. Qed.

Lemma preserves_lift {A : Type} (o : option A) : preserves P (lift o).
Proof. destruct o; [apply preserves_ret | apply preserves_raise]. Qed.

Lemma preserves_bind {A B : Type} (m : M A) (f : A -> M B) :
  preserves P m -> (forall a, preserves P (f a)) -> preserves P (bind m f).
Proof.
  intros Hm Hf s H. unfold bind.
  specialize (Hm s H). destruct (m s) as [[a |] s']; simpl in Hm.
  - apply Hf; exact Hm.
  - exact Hm.
Qed.

Lemma preserves_for_each {X : Type} (xs : list X) (body : X -> M unit) :
  (forall x, preserves P (body x)) -> preserves P (for_each xs body).
Proof.
  intros Hb; induction xs as [| x xs IH]; simpl.
  - apply preserves_ret.
  - apply preserves_bind; [apply Hb | intros _; exact IH].
Qed.

End Preservation.

Section DrawnItems.
Variable q : item -> bool.

Lemma all_drawn_draw (it : item) :
  q it = true -> preserves (all_drawn q) (draw it).
Proof.
  intros Hq s H. unfold all_drawn in *; simpl.
  apply Forall_app; split; [exact H | constructor; [exact Hq | constructor]].
Qed.

Lemma all_drawn_count_one : preserves (all_drawn q) count_one.
Proof. intros s H; exact H. Qed.

Lemma all_drawn_store_tally (k : string) : preserves (all_drawn q) (store_tally k).
Proof. intros s H; exact H. Qed.

Lemma all_drawn_bump (k : string) : preserves (all_drawn q) (bump k).
Proof.
  intros s H. unfold bump. destruct (dict_find (counts s) k); exact H.
Qed.

Lemma all_drawn_try_block (body : M unit) (c : list (string * nat)) :
  preserves (all_drawn q) body -> forallb q (fst (try_block body c)) = true.
Proof.
  intros Hb. unfold try_block; simpl.
  apply forallb_forall. apply Forall_forall.
  apply (Hb {| drawn := []; tally := 0; counts := c |}). constructor.
Qed.

End DrawnItems.

Ltac preserves_step :=
  first
    [ apply preserves_ret | apply preserves_raise | apply preserves_lift
    | apply all_drawn_count_one | apply all_drawn_store_tally
    | apply all_drawn_bump
    | apply all_drawn_draw; reflexivity
    | apply preserves_bind; [| intros ?]
    | apply preserves_for_each; intros ?
    | match goal with
      | |- preserves _ (match ?x with _ => _ end) => destruct x
      end ].

Section Positions.
Variable location_ok : option pyfloat -> option pyfloat -> bool.
Variable py_repr : json -> string.

Lemma cyclones_have_coordinates fetched :
  preserves (all_drawn has_coordinates)
    (cyclones_block location_ok py_repr fetched).
Proof.
  unfold cyclones_block, cyclone_record, add_faded_circle;
    repeat preserves_step.
Qed.

Lemma spc_have_coordinates feeds :
  preserves (all_drawn has_coordinates) (spc_block location_ok feeds).
Proof.
  unfold spc_block, add_faded_circle; repeat preserves_step.
Qed.

(** The loop over a list of storm dicts none of which ends the block:
    it returns, and draws the circle of each storm in turn. *)
Lemma cyclone_loop (storms : list (list (string * json))) :
  forallb (storm_accepted location_ok) storms = true ->
  forall s,
    has_storms (counts s) ->
    exists c,
      has_storms c
      /\ for_each (map JObj storms) (cyclone_record location_ok py_repr) s
         = (Some tt,
            {| drawn := drawn s ++ flat_map (storm_circle py_repr) storms;
               tally := tally s; counts := c |}).
Proof.
  induction storms as [| storm storms IH]; intros Hok s Hs.
  - exists (counts s). split; [exact Hs |].
    simpl. rewrite app_nil_r. destruct s; reflexivity.
  - simpl in Hok. apply andb_prop in Hok as [Hfirst Hrest].
    cbn [map for_each]. unfold bind at 1.
    unfold cyclone_record at 1. unfold storm_accepted in Hfirst.
    cbn [flat_map]. unfold storm_circle at 1.
    destruct (parse_lat (dict_get storm "lat")) as [[lat |] |];
      destruct (parse_lon (dict_get storm "lon")) as [[lon |] |];
      try discriminate Hfirst; cbn [lift bind ret].
    + unfold add_faded_circle. rewrite Hfirst.
      unfold bind, draw, bump. cbn [drawn tally counts].
      unfold has_storms in Hs.
      destruct (dict_find (counts s) "storms") as [v |] eqn:Ev;
        [| contradiction].
      match goal with
      | |- context [for_each _ _ ?s'] =>
          destruct (IH Hrest s') as (c & Hc & Hrun)
      end.
      { cbn [counts]. apply dict_find_set_other. congruence. }
      exists c. split; [exact Hc |].
      rewrite Hrun. cbn [drawn tally]. rewrite <- app_assoc. reflexivity.
    + destruct (IH Hrest s Hs) as (c & Hc & Hrun).
      exists c. split; [exact Hc |]. rewrite Hrun. reflexivity.
    + destruct (IH Hrest s Hs) as (c & Hc & Hrun).
      exists c. split; [exact Hc |]. rewrite Hrun. reflexivity.
    + destruct (IH Hrest s Hs) as (c & Hc & Hrun).
      exists c. split; [exact Hc |]. rewrite Hrun. reflexivity.
Qed.

Lemma cyclones_of_storm_list (storms : list (list (string * json))) :
  forallb (storm_accepted location_ok) storms = true ->
  alone (cyclones_block location_ok py_repr (nhc_storms storms))
  = flat_map (storm_circle py_repr) storms.
Proof.
  intros Hok. unfold alone, try_block, cyclones_block, nhc_storms.
  destruct (cyclone_loop storms Hok
              {| drawn := []; tally := 0; counts := initial_counts |}
              has_storms_initial) as (c & _ & Hrun).
  destruct storms as [| storm storms].
  - reflexivity.
  - cbn [bind lift ret py_get py_get_default dict_get_default String.eqb
         Ascii.eqb Bool.eqb py_or truthy map py_iter fst snd] in *.
    rewrite Hrun. reflexivity.
Qed.

(** A storm whose latitude or longitude makes the parser raise ends the
    block: neither it nor any storm after it is drawn. *)
Lemma cyclones_parser_raises (storm : list (string * json))
  (rest : list (list (string * json))) :
  parse_lat (dict_get storm "lat") = None
  \/ parse_lon (dict_get storm "lon") = None ->
  alone (cyclones_block location_ok py_repr (nhc_storms (storm :: rest))) = [].
Proof.
  intros H. unfold alone, try_block, cyclones_block, nhc_storms.
  cbn [bind lift ret py_get py_get_default dict_get_default String.eqb
       Ascii.eqb Bool.eqb py_or truthy map py_iter fst snd for_each].
  unfold bind at 1. unfold cyclone_record at 1.
  destruct (parse_lat (dict_get storm "lat")) as [lat |].
  - destruct H as [H | H]; [discriminate H |]. rewrite H. reflexivity.
  - reflexivity.
Qed.

(** The loop over the rows of one severe-report feed none of which ends
    the block. *)
Lemma report_loop (kind : spc_kind) (rows : list (list string)) :
  forallb (report_accepted location_ok) rows = true ->
  forall s,
    exists n,
      for_each rows
        (fun row =>
           if (List.length row <? 8)%nat then ret tt
           else
             match to_float (from_end row 2), to_float (from_end row 1) with
             | Some lat, Some lon =>
                 bind (add_faded_circle location_ok (Some lat) (Some lon)
                         (Fin (spc_radius_m kind)) (spc_color kind) 3 0.25)
                   (fun _ => count_one)
             | _, _ => ret tt
             end) s
      = (Some tt,
         {| drawn := drawn s ++ flat_map (report_circle kind) rows;
            tally := n; counts := counts s |}).
Proof.
  induction rows as [| row rows IH]; intros Hok s.
  - exists (tally s). simpl. rewrite app_nil_r. destruct s; reflexivity.
  - simpl in Hok. apply andb_prop in Hok as [Hfirst Hrest].
    specialize (IH Hrest).
    match goal with
    | |- context [for_each (row :: rows) ?b] => set (body := b) in *
    end.
    cbn [for_each flat_map]. unfold bind at 1.
    unfold body at 1. cbv beta.
    unfold report_accepted in Hfirst. unfold report_circle at 1.
    destruct (List.length row <? 8)%nat.
    + destruct (IH s) as (n & Hrun). exists n.
      unfold ret at 1. rewrite Hrun. reflexivity.
    + destruct (to_float (from_end row 2)) as [lat |];
        [destruct (to_float (from_end row 1)) as [lon |] |].
      * unfold add_faded_circle. rewrite Hfirst.
        unfold bind, draw, count_one. cbn [drawn tally counts].
        match goal with
        | |- context [for_each _ _ ?s'] =>
            destruct (IH s') as (n & Hrun)
        end.
        exists n. rewrite Hrun. cbn [drawn counts].
        rewrite <- app_assoc. reflexivity.
      * destruct (IH s) as (n & Hrun). exists n.
        unfold ret at 1. rewrite Hrun. reflexivity.
      * destruct (IH s) as (n & Hrun). exists n.
        unfold ret at 1. rewrite Hrun. reflexivity.
Qed.

Lemma reports_of_feed (kind : spc_kind) (header : list string)
  (rows : list (list string)) :
  forallb (report_accepted location_ok) rows = true ->
  alone (spc_block location_ok (spc_feed kind header rows))
  = flat_map (report_circle kind) rows.
Proof.
  intros Hok. unfold alone, try_block, spc_block, spc_feed.
  cbn [for_each flat_map fetch_spc_csv tl app].
  rewrite app_nil_r.
  destruct (report_loop kind rows Hok
              {| drawn := []; tally := 0; counts := initial_counts |})
    as (n & Hrun).
  match goal with
  | |- context [for_each rows ?b] => set (body := b) in *
  end.
  unfold bind. rewrite Hrun. reflexivity.
Qed.

End Positions.

(** C3, as the code has it: no block compares a coordinate with a
    range.  Every circle of the cyclone and severe-report blocks has
    both coordinates.  A storm whose latitude and longitude parse is
    drawn at exactly the parsed position when folium accepts it, and a
    storm one of whose coordinates does not parse is skipped; in a storm
    list none of whose records makes a parser raise or has a position
    that folium refuses, every storm is treated so in turn, whatever the
    values of the coordinates; a storm that makes a parser raise ends
    the block.  A severe-report row of at least 8 columns whose last two
    columns convert is drawn at the converted position when folium
    accepts it, and a shorter row or one whose columns do not convert is
    skipped; in a feed none of whose rows has a position that folium
    refuses, every row is treated so in turn. *)
Theorem positions_parsed_not_range_checked :
  forall (location_ok : option pyfloat -> option pyfloat -> bool)
         (py_repr : json -> string),
    (forall fetched c,
       forallb has_coordinates
         (fst (try_block (cyclones_block location_ok py_repr fetched) c)) = true)
    /\ (forall feeds c,
          forallb has_coordinates
            (fst (try_block (spc_block location_ok feeds) c)) = true)
    /\ (forall storm lat lon,
          parse_lat (dict_get storm "lat") = Some (Some lat) ->
          parse_lon (dict_get storm "lon") = Some (Some lon) ->
          location_ok (Some lat) (Some lon) = true ->
          alone (cyclones_block location_ok py_repr (nhc_storms [storm]))
          = [FadedCircle (Some lat) (Some lon)
               (to_real (fmul (tc_radius_km py_repr storm) (Fin 1000%Q)))
               "#0077BE" 5 0.25])
    /\ (forall storm lat lon,
          parse_lat (dict_get storm "lat") = Some lat ->
          parse_lon (dict_get storm "lon") = Some lon ->
          lat = None \/ lon = None ->
          alone (cyclones_block location_ok py_repr (nhc_storms [storm])) = [])
    /\ (forall storms,
          forallb (storm_accepted location_ok) storms = true ->
          alone (cyclones_block location_ok py_repr (nhc_storms storms))
          = flat_map (storm_circle py_repr) storms)
    /\ (forall storm rest,
          parse_lat (dict_get storm "lat") = None
          \/ parse_lon (dict_get storm "lon") = None ->
          alone (cyclones_block location_ok py_repr
                   (nhc_storms (storm :: rest))) = [])
    /\ (forall kind header row lat lon,
          (8 <= List.length row)%nat ->
          to_float (from_end row 2) = Some lat ->
          to_float (from_end row 1) = Some lon ->
          location_ok (Some lat) (Some lon) = true ->
          alone (spc_block location_ok (spc_feed kind header [row]))
          = [FadedCircle (Some lat) (Some lon) (Fin (spc_radius_m kind))
               (spc_color kind) 3 0.25])
    /\ (forall kind header row,
          (List.length row < 8)%nat
          \/ to_float (from_end row 2) = None
          \/ to_float (from_end row 1) = None ->
          alone (spc_block location_ok (spc_feed kind header [row])) = [])
    /\ (forall kind header rows,
          forallb (report_accepted location_ok) rows = true ->
          alone (spc_block location_ok (spc_feed kind header rows))
          = flat_map (report_circle kind) rows).
Proof.
  intros location_ok py_repr.
  split.
  { intros fetched c. apply all_drawn_try_block, cyclones_have_coordinates. }
  split.
  { intros feeds c. apply all_drawn_try_block, spc_have_coordinates. }
  split.
  { intros storm lat lon Hlat Hlon Hok.
    rewrite (cyclones_of_storm_list location_ok py_repr [storm]).
    - cbn [flat_map]. unfold storm_circle. rewrite Hlat, Hlon. reflexivity.
    - cbn [forallb]. unfold storm_accepted. rewrite Hlat, Hlon, Hok.
      reflexivity. }
  split.
  { intros storm lat lon Hlat Hlon Hnone.
    rewrite (cyclones_of_storm_list location_ok py_repr [storm]).
    - cbn [flat_map]. unfold storm_circle. rewrite Hlat, Hlon.
      destruct Hnone as [-> | ->]; [| destruct lat]; reflexivity.
    - cbn [forallb]. unfold storm_accepted. rewrite Hlat, Hlon.
      destruct Hnone as [-> | ->]; [| destruct lat]; reflexivity. }
  split; [apply cyclones_of_storm_list |].
  split; [apply cyclones_parser_raises |].
  split.
  { intros kind header row lat lon Hlen Hlat Hlon Hok.
    apply Nat.ltb_ge in Hlen.
    rewrite (reports_of_feed location_ok kind header [row]).
    - cbn [flat_map]. unfold report_circle. rewrite Hlen, Hlat, Hlon.
      reflexivity.
    - cbn [forallb]. unfold report_accepted. rewrite Hlen, Hlat, Hlon, Hok.
      reflexivity. }
  split.
  { intros kind header row Hskip.
    assert (Hc : report_circle kind row = []
                 /\ report_accepted location_ok row = true).
    { unfold report_circle, report_accepted.
      destruct (List.length row <? 8)%nat eqn:Hlen; [split; reflexivity |].
      apply Nat.ltb_ge in Hlen.
      destruct Hskip as [Hshort | [-> | Hlon]]; [lia | split; reflexivity |].
      rewrite Hlon. destruct (to_float (from_end row 2)); split; reflexivity. }
    destruct Hc as [Hc Ha].
    rewrite (reports_of_feed location_ok kind header [row]).
    - cbn [flat_map]. rewrite Hc. reflexivity.
    - cbn [forallb]. rewrite Ha. reflexivity. }
  apply reports_of_feed.
Qed.

Lemma positions_witness :
  parse_lat (dict_get storm_at_91N "lat") = Some (Some (Fin 91%Q))
  /\ parse_lon (dict_get storm_at_91N "lon") = Some (Some (Fin 0%Q))
  /\ validate_location (Some (Fin 91%Q)) (Some (Fin 0%Q)) = true
  /\ alone (cyclones_block validate_location blank_repr
              (nhc_storms [storm_at_91N]))
     = [FadedCircle (Some (Fin 91%Q)) (Some (Fin 0%Q))
          (to_real (fmul (tc_radius_km blank_repr storm_at_91N) (Fin 1000%Q)))
          "#0077BE" 5 0.25].
Proof.
  assert (Hlat : parse_lat (dict_get storm_at_91N "lat")
                 = Some (Some (Fin 91%Q))) by reflexivity.
  assert (Hlon : parse_lon (dict_get storm_at_91N "lon")
                 = Some (Some (Fin 0%Q))) by reflexivity.
  assert (Hok : validate_location (Some (Fin 91%Q)) (Some (Fin 0%Q)) = true)
    by reflexivity.
  split; [exact Hlat |]. split; [exact Hlon |]. split; [exact Hok |].
  exact (proj1 (proj2 (proj2
           (positions_parsed_not_range_checked validate_location blank_repr)))
           storm_at_91N _ _ Hlat Hlon Hok).
Defined.

(** C3 as stated fails: a storm reported at 91 degrees north is drawn,
    at latitude 91, and so is a severe report at 95 degrees north. *)
Lemma position_range_counterexample :
  map latitude_of
    (events (build_map validate_location any_geojson blank_repr
               (quiet_with None None (Some nhc_91N) None)))
  = [Some (Fin 91%Q)]
  /\ forallb position_in_range
       (events (build_map validate_location any_geojson blank_repr
                  (quiet_with None None (Some nhc_91N) None)))
     = false
  /\ map latitude_of
       (alone (spc_block validate_location
                 (spc_feed Hail ["Time"]
                    [["1200"; "100"; "Town"; "County"; "ST"; "note"; "95"; "-100"]])))
     = [Some (Fin 95%Q)].
Proof. repeat split; reflexivity. Qed.

(** ** Records whose coordinates do not parse *)

(** C10 at the failing input: the volcano block tests no parsed
    coordinate.  For an event whose first geometry has a null longitude
    and whose second geometry is sound, it either draws
    the first at a position without a longitude, or, when folium
    refuses that position, stops and draws neither; the cyclone block
    given the same two records skips the first and draws the second. *)
Theorem volcano_keeps_unparsed_coordinate :
  forall (location_ok : option pyfloat -> option pyfloat -> bool)
         (py_repr : json -> string),
    alone (volcano_block location_ok (Some eonet_unparsed))
    = (if location_ok (Some (Fin 10%Q)) None then
         FadedCircle (Some (Fin 10%Q)) None (Fin 20000%R) "#B87333" 4 0.25
         :: CircleMarker (Some (Fin 10%Q)) None (JStr "Etna")
         :: (if location_ok (Some (Fin 10%Q)) (Some (Fin 20%Q)) then
               [ FadedCircle (Some (Fin 10%Q)) (Some (Fin 20%Q))
                   (Fin 20000%R) "#B87333" 4 0.25;
                 CircleMarker (Some (Fin 10%Q)) (Some (Fin 20%Q)) (JStr "Etna") ]
             else [])
       else [])
    /\ alone (cyclones_block location_ok py_repr (Some nhc_unparsed))
       = (if location_ok (Some (Fin 10%Q)) (Some (Fin 20%Q)) then
            [ FadedCircle (Some (Fin 10%Q)) (Some (Fin 20%Q))
                (to_real (Fin 200000%Q)) "#0077BE" 5 0.25 ]
          else []).
Proof.
  intros location_ok py_repr.
  split.
  all: unfold alone, try_block, volcano_block, eonet_unparsed,
         cyclones_block, cyclone_record, nhc_unparsed,
         add_faded_circle, circle_marker.
  all: cbv -[IZR to_real].
  all: repeat (match goal with
               | |- context [if ?ok then _ else _] => destruct ok
               end; cbv -[IZR to_real]).
  all: reflexivity.
Qed.

(** ** Bounds of a geometry *)

Section GeometryFacts.

(** Induction on JSON values that reaches the members of a list. *)
Lemma json_list_ind (P : json -> Prop) :
  (forall v, (forall l, v <> JArr l) -> P v) ->
  (forall l, Forall P l -> P (JArr l)) ->
  forall v, P v.
Proof.
  intros Hother Harr. fix IH 1.
  intros [| b | z | x | s | l | kv]; try (apply Hother; discriminate).
  apply Harr. induction l as [| x l IHl]; constructor; [apply IH | exact IHl].
Qed.

Lemma iter_lonlat_list (l : list json) :
  iter_lonlat (JArr l)
  = if (2 <=? List.length l)%nat && forallb is_number (firstn 2 l)
    then [JArr l]
    else flat_map iter_lonlat l.
Proof. reflexivity. Qed.

Lemma iter_lonlat_pairs (v : json) :
  Forall (fun c => is_lonlat c = true) (iter_lonlat v).
Proof.
  induction v as [v Hv | l IH] using json_list_ind.
  - destruct v; try constructor. exfalso. exact (Hv l eq_refl).
  - rewrite iter_lonlat_list.
    destruct ((2 <=? List.length l)%nat && forallb is_number (firstn 2 l)) eqn:E.
    + constructor; [| constructor].
      apply andb_prop in E as [Hlen Hnum].
      destruct l as [| a [| b l]]; try discriminate Hlen.
      simpl in Hnum |- *. rewrite andb_true_r in Hnum. exact Hnum.
    + clear E. induction IH as [| x l Hx Hl IHl]; [constructor |].
      cbn [flat_map]. apply Forall_app; split; [exact Hx | exact IHl].
Qed.

Lemma column_of_pairs (i : nat) (coords : list json) :
  (i < 2)%nat ->
  forallb pair_converts coords = true ->
  List.length (column i coords) = List.length coords.
Proof.
  intros Hi H. induction coords as [| c coords IH]; [reflexivity |].
  cbn [forallb] in H. apply andb_prop in H as [Hc Hcs].
  unfold column in *. cbn [flat_map]. rewrite length_app, (IH Hcs).
  change (List.length (c :: coords)) with (1 + List.length coords)%nat.
  f_equal.
  destruct c as [| | | | | [| a [| b l]] |]; try discriminate Hc.
  unfold pair_converts in Hc.
  destruct (to_float a) as [x |] eqn:Ea; [| discriminate Hc].
  destruct (to_float b) as [y |] eqn:Eb; [| discriminate Hc].
  destruct i as [| [| i]]; [| | lia]; cbn [truthy py_index nth_error].
  - rewrite Ea. reflexivity.
  - rewrite Eb. reflexivity.
Qed.

(** X15: for a geometry that is a dict all of whose coordinate pairs
    convert to floats, [geom_bounds] returns no bounds exactly when
    [iter_lonlat] finds no pair under the key [coordinates]; without a
    pair there are never bounds.  A pair that holds an integer too large
    for a float is found but does not convert, and a geometry whose only
    pair is such a one has no bounds either. *)
Theorem geom_bounds_none_iff_no_pair :
  forall kv : list (string * json),
    let coords := iter_lonlat (dict_get_default kv "coordinates" (JArr [])) in
    (forallb pair_converts coords = true ->
     (geom_bounds (JObj kv) = None <-> coords = []))
    /\ (coords = [] -> geom_bounds (JObj kv) = None)
    /\ iter_lonlat (JArr [JInt (10 ^ 400); JInt 1])
       = [JArr [JInt (10 ^ 400); JInt 1]]
    /\ geom_bounds (JObj [("coordinates", JArr [JInt (10 ^ 400); JInt 1])])
       = None.
Proof.
  intros kv coords. subst coords. unfold geom_bounds.
  set (coords := iter_lonlat (dict_get_default kv "coordinates" (JArr []))).
  split.
  { intros Hc.
    pose proof (column_of_pairs 0 coords (Nat.lt_0_2) Hc) as H0.
    pose proof (column_of_pairs 1 coords (Nat.lt_1_2) Hc) as H1.
    destruct coords as [| c coords]; [split; reflexivity |].
    destruct (column 0 (c :: coords)) as [| lon lons]; [discriminate H0 |].
    destruct (column 1 (c :: coords)) as [| lat lats]; [discriminate H1 |].
    split; discriminate. }
  split; [intros ->; reflexivity |].
  split; vm_compute; reflexivity.
Qed.

Lemma geom_bounds_pair_witness :
  forallb pair_converts
    (iter_lonlat (dict_get_default [("coordinates", JArr [JInt 3; JInt 4])]
                    "coordinates" (JArr []))) = true
  /\ (geom_bounds (JObj [("coordinates", JArr [JInt 3; JInt 4])]) = None
      <-> iter_lonlat (dict_get_default [("coordinates", JArr [JInt 3; JInt 4])]
                         "coordinates" (JArr [])) = []).
Proof.
  assert (H : forallb pair_converts
                (iter_lonlat
                   (dict_get_default [("coordinates", JArr [JInt 3; JInt 4])]
                      "coordinates" (JArr []))) = true) by reflexivity.
  split; [exact H |].
  exact (proj1 (geom_bounds_none_iff_no_pair
                  [("coordinates", JArr [JInt 3; JInt 4])]) H).
Defined.

Lemma fold_fmin_finite (l : list pyfloat) (x : Q) :
  forallb is_finite l = true ->
  exists m : Q,
    fold_left fmin l (Fin x) = Fin m
    /\ (m <= x)%Q /\ forall y, In (Fin y) l -> (m <= y)%Q.
Proof.
  revert x. induction l as [| a l IH]; intros x H.
  - exists x. split; [reflexivity |]. split; [apply Qle_refl |].
    intros y [].
  - simpl in H. apply andb_prop in H as [Ha Hl].
    destruct a as [a | | |]; try discriminate Ha.
    simpl fold_left. unfold fmin at 2. simpl flt.
    change (match (a ?= x)%Q with Lt => true | _ => false end) with (Qltb a x).
    destruct (Qltb a x) eqn:E.
    + apply Qltb_true in E.
      destruct (IH a Hl) as (m & Hm & Hma & Hall).
      exists m. split; [exact Hm |]. split; [Lqa.lra |].
      intros y [Hy | Hy]; [injection Hy as <-; exact Hma | exact (Hall y Hy)].
    + apply Qltb_false in E.
      destruct (IH x Hl) as (m & Hm & Hmx & Hall).
      exists m. split; [exact Hm |]. split; [exact Hmx |].
      intros y [Hy | Hy]; [injection Hy as <-; Lqa.lra | exact (Hall y Hy)].
Qed.

Lemma fold_fmax_finite (l : list pyfloat) (x : Q) :
  forallb is_finite l = true ->
  exists m : Q,
    fold_left fmax l (Fin x) = Fin m
    /\ (x <= m)%Q /\ forall y, In (Fin y) l -> (y <= m)%Q.
Proof.
  revert x. induction l as [| a l IH]; intros x H.
  - exists x. split; [reflexivity |]. split; [apply Qle_refl |].
    intros y [].
  - simpl in H. apply andb_prop in H as [Ha Hl].
    destruct a as [a | | |]; try discriminate Ha.
    simpl fold_left. unfold fmax at 2. simpl flt.
    change (match (x ?= a)%Q with Lt => true | _ => false end) with (Qltb x a).
    destruct (Qltb x a) eqn:E.
    + apply Qltb_true in E.
      destruct (IH a Hl) as (m & Hm & Hma & Hall).
      exists m. split; [exact Hm |]. split; [Lqa.lra |].
      intros y [Hy | Hy]; [injection Hy as <-; exact Hma | exact (Hall y Hy)].
    + apply Qltb_false in E.
      destruct (IH x Hl) as (m & Hm & Hmx & Hall).
      exists m. split; [exact Hm |]. split; [exact Hmx |].
      intros y [Hy | Hy]; [injection Hy as <-; Lqa.lra | exact (Hall y Hy)].
Qed.

Lemma geom_bounds_some (kv : list (string * json))
  (b : pyfloat * pyfloat * pyfloat * pyfloat) :
  geom_bounds (JObj kv) = Some b ->
  exists lon lons lat lats,
    column 0 (iter_lonlat (dict_get_default kv "coordinates" (JArr [])))
    = lon :: lons
    /\ column 1 (iter_lonlat (dict_get_default kv "coordinates" (JArr [])))
       = lat :: lats
    /\ b = (fold_left fmin lats lat, fold_left fmax lats lat,
            fold_left fmin lons lon, fold_left fmax lons lon).
Proof.
  unfold geom_bounds.
  destruct (iter_lonlat (dict_get_default kv "coordinates" (JArr [])))
    as [| c cs]; [discriminate |].
  destruct (column 0 (c :: cs)) as [| lon lons]; [discriminate |].
  destruct (column 1 (c :: cs)) as [| lat lats]; [discriminate |].
  intros H. injection H as <-.
  exists lon, lons, lat, lats. repeat split.
Qed.

Lemma finite_member (l : list pyfloat) (y : pyfloat) :
  forallb is_finite l = true -> In y l -> exists q, y = Fin q.
Proof.
  intros H Hy. pose proof (proj1 (forallb_forall _ _) H y Hy) as Hf.
  destruct y as [q | | |]; try discriminate Hf. exists q; reflexivity.
Qed.

(** X16: when every coordinate of a geometry is a finite number, the
    bounds returned for it are finite and enclose every latitude and
    every longitude that [iter_lonlat] finds. *)
Theorem geom_bounds_enclose :
  forall (kv : list (string * json))
         (min_lat max_lat min_lon max_lon : pyfloat),
    let coords := iter_lonlat (dict_get_default kv "coordinates" (JArr [])) in
    geom_bounds (JObj kv) = Some (min_lat, max_lat, min_lon, max_lon) ->
    forallb is_finite (column 0 coords) = true ->
    forallb is_finite (column 1 coords) = true ->
    (forall lat, In lat (column 1 coords) -> fle min_lat lat /\ fle lat max_lat)
    /\ (forall lon, In lon (column 0 coords) -> fle min_lon lon /\ fle lon max_lon).
Proof.
  intros kv min_lat max_lat min_lon max_lon coords H H0 H1. subst coords.
  destruct (geom_bounds_some kv _ H) as (lon & lons & lat & lats & E0 & E1 & E).
  rewrite E0 in *. rewrite E1 in *.
  injection E as -> -> -> ->.
  simpl in H0, H1.
  apply andb_prop in H0 as [Hlon Hlons]. apply andb_prop in H1 as [Hlat Hlats].
  destruct lon as [lon | | |]; try discriminate Hlon.
  destruct lat as [lat | | |]; try discriminate Hlat.
  destruct (fold_fmin_finite lats lat Hlats) as (a & -> & Ha & Hamin).
  destruct (fold_fmax_finite lats lat Hlats) as (b & -> & Hb & Hbmax).
  destruct (fold_fmin_finite lons lon Hlons) as (c & -> & Hc & Hcmin).
  destruct (fold_fmax_finite lons lon Hlons) as (d & -> & Hd & Hdmax).
  split.
  - intros y [<- | Hy]; [split; assumption |].
    destruct (finite_member lats y Hlats Hy) as [q ->].
    split; [exact (Hamin q Hy) | exact (Hbmax q Hy)].
  - intros y [<- | Hy]; [split; assumption |].
    destruct (finite_member lons y Hlons Hy) as [q ->].
    split; [exact (Hcmin q Hy) | exact (Hdmax q Hy)].
Qed.

End GeometryFacts.

Lemma geom_bounds_enclose_witness :
  let kv := [("type", JStr "Polygon");
             ("coordinates",
              JArr [JArr [JArr [JInt 1; JInt 2]; JArr [JInt 3; JInt 4]]])] in
  geom_bounds (JObj kv) = Some (Fin 2%Q, Fin 4%Q, Fin 1%Q, Fin 3%Q)
  /\ forall lat,
       In lat (column 1 (iter_lonlat (dict_get_default kv "coordinates" (JArr []))))
       -> fle (Fin 2%Q) lat /\ fle lat (Fin 4%Q).
Proof.
  intros kv. split; [reflexivity |].
  exact (proj1 (geom_bounds_enclose kv (Fin 2%Q) (Fin 4%Q) (Fin 1%Q) (Fin 3%Q)
                  eq_refl eq_refl eq_refl)).
Defined.

(** ** The rings of a faded circle *)

Section RingFacts.

Lemma steps_at_least_two (steps : Z) : (2 <= Z.to_nat (Z.max 2 steps))%nat.
Proof. lia. Qed.

Lemma ring_fraction_one (n : nat) :
  (0 < n)%nat ->
  Qred (inject_Z (Z.of_nat n) / inject_Z (Z.of_nat n)) = 1%Q.
Proof.
  intros H. change 1%Q with (Qred 1). apply Qred_complete.
  apply Qmult_inv_r. unfold inject_Z, Qeq; simpl. lia.
Qed.

Lemma last_ring (n : nat) (max_opacity : Q) :
  (0 < n)%nat ->
  ring_at (S n) max_opacity n = [{| fraction := 1; fill_opacity := 0 |}].
Proof.
  intros H. unfold ring_at.
  replace (n + 1)%nat with (S n) by lia.
  rewrite ring_fraction_one by lia.
  replace (n <? S n - 1)%nat with false
    by (symmetry; apply Nat.ltb_ge; lia).
  rewrite andb_false_r.
  assert (E : Qltb 0 (max_opacity * (1 - 1 * 1)) = false).
  { apply Qltb_false. Lqa.lra. }
  rewrite E. reflexivity.
Qed.

Lemma ring_at_short (n : nat) (max_opacity : Q) (i : nat) :
  (List.length (ring_at n max_opacity i) <= 1)%nat.
Proof.
  unfold ring_at.
  destruct (Qle_bool _ _ && (i <? n - 1)%nat); simpl; lia.
Qed.

Lemma flat_map_short {A B : Type} (f : A -> list B) (l : list A) :
  (forall a, (List.length (f a) <= 1)%nat) ->
  (List.length (flat_map f l) <= List.length l)%nat.
Proof.
  intros H; induction l as [| a l IH]; simpl; [lia |].
  rewrite length_app. specialize (H a). lia.
Qed.

(** X17: [add_faded_circle] always has a circle to add.  Whatever the
    number of steps and the opacity, the rings end with one of the full
    radius and opacity 0, and there are at most [max(2, steps)] of
    them. *)
Theorem faded_rings_end_with_full_radius :
  forall (steps : Z) (max_opacity : Q),
    (exists inner : list ring,
       faded_rings steps max_opacity
       = (inner ++ [{| fraction := 1; fill_opacity := 0 |}])%list)
    /\ (1 <= List.length (faded_rings steps max_opacity)
        <= Z.to_nat (Z.max 2 steps))%nat.
Proof.
  intros steps max_opacity. unfold faded_rings.
  pose proof (steps_at_least_two steps) as Hn.
  destruct (Z.to_nat (Z.max 2 steps)) as [| n]; [lia |].
  assert (E : flat_map (ring_at (S n) max_opacity) (seq 0 (S n))
              = (flat_map (ring_at (S n) max_opacity) (seq 0 n)
                 ++ [{| fraction := 1; fill_opacity := 0 |}])%list).
  { rewrite seq_S, flat_map_app. simpl flat_map.
    rewrite last_ring by lia. rewrite app_nil_r. reflexivity. }
  split; [eexists; exact E |].
  split.
  - rewrite E, length_app. simpl. lia.
  - pose proof (flat_map_short (ring_at (S n) max_opacity) (seq 0 (S n))
                  (ring_at_short (S n) max_opacity)) as Hl.
    rewrite length_seq in Hl. exact Hl.
Qed.

Lemma ring_at_bounds (n : nat) (max_opacity : Q) (i : nat) (r : ring) :
  (i < n)%nat -> (0 <= max_opacity)%Q ->
  In r (ring_at n max_opacity i) ->
  (0 < fraction r)%Q /\ (fraction r <= 1)%Q
  /\ (0 <= fill_opacity r)%Q /\ (fill_opacity r <= max_opacity)%Q.
Proof.
  intros Hi Hm. unfold ring_at.
  set (f := Qred (inject_Z (Z.of_nat (i + 1)) / inject_Z (Z.of_nat n))).
  assert (Hf : (0 < f)%Q /\ (f <= 1)%Q).
  { unfold f. rewrite Qred_correct.
    assert (Hn : (0 < inject_Z (Z.of_nat n))%Q)
      by (change 0%Q with (inject_Z 0); rewrite <- Zlt_Qlt; lia).
    split.
    - apply Qlt_shift_div_l; [exact Hn |].
      rewrite Qmult_0_l. change 0%Q with (inject_Z 0).
      rewrite <- Zlt_Qlt. lia.
    - apply Qle_shift_div_r; [exact Hn |].
      rewrite Qmult_1_l, <- Zle_Qle. lia. }
  destruct Hf as [Hf0 Hf1].
  assert (Hsq : (0 <= 1 - f * f)%Q /\ (1 - f * f <= 1)%Q) by (split; Lqa.nra).
  destruct Hsq as [Hs0 Hs1].
  destruct (Qle_bool _ _ && (i <? n - 1)%nat); [intros [] |].
  intros [<- | []]. cbn [fraction fill_opacity].
  split; [exact Hf0 |]. split; [exact Hf1 |].
  destruct (Qltb 0 (max_opacity * (1 - f * f))) eqn:E.
  - apply Qltb_true in E. split; [Lqa.lra | Lqa.nra].
  - split; [Lqa.lra | exact Hm].
Qed.

Lemma rings_bounded (steps : Z) (max_opacity : Q) (r : ring) :
  (0 <= max_opacity)%Q ->
  In r (faded_rings steps max_opacity) ->
  (0 < fraction r)%Q /\ (fraction r <= 1)%Q
  /\ (0 <= fill_opacity r)%Q /\ (fill_opacity r <= max_opacity)%Q.
Proof.
  intros Hm Hin. unfold faded_rings in Hin.
  apply in_flat_map in Hin as (i & Hi & Hr).
  apply in_seq in Hi.
  apply (ring_at_bounds (Z.to_nat (Z.max 2 steps)) max_opacity i r);
    [lia | exact Hm | exact Hr].
Qed.

(** X18: with an opacity that is not negative, every ring is drawn with
    a fraction of the radius in (0, 1] and a fill opacity between 0 and
    the opacity asked for. *)
Theorem faded_rings_within_bounds :
  forall (steps : Z) (max_opacity : Q) (r : ring),
    (0 <= max_opacity)%Q ->
    In r (faded_rings steps max_opacity) ->
    (0 < fraction r)%Q /\ (fraction r <= 1)%Q
    /\ (0 <= fill_opacity r)%Q /\ (fill_opacity r <= max_opacity)%Q.
Proof. exact rings_bounded. Qed.

Lemma faded_rings_bounds_witness :
  (0 <= 1 # 4)%Q
  /\ In {| fraction := 1 # 2; fill_opacity := 3 # 16 |} (faded_rings 4 (1 # 4))
  /\ (0 < 1 # 2)%Q /\ (1 # 2 <= 1)%Q
  /\ (0 <= 3 # 16)%Q /\ (3 # 16 <= 1 # 4)%Q.
Proof.
  assert (H0 : (0 <= 1 # 4)%Q) by (apply Qle_bool_imp_le; reflexivity).
  assert (Hin : In {| fraction := 1 # 2; fill_opacity := 3 # 16 |}
                  (faded_rings 4 (1 # 4)))
    by (right; left; reflexivity).
  split; [exact H0 |]. split; [exact Hin |].
  exact (faded_rings_within_bounds 4 (1 # 4) _ H0 Hin).
Defined.

Lemma flat_map_seq_sorted {B : Type} (R : B -> B -> Prop) (f : nat -> list B)
  (n : nat) :
  (forall i, (List.length (f i) <= 1)%nat) ->
  (forall i j x y, (i < j < n)%nat -> In x (f i) -> In y (f j) -> R x y) ->
  forall a k, (a + k <= n)%nat -> StronglySorted R (flat_map f (seq a k)).
Proof.
  intros Hshort HR a k. revert a.
  induction k as [| k IH]; intros a Hk; simpl; [constructor |].
  pose proof (Hshort a) as Ha.
  destruct (f a) as [| x [| x' l]] eqn:E; simpl in Ha; try lia.
  - apply IH. lia.
  - simpl. constructor; [apply IH; lia |].
    apply Forall_forall. intros y Hy.
    apply in_flat_map in Hy as (j & Hj & Hy). apply in_seq in Hj.
    apply (HR a j x y); [lia | rewrite E; left; reflexivity | exact Hy].
Qed.

Lemma ring_at_fades (n : nat) (max_opacity : Q) (i j : nat) (x y : ring) :
  (0 <= max_opacity)%Q -> (i < j < n)%nat ->
  In x (ring_at n max_opacity i) -> In y (ring_at n max_opacity j) ->
  fades_towards x y.
Proof.
  intros Hm Hij. unfold ring_at.
  set (fi := Qred (inject_Z (Z.of_nat (i + 1)) / inject_Z (Z.of_nat n))).
  set (fj := Qred (inject_Z (Z.of_nat (j + 1)) / inject_Z (Z.of_nat n))).
  assert (Hn : (0 < inject_Z (Z.of_nat n))%Q)
    by (change 0%Q with (inject_Z 0); rewrite <- Zlt_Qlt; lia).
  assert (Hpos : (0 < fi)%Q).
  { unfold fi. rewrite Qred_correct. apply Qlt_shift_div_l; [exact Hn |].
    rewrite Qmult_0_l. change 0%Q with (inject_Z 0). rewrite <- Zlt_Qlt. lia. }
  assert (Hlt : (fi < fj)%Q).
  { unfold fi, fj. rewrite !Qred_correct. unfold Qdiv.
    apply Qmult_lt_compat_r; [apply Qinv_lt_0_compat; exact Hn |].
    rewrite <- Zlt_Qlt. lia. }
  assert (Hsq : (fi * fi <= fj * fj)%Q) by Lqa.nra.
  assert (Hop : (max_opacity * (1 - fj * fj) <= max_opacity * (1 - fi * fi))%Q)
    by Lqa.nra.
  destruct (Qle_bool _ _ && (i <? n - 1)%nat); [intros [] |].
  destruct (Qle_bool _ _ && (j <? n - 1)%nat); [intros _ [] |].
  intros [<- | []] [<- | []]. unfold fades_towards. cbn [fraction fill_opacity].
  split; [exact Hlt |].
  destruct (Qltb 0 (max_opacity * (1 - fj * fj))) eqn:Ej;
    destruct (Qltb 0 (max_opacity * (1 - fi * fi))) eqn:Ei;
    try apply Qltb_true in Ej; try apply Qltb_false in Ej;
    try apply Qltb_true in Ei; try apply Qltb_false in Ei; Lqa.lra.
Qed.

(** X19: the rings fade outwards.  With an opacity that is not negative
    each ring has a larger radius than the ring before it and an
    opacity that is not larger. *)
Theorem faded_rings_fade_outwards :
  forall (steps : Z) (max_opacity : Q),
    (0 <= max_opacity)%Q ->
    StronglySorted fades_towards (faded_rings steps max_opacity).
Proof.
  intros steps max_opacity Hm. unfold faded_rings.
  apply (flat_map_seq_sorted fades_towards _ (Z.to_nat (Z.max 2 steps)));
    [apply ring_at_short | | lia].
  intros i j x y Hij. apply ring_at_fades; assumption.
Qed.

Lemma faded_rings_fade_witness :
  (0 <= 35 # 100)%Q
  /\ StronglySorted fades_towards (faded_rings 4 (35 # 100)).
Proof.
  assert (H0 : (0 <= 35 # 100)%Q) by (apply Qle_bool_imp_le; reflexivity).
  split; [exact H0 | exact (faded_rings_fade_outwards 4 (35 # 100) H0)].
Defined.

End RingFacts.


(** ** What each layer holds *)

Section ItemFacts.
Variable Q : item -> Prop.

Lemma all_items_draw (it : item) : Q it -> preserves (all_items Q) (draw it).
Proof.
  intros Hq s H. unfold all_items in *; simpl.
  apply Forall_app; split; [exact H | constructor; [exact Hq | constructor]].
Qed.

Lemma all_items_count_one : preserves (all_items Q) count_one.
Proof. intros s H; exact H. Qed.

Lemma all_items_store_tally (k : string) :
  preserves (all_items Q) (store_tally k).
Proof. intros s H; exact H. Qed.

Lemma all_items_set_count (k : string) (v : nat) :
  preserves (all_items Q) (set_count k v).
Proof. intros s H; exact H. Qed.

Lemma all_items_bump (k : string) : preserves (all_items Q) (bump k).
Proof.
  intros s H. unfold bump. destruct (dict_find (counts s) k); exact H.
Qed.

Lemma all_items_alone (body : M unit) :
  preserves (all_items Q) body -> Forall Q (alone body).
Proof.
  intros Hb. unfold alone, try_block; simpl.
  apply (Hb {| drawn := []; tally := 0; counts := initial_counts |}).
  constructor.
Qed.

End ItemFacts.

Section BindFacts.
Variable P : sst -> Prop.

(** The continuation of a partial operation only runs on its value. *)
Lemma preserves_lift_bind {A B : Type} (o : option A) (f : A -> M B) :
  (forall a, o = Some a -> preserves P (f a)) -> preserves P (bind (lift o) f).
Proof.
  intros H s Hs. unfold bind. destruct o as [a |]; simpl.
  - apply (H a eq_refl); exact Hs.
  - exact Hs.
Qed.

Lemma preserves_ret_bind {A B : Type} (a : A) (f : A -> M B) :
  preserves P (f a) -> preserves P (bind (ret a) f).
Proof. intros H s Hs. unfold bind; simpl. apply H; exact Hs. Qed.

Lemma preserves_raise_bind {A B : Type} (f : A -> M B) :
  preserves P (bind raise f).
Proof. intros s Hs. exact Hs. Qed.

End BindFacts.

Ltac items_step :=
  first
    [ apply preserves_ret | apply preserves_raise
    | apply all_items_count_one | apply all_items_store_tally
    | apply all_items_set_count | apply all_items_bump
    | match goal with
      | |- preserves _ (bind raise _) => apply preserves_raise_bind
      | |- preserves _ (bind (ret _) _) => apply preserves_ret_bind
      | |- preserves _ (bind (lift _) _) =>
          apply preserves_lift_bind; intros ? ?
      end
    | apply preserves_lift
    | match goal with
      | |- preserves _ (bind (match ?x with _ => _ end) _) => destruct x eqn:?
      end
    | apply preserves_bind; [| intros ?]
    | apply preserves_for_each; intros ?
    | match goal with
      | |- preserves _ (match ?x with _ => _ end) => destruct x eqn:?
      end ];
  cbv beta iota zeta.

Lemma fire_radius_some (scan_deg track_deg lat : option pyfloat)
  (radius_m : xreal) :
  fire_radius_m scan_deg track_deg lat = Some radius_m ->
  exists r : R, radius_m = Fin r /\ (150 <= r <= 2000)%R.
Proof.
  destruct scan_deg as [scan |], track_deg as [track |], lat as [lat |];
    simpl;
    try (intros [= <-]; exists 500%R; split; [reflexivity | lra]).
  unfold fire_footprint_radius_m.
  destruct (xcos (xradians (to_real lat))) as [c |]; [| discriminate].
  intros [= <-]. apply clamp_any. lra.
Qed.

Lemma seismic_radius_some (M : xreal) (depth_km : option xreal)
  (radius_km : xreal) :
  seismic_radius_km M depth_km = Some radius_km ->
  exists r : R, radius_km = Fin r /\ (2 <= r <= 300)%R.
Proof.
  unfold seismic_radius_km.
  destruct (seismic_attenuated_km M depth_km) as [x |]; [| discriminate].
  intros [= <-]. apply clamp_any. lra.
Qed.

Lemma tc_radius_table (py_repr : json -> string) (storm : list (string * json)) :
  exists km : Q,
    tc_radius_km py_repr storm = Fin km /\ In km cyclone_table_km.
Proof.
  destruct (estimate_table_value py_repr storm) as (q & Hq & Hin).
  exists q. split; [| exact Hin].
  unfold tc_radius_km. rewrite Hq. apply clamp_keeps_table_value; exact Hin.
Qed.

Lemma included_event (event : json) :
  not_included event = Some false ->
  exists e, event = JStr e /\ In e (map fst include_events).
Proof.
  destruct event as [| b | z | x | e | l | kv]; cbn [not_included];
    try discriminate.
  destruct (existsb (fun p => String.eqb (fst p) e) include_events) eqn:H;
    [intros _ | cbn [negb]; discriminate].
  apply existsb_exists in H as (p & Hp & He).
  apply String.eqb_eq in He. exists e. split; [reflexivity |].
  rewrite <- He. apply in_map. exact Hp.
Qed.

Section LayerFacts.
Variable location_ok : option pyfloat -> option pyfloat -> bool.
Variable geojson_ok : json -> bool.
Variable py_repr : json -> string.

Lemma radar_items fetched :
  preserves (all_items (layer_item layer_radar)) (radar_block fetched).
Proof.
  unfold radar_block. repeat items_step.
  apply all_items_draw. simpl. eexists _, _. split; [reflexivity | assumption].
Qed.

Lemma volcano_items fetched :
  preserves (all_items (layer_item layer_volcano))
    (volcano_block location_ok fetched).
Proof.
  unfold volcano_block, add_faded_circle, circle_marker. repeat items_step.
  - apply all_items_draw. left. eexists _, _. reflexivity.
  - apply all_items_draw. right. eexists _, _, _. split; [reflexivity |].
    unfold py_or.
    match goal with
    | |- truthy (if truthy ?t then _ else _) = true =>
        destruct (truthy t) eqn:Et; [exact Et | reflexivity]
    end.
Qed.

Lemma nws_items resp :
  preserves (all_items (layer_item layer_nws))
    (nws_block geojson_ok py_repr resp).
Proof.
  unfold nws_block. repeat items_step.
  apply all_items_draw.
  match goal with
  | H : not_included _ = Some _ |- _ =>
      apply included_event in H as (e & -> & Hin)
  end.
  simpl. eexists _, _, _, _.
  split; [reflexivity |]. split; [exact Hin |].
  split; [eassumption | congruence].
Qed.

Lemma spc_items feeds :
  preserves (all_items (layer_item layer_spc_lsr)) (spc_block location_ok feeds).
Proof.
  unfold spc_block, add_faded_circle. repeat items_step.
  all: apply all_items_draw; eexists _, _, _; reflexivity.
Qed.

Lemma quakes_items results :
  preserves (all_items (layer_item layer_quakes_area))
    (quakes_block location_ok results).
Proof.
  unfold quakes_block, add_faded_circle. repeat items_step.
  all: apply all_items_draw;
    match goal with
    | H : seismic_radius_km _ _ = Some _ |- _ =>
        apply seismic_radius_some in H as (r & -> & Hb)
    end;
    rewrite (metres_fin r Hb);
    eexists _, _, (r * 1000)%R; split; [reflexivity | lra].
Qed.

Lemma fires_items fetched :
  preserves (all_items (layer_item layer_fires_area))
    (fires_block location_ok fetched).
Proof.
  unfold fires_block, add_faded_circle. repeat items_step.
  apply all_items_draw.
  match goal with
  | H : fire_radius_m _ _ _ = Some _ |- _ =>
      apply fire_radius_some in H as (r & -> & Hb)
  end.
  eexists _, _, r. split; [reflexivity | exact Hb].
Qed.

Lemma cyclones_items fetched :
  preserves (all_items (layer_item layer_tc_areas))
    (cyclones_block location_ok py_repr fetched).
Proof.
  unfold cyclones_block, cyclone_record, add_faded_circle. repeat items_step.
  apply all_items_draw.
  match goal with
  | |- context [tc_radius_km py_repr ?storm] =>
      destruct (tc_radius_table py_repr storm) as (km & -> & Hin)
  end.
  eexists _, _, km. split; [reflexivity | exact Hin].
Qed.

End LayerFacts.

(** Each layer holds only the items of its own block. *)
Lemma layer_items_hold
  (location_ok : option pyfloat -> option pyfloat -> bool)
  (geojson_ok : json -> bool) (py_repr : json -> string)
  (f : feeds) (l : layer) :
  Forall (layer_item l)
    (items_of (build_map location_ok geojson_ok py_repr f) l).
Proof.
  unfold items_of. rewrite build_map_layers.
  destruct l; cbn [children layer_eqb]; apply all_items_alone.
  - apply radar_items.
  - apply volcano_items.
  - apply nws_items.
  - apply spc_items.
  - apply quakes_items.
  - apply fires_items.
  - apply cyclones_items.
Qed.

(** ** The children of the layers *)

Section ChildFacts.
Local Open Scope R_scope.

Lemma Q2R_fraction (q : Q) :
  (0 < q)%Q -> (q <= 1)%Q -> 0 < Q2R q <= 1.
Proof.
  intros H0 H1. apply Qlt_Rlt in H0. apply Qle_Rle in H1.
  rewrite RMicromega.Q2R_0 in H0. rewrite RMicromega.Q2R_1 in H1.
  split; assumption.
Qed.

(** The rings of a circle of moderate radius. *)
Lemma ring_children (lat lon : option pyfloat) (r lo hi : R)
  (color : string) (steps : nat) (max_opacity : Q) :
  lo <= r <= hi -> 0 <= r <= 1000000 -> (0 <= max_opacity)%Q ->
  Forall (ring_within lo hi color max_opacity)
    (children_of (FadedCircle lat lon (Fin r) color steps max_opacity)).
Proof.
  intros Hr Hm Ho. cbn [children_of]. apply Forall_map, Forall_forall.
  intros rg Hin.
  destruct (rings_bounded _ _ rg Ho Hin) as (Hf0 & Hf1 & Ho0 & Ho1).
  pose proof (Q2R_fraction _ Hf0 Hf1) as Hf.
  unfold circle_of. rewrite xmul_moderate by (apply Rabs_le; nra).
  exists lat, lon, r, (Q2R (fraction rg)), (fill_opacity rg).
  repeat split; try assumption; lra.
Qed.

Lemma quarter_nonneg : (0 <= 0.25)%Q.
Proof. apply Qle_bool_imp_le. reflexivity. Qed.

Lemma table_radius_metres (km : Q) :
  In km cyclone_table_km ->
  exists r : R,
    to_real (fmul (Fin km) (Fin 1000%Q)) = Fin r /\ 100000 <= r <= 500000.
Proof.
  intros Hin. unfold cyclone_table_km in Hin. simpl in Hin.
  repeat (destruct Hin as [<- | Hin];
          [eexists; split; [reflexivity |];
           unfold Q2R; simpl; lra |]).
  contradiction.
Qed.

(** The children of an item of a layer are children of that layer. *)
Lemma children_within (l : layer) (it : item) :
  layer_item l it -> Forall (layer_child l) (children_of it).
Proof.
  destruct l; cbn [layer_item layer_child].
  - intros (host & path & -> & Hp). constructor; [| constructor].
    exists host, path. split; [reflexivity | exact Hp].
  - intros [(lat & lon & ->) | (lat & lon & title & -> & Ht)].
    + eapply Forall_impl; [intros c Hc; left; exact Hc |].
      apply ring_children; [lra | lra | exact quarter_nonneg].
    + constructor; [| constructor]. right.
      exists lat, lon, title. split; [reflexivity | exact Ht].
  - intros (f & event & detail & geom & -> & Hin & Hg & Hb).
    constructor; [| constructor].
    exists f, event, detail, geom. repeat split; assumption.
  - intros (lat & lon & kind & ->).
    eapply Forall_impl; [intros c Hc; exists kind; exact Hc |].
    apply ring_children;
      [destruct kind; simpl; lra | destruct kind; simpl; lra
      | exact quarter_nonneg].
  - intros (lat & lon & r & -> & Hr).
    apply ring_children; [exact Hr | lra |].
    apply Qle_bool_imp_le. reflexivity.
  - intros (lat & lon & r & -> & Hr).
    apply ring_children; [exact Hr | lra |].
    apply Qle_bool_imp_le. reflexivity.
  - intros (lat & lon & km & -> & Hin).
    destruct (table_radius_metres km Hin) as (r & -> & Hr).
    apply ring_children; [exact Hr | lra | exact quarter_nonneg].
Qed.

Lemma children_of_layer (l : layer) (items : list item) :
  Forall (layer_item l) items ->
  Forall (layer_child l) (flat_map children_of items).
Proof.
  intros H. induction H as [| it items Hit _ IH]; [constructor |].
  cbn [flat_map]. apply Forall_app. split; [| exact IH].
  apply children_within. exact Hit.
Qed.

(** Every item of a layer other than the volcano layer adds the same
    number of children. *)
Lemma children_per_item (l : layer) (it : item) :
  l <> layer_volcano ->
  layer_item l it -> List.length (children_of it) = rings_per_circle l.
Proof.
  intros Hl. destruct l; try contradiction; cbn [layer_item rings_per_circle].
  - intros (host & path & -> & _). reflexivity.
  - intros (f & event & detail & geom & -> & _). reflexivity.
  - intros (lat & lon & kind & ->). cbn [children_of].
    rewrite length_map. vm_compute. reflexivity.
  - intros (lat & lon & r & -> & _). cbn [children_of].
    rewrite length_map. vm_compute. reflexivity.
  - intros (lat & lon & r & -> & _). cbn [children_of].
    rewrite length_map. vm_compute. reflexivity.
  - intros (lat & lon & km & -> & _). cbn [children_of].
    rewrite length_map. vm_compute. reflexivity.
Qed.

Lemma children_count (l : layer) (items : list item) :
  l <> layer_volcano ->
  Forall (layer_item l) items ->
  List.length (flat_map children_of items)
  = (rings_per_circle l * List.length items)%nat.
Proof.
  intros Hl H. induction H as [| it items Hit _ IH]; [simpl; lia |].
  cbn [flat_map List.length]. rewrite length_app, IH.
  rewrite (children_per_item l it Hl Hit). lia.
Qed.

End ChildFacts.

(** X20: whatever the feeds return, each layer of the map holds only the
    children of its own block.  The radar layer holds tiles with a
    non-empty path; the volcano layer rings of a 20 km circle and
    markers with a non-empty tooltip; the alerts layer polygons whose
    event is one of the eighteen listed names and whose geometry has
    bounds; the severe-report layer rings of circles of 8, 6 or 5 km in
    the colour of their kind; the earthquake layer rings of circles of
    2 to 300 km; the wildfire layer rings of circles of 150 to 2000 m;
    the cyclone layer rings of circles of 100 to 500 km.  A ring of a
    circle has the radius of the circle times a fraction in (0, 1], the
    colour of its layer and an opacity between 0 and the one asked
    for. *)
Theorem layers_hold_their_items :
  forall (location_ok : option pyfloat -> option pyfloat -> bool)
         (geojson_ok : json -> bool) (py_repr : json -> string)
         (f : feeds) (l : layer),
    Forall (layer_child l)
      (layer_children (build_map location_ok geojson_ok py_repr f) l).
Proof.
  intros location_ok geojson_ok py_repr f l.
  unfold layer_children. apply children_of_layer, layer_items_hold.
Qed.

(** ** The volcano layer *)

Lemma paired_pair (p : option pyfloat * option pyfloat * json) :
  preserves paired
    (bind (draw (FadedCircle (fst (fst p)) (snd (fst p)) (Fin 20000%R)
                   "#B87333" 4 0.25))
       (fun _ => bind (draw (CircleMarker (fst (fst p)) (snd (fst p)) (snd p)))
                   (fun _ => count_one))).
Proof.
  destruct p as [[lat lon] title].
  intros s (ps & Hd & Ht). exists (ps ++ [(lat, lon, title)])%list.
  cbn -[volcano_pair]. rewrite flat_map_app, length_app, Hd, Ht.
  simpl. rewrite <- app_assoc. split; [reflexivity | lia].
Qed.

Lemma volcano_paired location_ok fetched :
  preserves paired (volcano_block location_ok fetched).
Proof.
  unfold volcano_block, add_faded_circle, circle_marker.
  repeat first
    [ match goal with
      | |- preserves paired
             (bind (draw (FadedCircle ?lat ?lon _ _ _ _))
                (fun _ => bind (draw (CircleMarker _ _ ?title)) _)) =>
          apply (paired_pair (lat, lon, title))
      end
    | items_step ].
Qed.

Lemma volcano_group_children (p : option pyfloat * option pyfloat * json) :
  flat_map children_of (volcano_pair p) = volcano_group p.
Proof. destruct p as [[lat lon] title]. reflexivity. Qed.

Lemma volcano_group_radii (p : option pyfloat * option pyfloat * json) :
  map radius_of (volcano_group p)
  = [ Some (Fin 5000%R); Some (Fin 10000%R); Some (Fin 15000%R);
      Some (Fin 20000%R); None ].
Proof.
  destruct p as [[lat lon] title].
  unfold volcano_group. cbn [children_of].
  change (faded_rings (Z.of_nat 4) 0.25)
    with [ {| fraction := 1 # 4; fill_opacity := 375 # 1600 |};
           {| fraction := 1 # 2; fill_opacity := 75 # 400 |};
           {| fraction := 3 # 4; fill_opacity := 175 # 1600 |};
           {| fraction := 1; fill_opacity := 0 |} ].
  cbn [map app radius_of circle_of fraction].
  assert (E : forall (q : Q) (r : R),
             (20000 * Q2R q = r)%R -> (Rabs r <= 1000000000000000000)%R ->
             xmul (Fin 20000%R) (Fin (Q2R q)) = Fin r).
  { intros q r <- Hr. apply xmul_moderate. exact Hr. }
  rewrite (E (1 # 4) 5000%R), (E (1 # 2) 10000%R), (E (3 # 4) 15000%R),
    (E 1%Q 20000%R);
    try (unfold Q2R; simpl; lra);
    try (apply Rabs_le; lra).
  reflexivity.
Qed.

(** X21: the volcano layer is a sequence of groups, one for each
    position: the four rings of a 20 km circle, of 5, 10, 15 and 20 km,
    followed by a marker at the same position.  No circle stands without
    its marker, so the layer holds five children for each position. *)
Theorem volcano_items_come_in_pairs :
  forall (location_ok : option pyfloat -> option pyfloat -> bool)
         (geojson_ok : json -> bool) (py_repr : json -> string) (f : feeds),
    exists ps,
      layer_children (build_map location_ok geojson_ok py_repr f) layer_volcano
      = flat_map volcano_group ps
      /\ List.length
           (layer_children (build_map location_ok geojson_ok py_repr f)
              layer_volcano)
         = (5 * List.length ps)%nat
      /\ forall p, In p ps ->
           map radius_of (volcano_group p)
           = [ Some (Fin 5000%R); Some (Fin 10000%R); Some (Fin 15000%R);
               Some (Fin 20000%R); None ].
Proof.
  intros location_ok geojson_ok py_repr f.
  unfold layer_children, items_of. rewrite build_map_layers.
  cbn [children layer_eqb].
  unfold alone, try_block. cbn [fst].
  destruct (volcano_paired location_ok (eonet f)
              {| drawn := []; tally := 0; counts := initial_counts |})
    as (ps & Hd & _).
  { exists []. split; reflexivity. }
  exists ps. rewrite Hd.
  assert (E : flat_map children_of (flat_map volcano_pair ps)
              = flat_map volcano_group ps).
  { clear Hd. induction ps as [| p ps IH]; [reflexivity |].
    cbn [flat_map]. rewrite flat_map_app, IH, volcano_group_children.
    reflexivity. }
  rewrite E. split; [reflexivity |].
  split; [| intros p _; apply volcano_group_radii].
  clear Hd E. induction ps as [| p ps IH]; [reflexivity |].
  cbn [flat_map List.length]. rewrite length_app, IH.
  rewrite <- (length_map radius_of), volcano_group_radii. simpl. lia.
Qed.

(** ** The counts *)

Lemma dict_find_set_same {V : Type} (d : list (string * V)) (k : string) (v : V) :
  dict_find (dict_set d k v) k = Some v.
Proof.
  induction d as [| [k0 v0] d IH]; simpl.
  - rewrite String.eqb_refl. reflexivity.
  - destruct (String.eqb k0 k) eqn:E; simpl.
    + rewrite String.eqb_refl. reflexivity.
    + rewrite E. exact IH.
Qed.

Lemma dict_find_set_neq {V : Type} (d : list (string * V)) (k k' : string) (v : V) :
  k <> k' -> dict_find (dict_set d k v) k' = dict_find d k'.
Proof.
  intros Hk. induction d as [| [k0 v0] d IH]; simpl.
  - destruct (String.eqb k k') eqn:E; [| reflexivity].
    apply String.eqb_eq in E. contradiction.
  - destruct (String.eqb k0 k) eqn:E; simpl.
    + apply String.eqb_eq in E. subst k0.
      destruct (String.eqb k k') eqn:E'; [| reflexivity].
      apply String.eqb_eq in E'. contradiction.
    + destruct (String.eqb k0 k'); [reflexivity | exact IH].
Qed.

Section KeptKeys.
Variable k : string.
Variable v : option nat.

Lemma keeps_draw (it : item) : preserves (keeps k v) (draw it).
Proof. intros s H; exact H. Qed.

Lemma keeps_count_one : preserves (keeps k v) count_one.
Proof. intros s H; exact H. Qed.

Lemma keeps_store_tally (k' : string) :
  k' <> k -> preserves (keeps k v) (store_tally k').
Proof.
  intros Hk s H. unfold keeps in *; simpl.
  rewrite dict_find_set_neq by exact Hk. exact H.
Qed.

Lemma keeps_set_count (k' : string) (n : nat) :
  k' <> k -> preserves (keeps k v) (set_count k' n).
Proof.
  intros Hk s H. unfold keeps in *; simpl.
  rewrite dict_find_set_neq by exact Hk. exact H.
Qed.

Lemma keeps_bump (k' : string) : k' <> k -> preserves (keeps k v) (bump k').
Proof.
  intros Hk s H. unfold keeps, bump in *.
  destruct (dict_find (counts s) k'); simpl; [| exact H].
  rewrite dict_find_set_neq by exact Hk. exact H.
Qed.

End KeptKeys.

Ltac keeps_step :=
  first
    [ apply keeps_draw | apply keeps_count_one
    | apply keeps_store_tally; assumption
    | apply keeps_set_count; assumption
    | apply keeps_bump; assumption
    | items_step ].

Section BlocksKeep.
Variable location_ok : option pyfloat -> option pyfloat -> bool.
Variable geojson_ok : json -> bool.
Variable py_repr : json -> string.
Variable k : string.
Variable v : option nat.

Lemma radar_keeps fetched :
  "radar" <> k -> preserves (keeps k v) (radar_block fetched).
Proof. intros Hk. unfold radar_block. repeat keeps_step. Qed.

Lemma volcano_keeps fetched :
  preserves (keeps k v) (volcano_block location_ok fetched).
Proof.
  unfold volcano_block, add_faded_circle, circle_marker. repeat keeps_step.
Qed.

Lemma nws_keeps resp :
  "nws" <> k -> preserves (keeps k v) (nws_block geojson_ok py_repr resp).
Proof. intros Hk. unfold nws_block. repeat keeps_step. Qed.

Lemma spc_keeps feeds :
  "spc_lsr" <> k -> preserves (keeps k v) (spc_block location_ok feeds).
Proof. intros Hk. unfold spc_block, add_faded_circle. repeat keeps_step. Qed.

Lemma quakes_keeps results :
  "earthquakes" <> k -> preserves (keeps k v) (quakes_block location_ok results).
Proof. intros Hk. unfold quakes_block, add_faded_circle. repeat keeps_step. Qed.

Lemma fires_keeps fetched :
  "fires" <> k -> preserves (keeps k v) (fires_block location_ok fetched).
Proof. intros Hk. unfold fires_block, add_faded_circle. repeat keeps_step. Qed.

Lemma cyclones_keeps fetched :
  "storms" <> k ->
  preserves (keeps k v) (cyclones_block location_ok py_repr fetched).
Proof.
  intros Hk. unfold cyclones_block, cyclone_record, add_faded_circle.
  repeat keeps_step.
Qed.

End BlocksKeep.

Section Tallies.
Variable k : string.
Variable v0 : option nat.

Lemma tallies_counted (s : sst) : tallies k v0 s -> counted k v0 s.
Proof. intros [_ H]. right. exact H. Qed.

Lemma tallies_draw_count (it : item) :
  preserves (tallies k v0) (bind (draw it) (fun _ => count_one)).
Proof.
  intros s [Ht Hk]. split; simpl; [| exact Hk].
  rewrite length_app, Ht. simpl. lia.
Qed.

Lemma reaches_loop_store (m : M unit) :
  preserves (tallies k v0) m ->
  reaches (tallies k v0) (counted k v0) (bind m (fun _ => store_tally k)).
Proof.
  intros Hm s Hs. unfold bind. specialize (Hm s Hs).
  destruct (m s) as [[a |] s']; simpl in *.
  - left. simpl. rewrite dict_find_set_same. f_equal. apply Hm.
  - right. apply Hm.
Qed.

End Tallies.

Section Reaches.
Variables J F : sst -> Prop.
Hypothesis J_F : forall s, J s -> F s.

Lemma reaches_ret {A : Type} (a : A) : reaches J F (ret a).
Proof. intros s H. apply J_F; exact H. Qed.

Lemma reaches_raise {A : Type} : reaches J F (@raise A).
Proof. intros s H. apply J_F; exact H. Qed.

Lemma reaches_lift_bind {A B : Type} (o : option A) (f : A -> M B) :
  (forall a, reaches J F (f a)) -> reaches J F (bind (lift o) f).
Proof.
  intros H s Hs. unfold bind. destruct o as [a |]; simpl.
  - apply H; exact Hs.
  - apply J_F; exact Hs.
Qed.

Lemma reaches_ret_bind {A B : Type} (a : A) (f : A -> M B) :
  reaches J F (f a) -> reaches J F (bind (ret a) f).
Proof. intros H s Hs. unfold bind; simpl. apply H; exact Hs. Qed.

End Reaches.

Ltac tallies_step :=
  first [ apply tallies_draw_count | items_step ].

Section BlocksCount.
Variable location_ok : option pyfloat -> option pyfloat -> bool.
Variable geojson_ok : json -> bool.
Variable py_repr : json -> string.
Variable v0 : option nat.

Lemma nws_counted resp :
  reaches (tallies "nws" v0) (counted "nws" v0)
    (nws_block geojson_ok py_repr resp).
Proof.
  unfold nws_block. cbv zeta.
  match goal with
  | |- reaches _ _ (if ?c then _ else _) => destruct c
  end.
  - apply reaches_raise, tallies_counted.
  - apply reaches_lift_bind; [apply tallies_counted | intros feats].
    apply reaches_lift_bind; [apply tallies_counted | intros fs].
    apply reaches_loop_store. repeat tallies_step.
Qed.

Lemma spc_counted feeds :
  reaches (tallies "spc_lsr" v0) (counted "spc_lsr" v0)
    (spc_block location_ok feeds).
Proof.
  unfold spc_block, add_faded_circle.
  apply reaches_loop_store. repeat tallies_step.
Qed.

Lemma quakes_counted results :
  reaches (tallies "earthquakes" v0) (counted "earthquakes" v0)
    (quakes_block location_ok results).
Proof.
  unfold quakes_block, add_faded_circle.
  apply reaches_loop_store. repeat tallies_step.
Qed.

Lemma fires_counted fetched :
  reaches (tallies "fires" v0) (counted "fires" v0)
    (fires_block location_ok fetched).
Proof.
  unfold fires_block, add_faded_circle.
  apply reaches_lift_bind; [apply tallies_counted | intros reader].
  apply reaches_loop_store. repeat tallies_step.
Qed.

Lemma storms_draw_bump (it : item) :
  preserves (counts_drawn "storms") (bind (draw it) (fun _ => bump "storms")).
Proof.
  intros s H. unfold counts_drawn in *. unfold bind, draw, bump.
  cbn [counts drawn tally]. rewrite H. cbn [snd counts drawn].
  rewrite dict_find_set_same, length_app. simpl. f_equal. lia.
Qed.

Lemma cyclones_counted fetched :
  preserves (counts_drawn "storms")
    (cyclones_block location_ok py_repr fetched).
Proof.
  unfold cyclones_block, cyclone_record, add_faded_circle.
  repeat first [ apply storms_draw_bump | items_step ].
Qed.

Lemma radar_counted fetched :
  reaches (fun s => drawn s = [] /\ dict_find (counts s) "radar" = Some 0%nat)
    (fun s => counts_drawn "radar" s /\ (List.length (drawn s) <= 1)%nat)
    (radar_block fetched).
Proof.
  assert (JF : forall s,
             drawn s = [] /\ dict_find (counts s) "radar" = Some 0%nat ->
             counts_drawn "radar" s /\ (List.length (drawn s) <= 1)%nat).
  { intros s [Hd Hc]. unfold counts_drawn. rewrite Hd, Hc. simpl.
    split; [reflexivity | lia]. }
  unfold radar_block.
  repeat first
    [ match goal with
      | |- reaches _ _ (bind (lift _) _) =>
          apply reaches_lift_bind; [exact JF | intros ?]
      | |- reaches _ _ (bind (ret _) _) => apply reaches_ret_bind
      | |- reaches _ _ (ret _) => apply reaches_ret; exact JF
      | |- reaches _ _ (bind (match ?x with _ => _ end) _) => destruct x
      | |- reaches _ _ (match ?x with _ => _ end) => destruct x
      end ].
  all: intros s [Hd Hc]; unfold counts_drawn; simpl; rewrite Hd;
    rewrite dict_find_set_same; simpl; split; [reflexivity | lia].
Qed.

End BlocksCount.


(** The counts against the number of items, one for each call that
    drew. *)
Lemma counts_match_items :
  forall (location_ok : option pyfloat -> option pyfloat -> bool)
         (geojson_ok : json -> bool) (py_repr : json -> string) (f : feeds),
    let m := build_map location_ok geojson_ok py_repr f in
    let n := fun l => List.length (items_of m l) in
    let c := dict_find (final_counts m) in
    c "radar" = Some (n layer_radar)
    /\ (n layer_radar <= 1)%nat
    /\ c "storms" = Some (n layer_tc_areas)
    /\ (c "nws" = Some (n layer_nws) \/ c "nws" = Some 0%nat)
    /\ (c "earthquakes" = Some (n layer_quakes_area)
        \/ c "earthquakes" = Some 0%nat)
    /\ (c "fires" = Some (n layer_fires_area) \/ c "fires" = Some 0%nat)
    /\ (c "spc_lsr" = Some (n layer_spc_lsr) \/ c "spc_lsr" = None)
    /\ (forall k, c k <> None -> In k count_keys).
Proof.
  intros location_ok geojson_ok py_repr f m n c. subst m n c.
  unfold items_of, build_map, try_block. cbv beta iota zeta.
  cbn [final_counts layers children layer_eqb].
  set (s1 := snd (radar_block _ _)).
  set (s2 := snd (volcano_block _ _ _)).
  set (s3 := snd (nws_block _ _ _ _)).
  set (s4 := snd (spc_block _ _ _)).
  set (s5 := snd (quakes_block _ _ _)).
  set (s6 := snd (fires_block _ _ _)).
  set (s7 := snd (cyclones_block _ _ _ _)).
  assert (K1 : forall k v, "radar" <> k ->
             dict_find initial_counts k = v -> dict_find (counts s1) k = v).
  { intros k v Hk H. exact (radar_keeps k v (rainviewer f) Hk {| drawn := []; tally := 0; counts := initial_counts |} H). }
  assert (K2 : forall k v,
             dict_find (counts s1) k = v -> dict_find (counts s2) k = v).
  { intros k v H. exact (volcano_keeps location_ok k v (eonet f) {| drawn := []; tally := 0; counts := counts s1 |} H). }
  assert (K3 : forall k v, "nws" <> k ->
             dict_find (counts s2) k = v -> dict_find (counts s3) k = v).
  { intros k v Hk H.
    exact (nws_keeps geojson_ok py_repr k v (nws_alerts f) Hk
             {| drawn := []; tally := 0; counts := counts s2 |} H). }
  assert (K4 : forall k v, "spc_lsr" <> k ->
             dict_find (counts s3) k = v -> dict_find (counts s4) k = v).
  { intros k v Hk H. exact (spc_keeps location_ok k v _ Hk {| drawn := []; tally := 0; counts := counts s3 |} H). }
  assert (K5 : forall k v, "earthquakes" <> k ->
             dict_find (counts s4) k = v -> dict_find (counts s5) k = v).
  { intros k v Hk H. exact (quakes_keeps location_ok k v _ Hk {| drawn := []; tally := 0; counts := counts s4 |} H). }
  assert (K6 : forall k v, "fires" <> k ->
             dict_find (counts s5) k = v -> dict_find (counts s6) k = v).
  { intros k v Hk H. exact (fires_keeps location_ok k v _ Hk {| drawn := []; tally := 0; counts := counts s5 |} H). }
  assert (K7 : forall k v, "storms" <> k ->
             dict_find (counts s6) k = v -> dict_find (counts s7) k = v).
  { intros k v Hk H. exact (cyclones_keeps location_ok py_repr k v _ Hk
             {| drawn := []; tally := 0; counts := counts s6 |} H). }
  assert (R1 : counts_drawn "radar" s1 /\ (List.length (drawn s1) <= 1)%nat).
  { apply (radar_counted (rainviewer f)). split; reflexivity. }
  assert (R3 : counted "nws" (Some 0%nat) s3).
  { apply (nws_counted geojson_ok py_repr (Some 0%nat) (nws_alerts f)).
    split; [reflexivity |]. cbn [counts].
    apply K2, K1; [discriminate | reflexivity]. }
  assert (R4 : counted "spc_lsr" None s4).
  { apply (spc_counted location_ok None). split; [reflexivity |]. cbn [counts].
    apply K3, K2, K1; try discriminate. reflexivity. }
  assert (R5 : counted "earthquakes" (Some 0%nat) s5).
  { apply (quakes_counted location_ok (Some 0%nat)).
    split; [reflexivity |]. cbn [counts].
    apply K4, K3, K2, K1; try discriminate. reflexivity. }
  assert (R6 : counted "fires" (Some 0%nat) s6).
  { apply (fires_counted location_ok (Some 0%nat)).
    split; [reflexivity |]. cbn [counts].
    apply K5, K4, K3, K2, K1; try discriminate. reflexivity. }
  assert (R7 : counts_drawn "storms" s7).
  { apply (cyclones_counted location_ok py_repr). unfold counts_drawn.
    cbn [counts drawn List.length].
    apply K6, K5, K4, K3, K2, K1; try discriminate. reflexivity. }
  clearbody s1 s2 s3 s4 s5 s6 s7.
  unfold counts_drawn, counted in *.
  split.
  { apply K7, K6, K5, K4, K3, K2; try discriminate. apply R1. }
  split; [apply R1 |].
  split; [exact R7 |].
  split.
  { destruct R3 as [H | H]; [left | right];
      apply K7, K6, K5, K4; try discriminate; exact H. }
  split.
  { destruct R5 as [H | H]; [left | right];
      apply K7, K6; try discriminate; exact H. }
  split.
  { destruct R6 as [H | H]; [left | right];
      apply K7; try discriminate; exact H. }
  split.
  { destruct R4 as [H | H]; [left | right];
      apply K7, K6, K5; try discriminate; exact H. }
  intros k Hk.
  destruct (in_dec string_dec k count_keys) as [Hin | Hout]; [exact Hin |].
  exfalso. apply Hk.
  assert (Hne : forall k', In k' count_keys -> k' <> k).
  { intros k' Hin ->. contradiction. }
  apply K7, K6, K5, K4, K3, K2, K1;
    try (apply Hne; simpl; auto 10).
  unfold initial_counts. cbn [dict_find].
  repeat match goal with
         | |- context [String.eqb ?a k] =>
             let E := fresh "E" in
             destruct (String.eqb a k) eqn:E;
             [apply String.eqb_eq in E; exfalso;
              apply (Hne a); [simpl; auto 10 | exact E] |]
         end.
  reflexivity.
Qed.

(** ** [build_map]: the counts against the layers *)

(** X22: when [build_map] returns, the radar count is the number of
    tiles in the radar layer, which is at most one, and the alert count
    is the number of polygons in the alerts layer or, when the block
    raised, still zero.  The other counts count calls of
    [add_faded_circle], each of which adds several rings: the cyclone
    layer holds 5 children for each storm counted; the earthquake layer
    5 and the wildfire layer 4 for each event counted, unless the block
    raised and the count is still zero; the severe-report layer 3 for
    each report counted, unless the block raised and the count is
    missing.  No other key is ever written: the volcano tally is not
    kept. *)
Theorem counts_match_layers :
  forall (location_ok : option pyfloat -> option pyfloat -> bool)
         (geojson_ok : json -> bool) (py_repr : json -> string) (f : feeds),
    let m := build_map location_ok geojson_ok py_repr f in
    let n := fun l => List.length (layer_children m l) in
    let c := dict_find (final_counts m) in
    c "radar" = Some (n layer_radar)
    /\ (n layer_radar <= 1)%nat
    /\ (exists k, c "storms" = Some k /\ n layer_tc_areas = (5 * k)%nat)
    /\ (c "nws" = Some (n layer_nws) \/ c "nws" = Some 0%nat)
    /\ ((exists k, c "earthquakes" = Some k
                   /\ n layer_quakes_area = (5 * k)%nat)
        \/ c "earthquakes" = Some 0%nat)
    /\ ((exists k, c "fires" = Some k /\ n layer_fires_area = (4 * k)%nat)
        \/ c "fires" = Some 0%nat)
    /\ ((exists k, c "spc_lsr" = Some k /\ n layer_spc_lsr = (3 * k)%nat)
        \/ c "spc_lsr" = None)
    /\ (forall k, c k <> None -> In k count_keys).
Proof.
  intros location_ok geojson_ok py_repr f m n c.
  pose proof (counts_match_items location_ok geojson_ok py_repr f)
    as (Hr & Hr1 & Hs & Hn & Hq & Hf & Hp & Hk).
  fold m in Hr, Hr1, Hs, Hn, Hq, Hf, Hp, Hk.
  assert (L : forall l, l <> layer_volcano ->
                n l = (rings_per_circle l * List.length (items_of m l))%nat).
  { intros l Hl. unfold n, layer_children.
    apply children_count; [exact Hl |]. apply layer_items_hold. }
  subst c. cbv beta in *.
  rewrite (L layer_radar), (L layer_nws) by discriminate.
  cbn [rings_per_circle]. rewrite !Nat.mul_1_l.
  split; [exact Hr |]. split; [exact Hr1 |].
  split.
  { eexists. split; [exact Hs |]. apply (L layer_tc_areas). discriminate. }
  split; [exact Hn |].
  split.
  { destruct Hq as [H | H]; [left | right; exact H].
    eexists. split; [exact H |]. apply (L layer_quakes_area). discriminate. }
  split.
  { destruct Hf as [H | H]; [left | right; exact H].
    eexists. split; [exact H |]. apply (L layer_fires_area). discriminate. }
  split; [| exact Hk].
  destruct Hp as [H | H]; [left | right; exact H].
  eexists. split; [exact H |]. apply (L layer_spc_lsr). discriminate.
Qed.

(** ** The quick map *)

Section SameLayer.

Lemma same_layer_ret {A : Type} (a : A) : same_layer (ret a) (ret a).
Proof. intros s1 s2 H; split; [reflexivity | exact H]. Qed.

Lemma same_layer_lift {A : Type} (o : option A) : same_layer (lift o) (lift o).
Proof. intros s1 s2 H; destruct o; split; try reflexivity; exact H. Qed.

Lemma same_layer_bind {A B : Type} (m1 m2 : M A) (f1 f2 : A -> M B) :
  same_layer m1 m2 -> (forall a, same_layer (f1 a) (f2 a)) ->
  same_layer (bind m1 f1) (bind m2 f2).
Proof.
  intros Hm Hf s1 s2 H. unfold bind.
  destruct (Hm s1 s2 H) as [Hr Hs].
  destruct (m1 s1) as [[a1 |] t1], (m2 s2) as [[a2 |] t2];
    simpl in Hr, Hs; try discriminate.
  - injection Hr as ->. apply Hf; exact Hs.
  - split; [reflexivity | exact Hs].
Qed.

Lemma same_layer_draw_count (it : item) (k : string) (v : nat) :
  same_layer (draw it) (bind (draw it) (fun _ => set_count k v)).
Proof.
  intros s1 s2 H. split; [reflexivity |]. simpl. rewrite H. reflexivity.
Qed.

Lemma quick_radar_same fetched :
  same_layer (quick_radar_block fetched) (radar_block fetched).
Proof.
  unfold quick_radar_block, radar_block.
  repeat first
    [ apply same_layer_ret | apply same_layer_lift
    | apply same_layer_draw_count
    | apply same_layer_bind; [| intros ?]
    | match goal with
      | |- same_layer (match ?x with _ => _ end) _ => destruct x
      end ].
Qed.

End SameLayer.

(** X23: for the same answer of the radar service the quick map holds
    one layer, and it is the radar layer of the full map, item for
    item. *)
Theorem quick_map_is_the_radar_layer :
  forall (location_ok : option pyfloat -> option pyfloat -> bool)
         (geojson_ok : json -> bool) (py_repr : json -> string) (f : feeds),
    layers (build_quick_map (rainviewer f))
    = [ (layer_radar,
         items_of (build_map location_ok geojson_ok py_repr f) layer_radar) ].
Proof.
  intros location_ok geojson_ok py_repr f.
  unfold items_of. rewrite build_map_layers. cbn [children layer_eqb].
  unfold build_quick_map, alone, try_block. cbn [layers fst].
  do 2 f_equal.
  apply (quick_radar_same (rainviewer f)). reflexivity.
Qed.

(** ** The alerts answer *)

Lemma nws_data_of (status_code : Z) (body : option json) :
  status_code <> 200 ->
  match Response status_code body with
  | Response 200 (Some data) => data
  | _ => JNull
  end = JNull.
Proof.
  intros Hne. destruct status_code as [| p | p]; try reflexivity.
  repeat (destruct p as [p | p |]; try reflexivity).
  contradiction Hne. reflexivity.
Qed.

Lemma nws_answer_cases (geojson_ok : json -> bool) (py_repr : json -> string)
  (resp : http_result) :
  (exists kv x l,
     resp = Response 200 (Some (JObj kv))
     /\ dict_get_default kv "features" (JArr []) = JArr (x :: l))
  \/ alone (nws_block geojson_ok py_repr resp) = [].
Proof.
  unfold alone, try_block, nws_block. cbv zeta.
  destruct resp as [| status_code body]; [right; reflexivity |].
  destruct (Z.eq_dec status_code 200) as [-> | Hne];
    [| right; rewrite (nws_data_of status_code body Hne); reflexivity].
  destruct body as [data |]; [| right; reflexivity].
  destruct data as [| b | z | x | s | l | kv];
    try (right; cbn; match goal with
                     | |- context [if ?c then _ else _] => destruct c
                     end; reflexivity);
    try (right; reflexivity).
  destruct kv as [| p kv]; [right; reflexivity |].
  cbn [truthy negb py_get_default bind lift ret].
  destruct (dict_get_default (p :: kv) "features" (JArr []))
    as [| b | z | x | s | l | kv'] eqn:E; try (right; reflexivity).
  - right. destruct s as [| c s]; reflexivity.
  - destruct l as [| x l]; [right; reflexivity |].
    left. exists (p :: kv), x, l. split; [reflexivity | exact E].
  - right. destruct kv' as [| q kv']; reflexivity.
Qed.

(** X25: an alert is drawn only from an answer with status 200 whose
    body is a JSON object with a non-empty list under [features].  Any
    other status, a body that is not an object, or features given in
    another shape leave the alerts layer empty. *)
Theorem alerts_need_a_200_answer :
  forall (geojson_ok : json -> bool) (py_repr : json -> string)
         (resp : http_result) (it : item) (rest : list item),
    alone (nws_block geojson_ok py_repr resp) = it :: rest ->
    exists kv x l,
      resp = Response 200 (Some (JObj kv))
      /\ dict_get_default kv "features" (JArr []) = JArr (x :: l).
Proof.
  intros geojson_ok py_repr resp it rest H.
  destruct (nws_answer_cases geojson_ok py_repr resp) as [Hok | Hnone];
    [exact Hok |].
  rewrite Hnone in H. discriminate H.
Qed.

Lemma alerts_answer_witness :
  alone (nws_block any_geojson blank_repr nws_one_warning)
  = [GeoJson tornado_warning "Tornado Warning" (JStr EmptyString)]
  /\ exists kv x l,
       nws_one_warning = Response 200 (Some (JObj kv))
       /\ dict_get_default kv "features" (JArr []) = JArr (x :: l).
Proof.
  assert (H : alone (nws_block any_geojson blank_repr nws_one_warning)
              = [GeoJson tornado_warning "Tornado Warning" (JStr EmptyString)])
    by reflexivity.
  split; [exact H |].
  exact (alerts_need_a_200_answer any_geojson blank_repr nws_one_warning
           _ _ H).
Defined.

(** ** Each layer against the other sources *)

(** X26: a layer is a function of its own source alone.  Two runs in
    which the source of a layer returned the same give that layer the
    same items, whatever the other six sources returned and whatever
    the earlier blocks left in the counts. *)
Theorem layer_depends_on_its_source_only :
  forall (location_ok : option pyfloat -> option pyfloat -> bool)
         (geojson_ok : json -> bool) (py_repr : json -> string)
         (f g : feeds) (l : layer),
    same_source l f g ->
    items_of (build_map location_ok geojson_ok py_repr f) l
    = items_of (build_map location_ok geojson_ok py_repr g) l.
Proof.
  intros location_ok geojson_ok py_repr f g l H.
  unfold items_of. rewrite !build_map_layers.
  destruct l; cbn [children layer_eqb same_source] in *.
  - rewrite H. reflexivity.
  - rewrite H. reflexivity.
  - rewrite H. reflexivity.
  - destruct H as (-> & -> & ->). reflexivity.
  - rewrite H. reflexivity.
  - rewrite H. reflexivity.
  - rewrite H. reflexivity.
Qed.

Lemma layer_source_witness :
  same_source layer_quakes_area
    (quiet_with (Some (usgs_one 1)) None None None)
    (quiet_with (Some (usgs_one 1)) None (Some nhc_91N) (Some eonet_unparsed))
  /\ items_of (build_map validate_location any_geojson blank_repr
                 (quiet_with (Some (usgs_one 1)) None None None))
       layer_quakes_area
     = items_of (build_map validate_location any_geojson blank_repr
                   (quiet_with (Some (usgs_one 1)) None (Some nhc_91N)
                      (Some eonet_unparsed)))
         layer_quakes_area.
Proof.
  assert (H : same_source layer_quakes_area
                (quiet_with (Some (usgs_one 1)) None None None)
                (quiet_with (Some (usgs_one 1)) None (Some nhc_91N)
                   (Some eonet_unparsed)))
    by reflexivity.
  split; [exact H |].
  exact (layer_depends_on_its_source_only validate_location any_geojson
           blank_repr _ _ layer_quakes_area H).
Defined.
